(** * Printer utilities ([src/print.ts]) : a shallow embedding

    The module under study wraps the CUPS command line tools.  Its logic is
    text scraping (regular expressions over command output), string-built
    command lines and a few effectful workflows (temporary files, error
    wrapping, a self-rescheduling poller).

    Conventions of the embedding.
    - A JavaScript string is a list of code units; the code units below 256
      are modelled ([ascii]).  Literals are written [lit "..."].
    - Effectful functions are state transformers over an explicit machine
      state (file system, event trace, command counter); everything the
      operating system decides is read from a [World] record.
    - A JavaScript number is a value of the type [number]: NaN, an
      infinity, a zero, or a finite number given by its decimal digits and
      the place of its decimal point.
    - A thrown [Error] is a value of the type [error]; [message] renders the
      text the JavaScript object would carry. *)

From Stdlib Require Import List Ascii String ZArith Lia Bool Arith.
From Stdlib Require Import Numbers.DecimalString Numbers.DecimalPos.
Import ListNotations.

Set Implicit Arguments.

(* ===================================================================== *)
(** ** JavaScript string primitives *)
(* ===================================================================== *)

Module Js.

Abbreviation str := (list ascii).

Definition lit (s : string) : str := list_ascii_of_string s.

Arguments lit s : simpl never.

Definition code (c : ascii) : nat := nat_of_ascii c.

Fixpoint str_eqb (a b : str) : bool :=
  match a, b with
  | [], [] => true
  | x :: a', y :: b' => Ascii.eqb x y && str_eqb a' b'
  | _, _ => false
  end.

(** [String.prototype.toLowerCase] on one code unit: the ASCII capitals and
    the Latin-1 capitals U+00C0..U+00DE (U+00D7, the multiplication sign,
    excepted) move up by 32. *)
Definition lower_char (c : ascii) : ascii :=
  let n := code c in
  if ((65 <=? n) && (n <=? 90))
     || ((192 <=? n) && (n <=? 222) && negb (n =? 215))
  then ascii_of_nat (n + 32) else c.

Definition toLowerCase (s : str) : str := map lower_char s.

(** [s.startsWith(p)] *)
Fixpoint startsWith (p s : str) : bool :=
  match p, s with
  | [], _ => true
  | x :: p', y :: s' => Ascii.eqb x y && startsWith p' s'
  | _ :: _, [] => false
  end.

(** [s.includes(sub)] : some suffix of [s] starts with [sub]. *)
Fixpoint includes (s sub : str) : bool :=
  startsWith sub s ||
  match s with
  | [] => false
  | _ :: t => includes t sub
  end.

(** [s.split("\n")] *)
Definition newline : ascii := ascii_of_nat 10.

Fixpoint split_on (sep : ascii) (s : str) : list str :=
  match s with
  | [] => [[]]
  | c :: t =>
      if Ascii.eqb c sep then [] :: split_on sep t
      else match split_on sep t with
           | [] => [[c]]
           | l :: ls => (c :: l) :: ls
           end
  end.

Definition split_lines (s : str) : list str := split_on newline s.

(** [arr.join(sep)] *)
Fixpoint join (sep : str) (l : list str) : str :=
  match l with
  | [] => []
  | [x] => x
  | x :: rest => x ++ sep ++ join sep rest
  end.

(** White space as [String.prototype.trim] sees it (code units below 256):
    TAB, LF, VT, FF, CR, SPACE and NBSP. *)
Definition is_space (c : ascii) : bool :=
  let n := code c in
  ((9 <=? n) && (n <=? 13)) || (n =? 32) || (n =? 160).

Fixpoint trimStart (s : str) : str :=
  match s with
  | c :: t => if is_space c then trimStart t else s
  | [] => []
  end.

Definition trim (s : str) : str := rev (trimStart (rev (trimStart s))).

(** A JavaScript number.  A finite number other than zero is given in
    decimal, the way the definition of [Number.prototype.toString] reads it:
    [Finite neg s n] is the number of magnitude 0.d1...dk x 10^n, where
    d1...dk are the decimal digits of [s].  The doubles are among these
    values; the digits that stand for a double are the shortest ones that
    read back as this double. *)
Inductive number :=
| NaN
| Infinity (negative : bool)
| Zero (negative : bool)
| Finite (negative : bool) (s : positive) (n : Z).

Definition zero_digit : ascii := ascii_of_nat 48.

(** The decimal digits of a positive integer, most significant first. *)
Definition digits (s : positive) : str :=
  lit (NilZero.string_of_uint (Pos.to_uint s)).

Fixpoint drop_zeros (s : str) : str :=
  match s with
  | c :: t => if Ascii.eqb c zero_digit then drop_zeros t else s
  | [] => []
  end.

(** The digits of [s] without its trailing zeros: the [k] digits of
    [Number::toString], [k] as small as possible. *)
Definition significant (s : positive) : str :=
  rev (drop_zeros (rev (digits s))).

(** The integer [z] as a number. *)
Definition number_of_Z (z : Z) : number :=
  match z with
  | Z0 => Zero false
  | Zpos p => Finite false p (Z.of_nat (List.length (digits p)))
  | Zneg p => Finite true p (Z.of_nat (List.length (digits p)))
  end.

(** [ToBoolean] of a number: NaN and the two zeros are falsy. *)
Definition number_truthy (x : number) : bool :=
  match x with
  | NaN | Zero _ => false
  | _ => true
  end.

(** [x > 1]: for a finite positive number, s x 10^(n-k) > 1 where [k] is the
    number of digits of [s]. *)
Definition gt_one (x : number) : bool :=
  match x with
  | Infinity false => true
  | Finite false s n =>
      let k := Z.of_nat (List.length (digits s)) in
      if (0 <=? n)%Z then (10 ^ k <? Zpos s * 10 ^ n)%Z
      else (10 ^ k * 10 ^ (- n) <? Zpos s)%Z
  | _ => false
  end.

(** [Number.prototype.toString()], radix 10: plain digits when the decimal
    point falls within 21 digits to the right or 6 to the left of the first
    digit, exponent notation otherwise. *)
Definition number_toString (x : number) : str :=
  match x with
  | NaN => lit "NaN"
  | Zero _ => lit "0"
  | Infinity negative => (if negative then lit "-" else []) ++ lit "Infinity"
  | Finite negative s n =>
      let ds := significant s in
      let k := Z.of_nat (List.length ds) in
      (if negative then lit "-" else [])
        ++ (if (-5 <=? n)%Z && (n <=? 21)%Z then
              if (k <=? n)%Z then ds ++ repeat zero_digit (Z.to_nat (n - k))
              else if (0 <? n)%Z then
                firstn (Z.to_nat n) ds ++ lit "." ++ skipn (Z.to_nat n) ds
              else lit "0." ++ repeat zero_digit (Z.to_nat (- n)) ++ ds
            else
              let exponent :=
                lit "e" ++ (if (n <? 0)%Z then lit "-" else lit "+")
                  ++ lit (NilZero.string_of_uint
                            (N.to_uint (Z.to_N (Z.abs (n - 1))))) in
              match ds with
              | [] => exponent
              | [d] => [d] ++ exponent
              | d :: rest => [d] ++ lit "." ++ rest ++ exponent
              end)
  end.

End Js.

Import Js.

(* ===================================================================== *)
(** ** Regular expressions

    The four patterns of [print.ts] use literals, the classes [.] and [\d],
    greedy and lazy repetition of a class, and capture groups that do not
    nest.  [exec_at] is the usual backtracking matcher in continuation
    passing style; [re_match] is [String.prototype.match] for a pattern
    without the [g] flag and returns the capture groups of the leftmost
    match. *)
(* ===================================================================== *)

Module Regex.

Inductive cls := Any | Digit.

Definition is_line_terminator (c : ascii) : bool :=
  (code c =? 10) || (code c =? 13).

Definition is_digit (c : ascii) : bool :=
  (48 <=? code c) && (code c <=? 57).

Definition cls_ok (k : cls) (c : ascii) : bool :=
  match k with
  | Any => negb (is_line_terminator c)
  | Digit => is_digit c
  end.

Inductive re :=
| Lit (s : str)            (* literal text *)
| PlusG (k : cls)          (* k+   greedy  *)
| StarG (k : cls)          (* k*   greedy  *)
| PlusL (k : cls)          (* k+?  lazy    *)
| Cat (r1 r2 : re)
| Grp (r : re).            (* ( r ) *)

Definition cont := str -> list str -> option (list str).

(** greedy [k*] : the longest run first, giving characters back one by one *)
Fixpoint star_greedy (k : cls) (s : str) (caps : list str) (kont : cont)
  : option (list str) :=
  match s with
  | c :: t =>
      if cls_ok k c then
        match star_greedy k t caps kont with
        | Some r => Some r
        | None => kont s caps
        end
      else kont s caps
  | [] => kont [] caps
  end.

(** lazy [k*?] : the shortest run first *)
Fixpoint star_lazy (k : cls) (s : str) (caps : list str) (kont : cont)
  : option (list str) :=
  match kont s caps with
  | Some r => Some r
  | None =>
      match s with
      | c :: t => if cls_ok k c then star_lazy k t caps kont else None
      | [] => None
      end
  end.

Fixpoint exec_at (r : re) (s : str) (caps : list str) (kont : cont)
  : option (list str) :=
  match r with
  | Lit l => if startsWith l s then kont (skipn (List.length l) s) caps else None
  | PlusG k =>
      match s with
      | c :: t => if cls_ok k c then star_greedy k t caps kont else None
      | [] => None
      end
  | StarG k => star_greedy k s caps kont
  | PlusL k =>
      match s with
      | c :: t => if cls_ok k c then star_lazy k t caps kont else None
      | [] => None
      end
  | Cat r1 r2 => exec_at r1 s caps (fun rest caps' => exec_at r2 rest caps' kont)
  | Grp r1 =>
      exec_at r1 s caps
        (fun rest caps' =>
           kont rest (caps' ++ [firstn (List.length s - List.length rest) s]))
  end.

Definition accept : cont := fun _ caps => Some caps.

(** Leftmost match: try every start position in turn. *)
Fixpoint re_match (r : re) (s : str) : option (list str) :=
  match exec_at r s [] accept with
  | Some caps => Some caps
  | None =>
      match s with
      | [] => None
      | _ :: t => re_match r t
      end
  end.

(** What a pattern denotes: [matches r x caps] says that [r] matches exactly
    the text [x], its groups capturing [caps]. *)
Fixpoint matches (r : re) (x : str) (caps : list str) : Prop :=
  match r with
  | Lit l => x = l /\ caps = []
  | PlusG k | PlusL k =>
      x <> [] /\ Forall (fun c => cls_ok k c = true) x /\ caps = []
  | StarG k => Forall (fun c => cls_ok k c = true) x /\ caps = []
  | Cat r1 r2 =>
      exists x1 x2 c1 c2,
        x = x1 ++ x2 /\ caps = c1 ++ c2 /\ matches r1 x1 c1 /\ matches r2 x2 c2
  | Grp r1 => exists c1, caps = c1 ++ [x] /\ matches r1 x c1
  end.

End Regex.

Import Regex.

(* ===================================================================== *)
(** ** Node's [path] module (POSIX flavour, the module targets macOS) *)
(* ===================================================================== *)

Module Path.

Definition slash : ascii := ascii_of_nat 47.
Definition dot : ascii := ascii_of_nat 46.

Definition is_slash (c : ascii) : bool := Ascii.eqb c slash.

Fixpoint drop_while (f : ascii -> bool) (s : str) : str :=
  match s with
  | c :: t => if f c then drop_while f t else s
  | [] => []
  end.

Fixpoint take_while (f : ascii -> bool) (s : str) : str :=
  match s with
  | c :: t => if f c then c :: take_while f t else []
  | [] => []
  end.

(** The last path segment, trailing slashes ignored, read backwards. *)
Definition basename_rev (p : str) : str :=
  take_while (fun c => negb (is_slash c)) (drop_while is_slash (rev p)).

(** [path.extname(p)]: from the last dot of the last segment to its end;
    empty when the segment has no dot, when its only dot is its first
    character, or when the segment is [".."]. *)
Definition extname (p : str) : str :=
  let b := basename_rev p in
  let tail := take_while (fun c => negb (Ascii.eqb c dot)) b in
  let before := skipn (List.length tail) b in
  match before with
  | [] => []                              (* no dot at all *)
  | _ :: [] => []                         (* the dot opens the segment *)
  | _ :: _ :: _ =>
      if str_eqb b [dot; dot] then [] else dot :: rev tail
  end.

(** One step of [normalizeString]: the segments kept so far are a stack,
    newest first. *)
Definition norm_step (allowAboveRoot : bool) (stack : list str) (seg : str)
  : list str :=
  if str_eqb seg [] || str_eqb seg [dot] then stack
  else if str_eqb seg [dot; dot] then
    match stack with
    | top :: rest =>
        if str_eqb top [dot; dot]
        then (if allowAboveRoot then seg :: stack else stack)
        else rest
    | [] => if allowAboveRoot then [seg] else []
    end
  else seg :: stack.

Definition ends_with_slash (p : str) : bool :=
  match rev p with
  | c :: _ => is_slash c
  | [] => false
  end.

(** [path.normalize(p)] *)
Definition normalize (p : str) : str :=
  match p with
  | [] => [dot]
  | c :: _ =>
      let isAbsolute := is_slash c in
      let trailing := ends_with_slash p in
      let body :=
        join [slash]
          (rev (fold_left (norm_step (negb isAbsolute)) (split_on slash p) [])) in
      match body with
      | [] => if isAbsolute then [slash]
              else if trailing then [dot; slash] else [dot]
      | _ :: _ =>
          (if isAbsolute then [slash] else [])
            ++ body ++ (if trailing then [slash] else [])
      end
  end.

(** [path.join(a, b)]: the non-empty arguments joined by a slash, then
    normalised. *)
Definition path_join (a b : str) : str :=
  match filter (fun x => negb (str_eqb x [])) [a; b] with
  | [] => [dot]
  | parts => normalize (join [slash] parts)
  end.

End Path.

(* ===================================================================== *)
(** ** Data model *)
(* ===================================================================== *)

Record Printer := mkPrinter {
  name : str;
  uri : str;
  status : str;
  isDefault : bool;
  isUSB : bool;
  description : option str
}.

(** [PrintOptions]; an absent field is [None].  [cupOptions] holds the
    entries of the record in the order [Object.entries] yields them. *)
Record PrintOptions := mkOptions {
  copies : option number;
  media : option str;
  grayscale : option bool;
  fitToPage : option bool;
  cupOptions : option (list (str * str))
}.

Definition no_options : PrintOptions := mkOptions None None None None None.

(** The second argument of [printImage]: [string | Buffer]. *)
Inductive image_input :=
| FromPath (p : str)
| FromBuffer (bytes : list Byte.byte).

(** Errors.  [SysError code msg] is a rejection produced by [fs] or
    [child_process]; [Thrown] is an error raised by a callback of the
    caller; the others are the [new Error(...)] sites of the module, and
    [Wrapped p e] is [new Error(`${p}: ${e.message}`)]. *)
Inductive error :=
| SysError (code msg : str)
| Thrown (msg : str)
| UnsupportedFormat (ext : str)
| FileNotFound (path : str)
| PrinterNotFound (printerName : str)
| NoPrintersFound
| Wrapped (prefix : str) (cause : error).

Definition supportedFormats : list str :=
  [lit ".png"; lit ".jpg"; lit ".jpeg"; lit ".gif"; lit ".pdf"; lit ".tiff";
   lit ".tif"].

Fixpoint message (e : error) : str :=
  match e with
  | SysError _ m => m
  | Thrown m => m
  | UnsupportedFormat ext =>
      lit "Unsupported file format: " ++ ext ++ lit ". Supported formats: "
        ++ join (lit ", ") supportedFormats
  | FileNotFound p => lit "File not found: " ++ p
  | PrinterNotFound n => lit "Printer not found: " ++ n
  | NoPrintersFound => lit "No printers found"
  | Wrapped p c => p ++ lit ": " ++ message c
  end.

(** [(error as NodeJS.ErrnoException).code] *)
Definition errno (e : error) : option str :=
  match e with
  | SysError c _ => Some c
  | _ => None
  end.

Inductive Result (A : Type) :=
| Ok (a : A)
| Err (e : error).

Arguments Ok {A} a.
Arguments Err {A} e.

(** What the process does to its environment, in order. *)
Inductive event :=
| EvExec (cmd : str)              (* execAsync(cmd) *)
| EvAccess (path : str)           (* fs.promises.access(path, R_OK) *)
| EvWriteFile (path : str)        (* fs.promises.writeFile(path, ...) *)
| EvUnlink (path : str)           (* fs.promises.unlink(path) *)
| EvWarn (msg : str)              (* console.warn(msg) *)
| EvOnResume (printerName : str)  (* onResume(printerName) *)
| EvOnError (msg : str)           (* onError(error), by its message *)
| EvSetTimeout (interval : Z).    (* setTimeout(check, interval) *)

(** A rejection by the operating system: its [code] and its message. *)
Record SysFailure := mkFailure {
  failure_code : str;
  failure_message : str
}.

Definition sys_error (f : SysFailure) : error :=
  SysError (failure_code f) (failure_message f).

(** The rejection of [fs.access] for a missing directory entry. *)
Definition no_entry (p : str) : SysFailure :=
  mkFailure (lit "ENOENT")
            (lit "ENOENT: no such file or directory, access '" ++ p ++ lit "'").

(** Everything decided outside the process. *)
Record World := mkWorld {
  (** the outcome of the [n]-th command of the run, given its text *)
  exec_result : nat -> str -> str + SysFailure;
  (** read permission of an existing file *)
  readable : str -> bool;
  (** how [fs.access] rejects a path that names no file: [ENOENT] when the
      entry is missing from its directory, [ENOTDIR] when the path runs
      through a regular file, [EACCES] when a directory on the way may not
      be searched, ... *)
  access_refusal : str -> SysFailure;
  (** whether writing / unlinking a path is refused, and how *)
  write_failure : str -> option SysFailure;
  unlink_failure : str -> option SysFailure;
  tmpdir : str;                 (* os.tmpdir() *)
  now : number;                 (* Date.now() *)
  random_digits : list nat;     (* Math.random(): base 36 fraction digits *)
  (** the stop handle is invoked while the [n]-th tick is in flight *)
  stop_requested : nat -> bool
}.

Record State := mkState {
  files : str -> option (list Byte.byte);
  trace : list event;
  clock : nat
}.

Definition log (e : event) (st : State) : State :=
  mkState (files st) (trace st ++ [e]) (clock st).

(** *** The effect monad: state plus exceptions *)

Definition M (A : Type) : Type := State -> Result A * State.

Definition ret {A} (a : A) : M A := fun st => (Ok a, st).

Definition throw {A} (e : error) : M A := fun st => (Err e, st).

Definition bind {A B} (m : M A) (f : A -> M B) : M B :=
  fun st =>
    match m st with
    | (Ok a, st') => f a st'
    | (Err e, st') => (Err e, st')
    end.

(** [try { m } catch (error) { h error }] *)
Definition try_catch {A} (m : M A) (h : error -> M A) : M A :=
  fun st =>
    match m st with
    | (Ok a, st') => (Ok a, st')
    | (Err e, st') => h e st'
    end.

(** [try { m } finally { fin }], for a [fin] that does not throw. *)
Definition finally {A} (m : M A) (fin : State -> State) : M A :=
  fun st => let '(r, st') := m st in (r, fin st').

Declare Scope m_scope.
Delimit Scope m_scope with m.
Notation "x <- m ;; k" := (bind m (fun x => k))
  (at level 61, m at next level, right associativity) : m_scope.
Notation "m ;;; k" := (bind m (fun _ => k))
  (at level 61, right associativity) : m_scope.
Local Open Scope m_scope.

(** *** Primitive effects *)

Definition execAsync (w : World) (cmd : str) : M str :=
  fun st =>
    let st' := mkState (files st) (trace st ++ [EvExec cmd]) (S (clock st)) in
    match exec_result w (clock st) cmd with
    | inl stdout => (Ok stdout, st')
    | inr f => (Err (sys_error f), st')
    end.

Definition fs_access (w : World) (p : str) : M unit :=
  fun st =>
    let st' := log (EvAccess p) st in
    match files st p with
    | None => (Err (sys_error (access_refusal w p)), st')
    | Some _ =>
        if readable w p then (Ok tt, st')
        else (Err (SysError (lit "EACCES")
                     (lit "EACCES: permission denied, access '"
                        ++ p ++ lit "'")), st')
    end.

Definition fs_writeFile (w : World) (p : str) (data : list Byte.byte)
  : M unit :=
  fun st =>
    let st' := log (EvWriteFile p) st in
    match write_failure w p with
    | Some f => (Err (sys_error f), st')
    | None =>
        (Ok tt,
         mkState (fun q => if str_eqb q p then Some data else files st' q)
                 (trace st') (clock st'))
    end.

Definition fs_unlink (w : World) (p : str) : M unit :=
  fun st =>
    let st' := log (EvUnlink p) st in
    match files st p with
    | None => (Err (SysError (lit "ENOENT")
                       (lit "ENOENT: no such file or directory, unlink '"
                          ++ p ++ lit "'")), st')
    | Some _ =>
        match unlink_failure w p with
        | Some f => (Err (sys_error f), st')
        | None =>
            (Ok tt,
             mkState (fun q => if str_eqb q p then None else files st' q)
                     (trace st') (clock st'))
        end
    end.

(* ===================================================================== *)
(** ** The module [print.ts] *)
(* ===================================================================== *)

(** [match[i]] for a successful match whose groups are [caps]. *)
Definition group (i : nat) (caps : list str) : str := nth (i - 1) caps [].

(** [/system default destination: (.+)/] *)
Definition re_default : re :=
  Cat (Lit (lit "system default destination: ")) (Grp (PlusG Any)).

(** The pattern [/printer (.+?) (G)/] where the second group [G] is a dot
    under a greedy star. *)
Definition re_printer : re :=
  Cat (Lit (lit "printer "))
      (Cat (Grp (PlusL Any)) (Cat (Lit (lit " ")) (Grp (StarG Any)))).

(** [/device for (.+?): (.+)/] *)
Definition re_device : re :=
  Cat (Lit (lit "device for "))
      (Cat (Grp (PlusL Any)) (Cat (Lit (lit ": ")) (Grp (PlusG Any)))).

(** [/request id is .+-(\d+)/] *)
Definition re_job : re :=
  Cat (Lit (lit "request id is "))
      (Cat (PlusG Any) (Cat (Lit (lit "-")) (Grp (PlusG Digit)))).

(** A string in a condition: the empty string is falsy. *)
Definition truthy (s : str) : bool := negb (str_eqb s []).

(** [x || y] on strings *)
Definition or_else (x y : str) : str := if truthy x then x else y.

(** [getAllPrinters], lines 53-58: the default destination. *)
Definition defaultPrinter (printerList : str) : str :=
  match re_match re_default printerList with
  | Some caps => group 1 caps
  | None => []
  end.

(** [getAllPrinters], lines 67-79: transport locator and USB flag of one
    printer. *)
Definition deviceOf (deviceLines : list str) (printerName : str)
  : str * bool :=
  match find (fun d => includes d printerName) deviceLines with
  | Some deviceLine =>
      if truthy deviceLine then
        match re_match re_device deviceLine with
        | Some caps =>
            let uri := group 2 caps in
            (uri, includes (toLowerCase uri) (lit "usb"))
        | None => ([], false)
        end
      else ([], false)
  | None => ([], false)
  end.

(** [getAllPrinters], lines 61-90: the record pushed for one line of the
    name/status report, if the line is a printer line. *)
Definition parseLine (deviceLines : list str) (dflt : str) (line : str)
  : option Printer :=
  match re_match re_printer line with
  | Some caps =>
      let printerName := group 1 caps in
      let status := or_else (group 2 caps) (lit "unknown") in
      let '(uri, isUSB) := deviceOf deviceLines printerName in
      Some (mkPrinter printerName uri status (str_eqb printerName dflt)
                      isUSB (Some status))
  | None => None
  end.

(** [getAllPrinters], lines 49-92: the pure part, from the two reports to
    the list of records. *)
Definition parsePrinters (printerList printerDevices : str) : list Printer :=
  let lines := split_lines printerList in
  let deviceLines := split_lines printerDevices in
  let dflt := defaultPrinter printerList in
  fold_left
    (fun printers line =>
       match parseLine deviceLines dflt line with
       | Some p => printers ++ [p]
       | None => printers
       end)
    lines [].

(** [catch (error) { throw new Error(`${prefix}: ${error.message}`) }] *)
Definition wrap_errors {A} (prefix : string) (m : M A) : M A :=
  try_catch m (fun e => throw (Wrapped (lit prefix) e)).

Definition getAllPrinters (w : World) : M (list Printer) :=
  wrap_errors "Failed to get printers"
    (printerList <- execAsync w (lit "lpstat -p -d") ;;
     printerDevices <- execAsync w (lit "lpstat -v") ;;
     ret (parsePrinters printerList printerDevices)).

Definition getUSBPrinters (w : World) : M (list Printer) :=
  allPrinters <- getAllPrinters w ;;
  ret (filter isUSB allPrinters).

Definition dquote : ascii := ascii_of_nat 34.

(** A double quote on either side. *)
Definition quoted (s : str) : str := [dquote] ++ s ++ [dquote].

Definition isPrinterEnabled (w : World) (printerName : str) : M bool :=
  wrap_errors "Failed to check printer status"
    (stdout <- execAsync w (lit "lpstat -p " ++ quoted printerName) ;;
     let isDisabled :=
       includes (toLowerCase stdout) (lit "disabled")
       || includes (toLowerCase stdout) (lit "paused") in
     ret (negb isDisabled)).

Definition enablePrinter (w : World) (printerName : str) : M str :=
  wrap_errors "Failed to enable printer"
    (execAsync w (lit "cupsenable " ++ quoted printerName) ;;;
     execAsync w (lit "cupsaccept " ++ quoted printerName) ;;;
     ret (lit "Printer " ++ quoted printerName
            ++ lit " has been enabled and is now accepting jobs")).

Definition is_ENOENT (e : error) : bool :=
  match errno e with
  | Some c => str_eqb c (lit "ENOENT")
  | None => false
  end.

Definition validateImageFile (w : World) (filePath : str) : M unit :=
  try_catch
    (fs_access w filePath ;;;
     let ext := toLowerCase (Path.extname filePath) in
     if negb (existsb (str_eqb ext) supportedFormats)
     then throw (UnsupportedFormat ext)
     else ret tt)
    (fun e =>
       if is_ENOENT e then throw (FileNotFound filePath) else throw e).

(** [args.push(x, y, ...)] *)
Definition push (args : list str) (xs : list str) : list str := args ++ xs.

Definition buildPrintCommand (printerName imagePath : str)
  (options : PrintOptions) : str :=
  let args := [lit "lp"] in
  let args := push args [lit "-d"; quoted printerName] in
  let args :=
    match copies options with
    | Some n =>
        if number_truthy n && gt_one n
        then push args [lit "-n"; number_toString n] else args
    | None => args
    end in
  let args :=
    match media options with
    | Some m => if truthy m then push args [lit "-o"; lit "media=" ++ m]
                else args
    | None => args
    end in
  let args :=
    match grayscale options with
    | Some true => push args [lit "-o"; lit "ColorModel=Gray"]
    | _ => args
    end in
  let args :=
    match fitToPage options with
    | Some true => push args [lit "-o"; lit "fit-to-page"]
    | _ => args
    end in
  let args :=
    match cupOptions options with
    | Some entries =>
        fold_left
          (fun args kv => push args [lit "-o"; fst kv ++ lit "=" ++ snd kv])
          entries args
    | None => args
    end in
  let args := push args [quoted imagePath] in
  join (lit " ") args.

(** [Math.random().toString(36)]: ["0"] for zero, else ["0."] and the
    fraction digits in base 36. *)
Definition digit36 (d : nat) : ascii :=
  let d := d mod 36 in
  if d <? 10 then ascii_of_nat (48 + d) else ascii_of_nat (87 + d).

Definition random_toString36 (w : World) : str :=
  match random_digits w with
  | [] => lit "0"
  | ds => lit "0." ++ map digit36 ds
  end.

(** Lines 303-309: the path of the staging file. *)
Definition tempPath (w : World) : str :=
  let tempDir := tmpdir w in
  let timestamp := now w in
  let randomId := skipn 7 (random_toString36 w) in
  Path.path_join tempDir
    (lit "print-temp-" ++ number_toString timestamp ++ lit "-" ++ randomId
       ++ lit ".png").

(** Lines 331-334: the job identifier of an acknowledgement. *)
Definition extractJobId (stdout : str) : str :=
  match re_match re_job stdout with
  | Some caps => group 1 caps
  | None => trim stdout
  end.

(** The [finally] block of [printImage]. *)
Definition cleanup (w : World) (tempFilePath : option str) (st : State)
  : State :=
  match tempFilePath with
  | Some p =>
      match fs_unlink w p st with
      | (Ok _, st') => st'
      | (Err _, st') =>
          log (EvWarn (lit "Warning: Could not delete temporary file: " ++ p))
              st'
      end
  | None => st
  end.

(** Lines 300-318: from the input to the path handed to [lp]. *)
Definition stageInput (w : World) (imagePathOrBuffer : image_input) : M str :=
  match imagePathOrBuffer with
  | FromBuffer bytes => fs_writeFile w (tempPath w) bytes ;;; ret (tempPath w)
  | FromPath p => validateImageFile w p ;;; ret p
  end.

(** Lines 299-341: the [try] block with its [catch]. *)
Definition tryBlock (w : World) (printerName : str)
  (imagePathOrBuffer : image_input) (options : PrintOptions) : M str :=
  wrap_errors "Failed to print"
    (imagePath <- stageInput w imagePathOrBuffer ;;
     printers <- getAllPrinters w ;;
     match find (fun p => str_eqb (name p) printerName) printers with
     | None => throw (PrinterNotFound printerName)
     | Some _ =>
         let command := buildPrintCommand printerName imagePath options in
         stdout <- execAsync w command ;;
         ret (extractJobId stdout)
     end).

Definition printImage (w : World) (printerName : str)
  (imagePathOrBuffer : image_input) (options : PrintOptions) : M str :=
  (* [tempFilePath] is assigned before anything in the buffer branch can
     throw, so its final value depends on the kind of input only *)
  let tempFilePath :=
    match imagePathOrBuffer with
    | FromBuffer _ => Some (tempPath w)
    | FromPath _ => None
    end in
  finally (tryBlock w printerName imagePathOrBuffer options)
          (cleanup w tempFilePath).

(** Line 374: the default printer if there is one, else the first. *)
Definition choosePrinter (allPrinters : list Printer) : option Printer :=
  match find isDefault allPrinters with
  | Some p => Some p
  | None => hd_error allPrinters
  end.

Definition printToUSB (w : World) (imagePathOrBuffer : image_input)
  (options : PrintOptions) : M (str * str) :=
  allPrinters <- getAllPrinters w ;;
  if List.length allPrinters =? 0 then throw NoPrintersFound
  else
    match choosePrinter allPrinters with
    | Some printer =>
        jobId <- printImage w (name printer) imagePathOrBuffer options ;;
        ret (name printer, jobId)
    | None => throw NoPrintersFound   (* unreachable: the list is not empty *)
    end.

(** *** The background poller, [watchAndResumePrinters] *)

(** A callback of the caller: it is handed a string and either returns
    ([None]) or throws an error with some message ([Some msg]). *)
Definition callback : Type := str -> option str.

Record WatchOptions := mkWatch {
  interval : option Z;
  printerNames : option (list str);
  onResume : option callback;
  onError : option callback
}.

(** The captured flag [isRunning] and the timer queue: [pending] counts the
    [setTimeout(check, interval)] calls that have not fired yet, [ticks] the
    executions of [check] that went past the first test. *)
Record Poller := mkPoller {
  isRunning : bool;
  pending : nat;
  ticks : nat
}.

Definition call (ev : str -> event) (cb : callback) (arg : str) : M unit :=
  fun st =>
    let st' := log (ev arg) st in
    match cb arg with
    | Some msg => (Err (Thrown msg), st')
    | None => (Ok tt, st')
    end.

(** Lines 481-490: the loop over the printers to check. *)
Fixpoint resumeEach (w : World) (opts : WatchOptions)
  (printersToCheck : list Printer) : M unit :=
  match printersToCheck with
  | [] => ret tt
  | printer :: rest =>
      isEnabled <- isPrinterEnabled w (name printer) ;;
      (if negb isEnabled then
         enablePrinter w (name printer) ;;;
         match onResume opts with
         | Some cb => call EvOnResume cb (name printer)
         | None => ret tt
         end
       else ret tt) ;;;
      resumeEach w opts rest
  end.

(** Lines 468-490: the body of the [try] block of one tick. *)
Definition tickWork (w : World) (opts : WatchOptions) : M unit :=
  printersToCheck <-
    match printerNames opts with
    | Some names =>
        if 0 <? List.length names then
          allPrinters <- getAllPrinters w ;;
          ret (filter (fun p => existsb (str_eqb (name p)) names) allPrinters)
        else getAllPrinters w
    | None => getAllPrinters w
    end ;;
  resumeEach w opts printersToCheck.

(** Lines 491-495: the [catch] block. *)
Definition reportError (opts : WatchOptions) (e : error) : M unit :=
  match onError opts with
  | Some cb => call EvOnError cb (message e)
  | None => ret tt
  end.

Definition intervalOf (opts : WatchOptions) : Z :=
  match interval opts with
  | Some i => i
  | None => 1000%Z
  end.

(** [check]: one tick.  The result is [Err e] when the promise of the tick
    rejects, which happens only when the [catch] block itself throws. *)
Definition check (w : World) (opts : WatchOptions) (p : Poller) (st : State)
  : Result unit * Poller * State :=
  if negb (isRunning p) then (Ok tt, p, st)
  else
    let '(r, st1) := try_catch (tickWork w opts) (reportError opts) st in
    (* the stop handle can only run while the tick is suspended *)
    let running := isRunning p && negb (stop_requested w (ticks p)) in
    match r with
    | Err e => (Err e, mkPoller running (pending p) (S (ticks p)), st1)
    | Ok _ =>
        if running
        then (Ok tt, mkPoller running (S (pending p)) (S (ticks p)),
              log (EvSetTimeout (intervalOf opts)) st1)
        else (Ok tt, mkPoller running (pending p) (S (ticks p)), st1)
    end.


(** The stop handle. *)
Definition stop (p : Poller) : Poller := mkPoller false (pending p) (ticks p).

(** The timer loop: let [n] timers fire, one after the other. *)
Fixpoint fireTimers (w : World) (opts : WatchOptions) (n : nat)
  (p : Poller) (st : State) : Poller * State :=
  match n with
  | 0 => (p, st)
  | S n' =>
      match pending p with
      | 0 => (p, st)
      | S k =>
          let '(_, p', st') :=
            check w opts (mkPoller (isRunning p) k (ticks p)) st in
          fireTimers w opts n' p' st'
      end
  end.

(** *** The remaining operations of [print.ts] *)

(** The value returned by [checkAndResumePrinter]. *)
Module Resume.
Record t := mk {
  wasEnabled : bool;
  message : str
}.
End Resume.

(** [checkAndResumePrinter], lines 161-186.  [autoEnable] is an optional
    parameter whose default is [true]. *)
Definition checkAndResumePrinter (w : World) (printerName : str)
  (autoEnable : option bool) : M Resume.t :=
  let autoEnable := match autoEnable with
                    | Some b => b
                    | None => true
                    end in
  isEnabled <- isPrinterEnabled w printerName ;;
  if isEnabled then
    ret (Resume.mk true (lit "Printer " ++ quoted printerName ++ lit " is ready"))
  else if autoEnable then
    message <- enablePrinter w printerName ;;
    ret (Resume.mk false (message ++ lit " (was paused/disabled)"))
  else
    ret (Resume.mk false
           (lit "Printer " ++ quoted printerName ++ lit " is paused/disabled")).

(** [getPrinterInfo], lines 193-203. *)
Definition getPrinterInfo (w : World) (printerName : str) : M str :=
  wrap_errors "Failed to get printer info"
    (stdout <- execAsync w (lit "lpoptions -p " ++ quoted printerName
                              ++ lit " -l") ;;
     ret stdout).

(** [getPrintJobStatus], lines 389-400.  The job id is optional, and an
    empty one is falsy. *)
Definition getPrintJobStatus (w : World) (jobId : option str) : M str :=
  wrap_errors "Failed to get job status"
    (let command :=
       match jobId with
       | Some j => if truthy j then lit "lpq " ++ j else lit "lpq"
       | None => lit "lpq"
       end in
     stdout <- execAsync w command ;;
     ret stdout).

(** [cancelPrintJob], lines 406-415. *)
Definition cancelPrintJob (w : World) (jobId : str) : M unit :=
  wrap_errors "Failed to cancel job"
    (execAsync w (lit "cancel " ++ jobId) ;;; ret tt).

(** [/PageSize\/Media Size: (.+)/] *)
Definition re_media : re :=
  Cat (Lit (lit "PageSize/Media Size: ")) (Grp (PlusG Any)).

Definition blank : ascii := ascii_of_nat 32.

(** [getAvailableMediaSizes], lines 427-434: from the option listing to
    the sizes. *)
Definition parseMediaSizes (info : str) : list str :=
  match re_match re_media info with
  | Some caps =>
      let sizes := split_on blank (group 1 caps) in
      filter (fun s => truthy s && negb (str_eqb s (lit "*"))) sizes
  | None => []
  end.

(** [getAvailableMediaSizes], lines 422-441. *)
Definition getAvailableMediaSizes (w : World) (printerName : str)
  : M (list str) :=
  wrap_errors "Failed to get media sizes"
    (info <- getPrinterInfo w printerName ;;
     ret (parseMediaSizes info)).

(* ===================================================================== *)
(** ** Specification-level definitions *)
(* ===================================================================== *)

(** [sub] occurs in [s]. *)
Definition occurs_in (sub s : str) : Prop :=
  exists pre post, s = pre ++ sub ++ post.

(** [s] contains ["usb"] in some mix of letter cases: three consecutive
    code units, a [u] or [U], an [s] or [S], a [b] or [B]. *)
Definition mentions_usb (s : str) : Prop :=
  exists pre a b c post,
    s = pre ++ a :: b :: c :: post
    /\ (a = "u"%char \/ a = "U"%char)
    /\ (b = "s"%char \/ b = "S"%char)
    /\ (c = "b"%char \/ c = "B"%char).

(** The text [out] contains [request id is <name>-<digits>] with the digit
    group [ds]: a non-empty name free of line terminators, a dash, and a
    non-empty run of decimal digits that no further digit follows. *)
Definition acknowledges (out ds : str) : Prop :=
  exists pre nm post,
    out = pre ++ lit "request id is " ++ nm ++ lit "-" ++ ds ++ post
    /\ nm <> [] /\ Forall (fun c => is_line_terminator c = false) nm
    /\ ds <> [] /\ Forall (fun c => is_digit c = true) ds
    /\ match post with
       | [] => True
       | c :: _ => is_digit c = false
       end.

(** The arguments of the submission command after the word [lp]. *)
Definition spec_flags (printerName imagePath : str) (o : PrintOptions)
  : list str :=
  [lit "-d"; quoted printerName]
    ++ match copies o with
       | Some n => if number_truthy n && gt_one n
                   then [lit "-n"; number_toString n] else []
       | None => []
       end
    ++ match media o with
       | Some m => if truthy m then [lit "-o"; lit "media=" ++ m] else []
       | None => []
       end
    ++ match grayscale o with
       | Some true => [lit "-o"; lit "ColorModel=Gray"]
       | _ => []
       end
    ++ match fitToPage o with
       | Some true => [lit "-o"; lit "fit-to-page"]
       | _ => []
       end
    ++ match cupOptions o with
       | Some entries =>
           flat_map (fun kv => [lit "-o"; fst kv ++ lit "=" ++ snd kv]) entries
       | None => []
       end
    ++ [quoted imagePath].

(** The submission commands of a trace: those that run [lp]. *)
Definition is_submission (e : event) : bool :=
  match e with
  | EvExec cmd => startsWith (lit "lp ") cmd
  | _ => false
  end.

Definition is_access (e : event) : bool :=
  match e with
  | EvAccess _ => true
  | _ => false
  end.

Definition endsWith (suffix s : str) : bool := startsWith (rev suffix) (rev s).

Definition empty_fs : str -> option (list Byte.byte) := fun _ => None.

Definition init_state : State := mkState empty_fs [] 0.

(** A state in which the single file [p] exists. *)
Definition state_with (p : str) : State :=
  mkState (fun q => if str_eqb q p then Some [] else None) [] 0.

(** The two commands of the directory query. *)
Definition is_query (e : event) : bool :=
  match e with
  | EvExec cmd =>
      str_eqb cmd (lit "lpstat -p -d") || str_eqb cmd (lit "lpstat -v")
  | _ => false
  end.

Definition is_exec (e : event) : bool :=
  match e with
  | EvExec _ => true
  | _ => false
  end.

(** Between [st] and [st'] the process did only things that satisfy [P]. *)
Definition emits (P : event -> bool) (st st' : State) : Prop :=
  exists evs, trace st' = trace st ++ evs /\ forallb P evs = true.

(** The two errors of [validateImageFile]. *)
Definition is_validation_error (e : error) : bool :=
  match e with
  | UnsupportedFormat _ | FileNotFound _ => true
  | _ => false
  end.

(** The world [w], except that no unlink is ever refused. *)
Definition unlink_allowed (w : World) : World :=
  mkWorld (exec_result w) (readable w) (access_refusal w) (write_failure w)
          (fun _ => None)
          (tmpdir w) (now w) (random_digits w) (stop_requested w).

(** The warning of the [finally] block. *)
Definition cleanup_warning (p : str) : event :=
  EvWarn (lit "Warning: Could not delete temporary file: " ++ p).

(** The name a line of the name/status report gives, if it is a printer
    line: the first group of [re_printer]. *)
Definition printerNameOf (line : str) : option str :=
  match re_match re_printer line with
  | Some caps => Some (group 1 caps)
  | None => None
  end.

(* ===================================================================== *)
(** ** Sample environments *)
(* ===================================================================== *)

(** Two reports of [lpstat]: an IPP printer listed first, a USB printer
    listed second and named as the default destination. *)
Definition sample_list : str :=
  lit "printer HP_LaserJet is idle.  enabled since Mon 02 Nov 2026" ++ [newline]
    ++ lit "printer Canon_TS3300 is idle.  enabled since Mon 02 Nov 2026"
    ++ [newline]
    ++ lit "system default destination: Canon_TS3300" ++ [newline].

Definition sample_devices : str :=
  lit "device for HP_LaserJet: ipp://hp.local/ipp/print" ++ [newline]
    ++ lit "device for Canon_TS3300: usb://Canon/TS3300%20series?serial=1A2B"
    ++ [newline].

Definition sample_ack : str :=
  lit "request id is Canon_TS3300-42 (1 file(s))" ++ [newline].

(** CUPS as the samples describe it: the two reports, and an
    acknowledgement for every [lp] command. *)
Definition sample_exec (n : nat) (cmd : str) : str + SysFailure :=
  if str_eqb cmd (lit "lpstat -p -d") then inl sample_list
  else if str_eqb cmd (lit "lpstat -v") then inl sample_devices
  else if startsWith (lit "lp ") cmd then inl sample_ack
  else inl [].

Definition sample_world : World :=
  mkWorld sample_exec (fun _ => true) no_entry (fun _ => None) (fun _ => None)
          (lit "/tmp") (number_of_Z 1793600000000)
          [3; 17; 35; 0; 9; 21; 8; 30; 12; 4]
          (fun _ => false).

Definition EPERM : SysFailure :=
  mkFailure (lit "EPERM") (lit "EPERM: operation not permitted").

(** The same, except that the staging file cannot be unlinked. *)
Definition world_unlink_denied : World :=
  mkWorld sample_exec (fun _ => true) no_entry (fun _ => None)
          (fun _ => Some EPERM)
          (lit "/tmp") (number_of_Z 1793600000000)
          [3; 17; 35; 0; 9; 21; 8; 30; 12; 4]
          (fun _ => false).

(** A machine on which no command can be run. *)
Definition world_down : World :=
  mkWorld (fun _ _ => inr (mkFailure (lit "127") (lit "Command failed")))
          (fun _ => true) no_entry (fun _ => None) (fun _ => None)
          (lit "/tmp") (number_of_Z 0) [] (fun _ => false).

Definition sample_path : str := lit "/Users/me/sticker.png".

(** A report whose default destination is a class: [lpstat -p] lists
    printers only, so no printer line carries that name. *)
Definition class_list : str :=
  lit "printer HP_LaserJet is idle.  enabled since Mon 02 Nov 2026" ++ [newline]
    ++ lit "system default destination: Office_Class" ++ [newline].

(** A path that names no file, with an extension outside the allow-list. *)
Definition missing_bmp : str := lit "/Users/me/missing.bmp".

(** A readable file with an extension outside the allow-list. *)
Definition existing_bmp : str := lit "/Users/me/photo.BMP".

(** Poller options: an error callback that returns, one that throws. *)
Definition quiet_handler : callback := fun _ => None.


Definition watch_reporting : WatchOptions :=
  mkWatch None None None (Some quiet_handler).


(* ===================================================================== *)
(** ** Further specification-level definitions and samples *)
(* ===================================================================== *)

(** The state after the commands [cmds] were run from [st], one after the
    other, and nothing else was done. *)
Definition ran (cmds : list str) (st : State) : State :=
  mkState (files st) (trace st ++ map EvExec cmds) (List.length cmds + clock st).

(** [s] contains [needle] in some mix of letter cases: a piece of [s]
    lower-cases to [needle]. *)
Definition mentions_ci (needle s : str) : Prop :=
  exists pre u post, s = pre ++ u ++ post /\ toLowerCase u = needle.

(** The command with which [isPrinterEnabled] asks for a printer's state. *)
Definition statusCommand (printerName : str) : str :=
  lit "lpstat -p " ++ quoted printerName.

Definition enableCommand (printerName : str) : str :=
  lit "cupsenable " ++ quoted printerName.

Definition acceptCommand (printerName : str) : str :=
  lit "cupsaccept " ++ quoted printerName.

(** A report of [lpstat -p "Canon_TS3300"] for a paused printer. *)
Definition paused_status : str :=
  lit "printer Canon_TS3300 disabled since Mon 02 Nov 2026 -" ++ [newline]
    ++ [ascii_of_nat 9] ++ lit "Paused" ++ [newline].

(** CUPS with the Canon printer paused. *)
Definition paused_exec (n : nat) (cmd : str) : str + SysFailure :=
  if str_eqb cmd (statusCommand (lit "Canon_TS3300")) then inl paused_status
  else sample_exec n cmd.

Definition paused_world : World :=
  mkWorld paused_exec (fun _ => true) no_entry (fun _ => None) (fun _ => None)
          (lit "/tmp") (number_of_Z 1793600000000)
          [3; 17; 35; 0; 9; 21; 8; 30; 12; 4]
          (fun _ => false).

(** A device report that lists the IPP printer only. *)
Definition devices_hp_only : str :=
  lit "device for HP_LaserJet: ipp://hp.local/ipp/print" ++ [newline].

Definition lonely_exec (n : nat) (cmd : str) : str + SysFailure :=
  if str_eqb cmd (lit "lpstat -v") then inl devices_hp_only
  else sample_exec n cmd.

Definition lonely_world : World :=
  mkWorld lonely_exec (fun _ => true) no_entry (fun _ => None) (fun _ => None)
          (lit "/tmp") (number_of_Z 1793600000000)
          [3; 17; 35; 0; 9; 21; 8; 30; 12; 4]
          (fun _ => false).

(** Whether a status report shows a printer as paused or disabled. *)
Definition reports_stopped (out : str) : Prop :=
  mentions_ci (lit "disabled") out \/ mentions_ci (lit "paused") out.

(** A queue whose name contains the word "paused": its status report is
    that of an idle, enabled printer. *)
Definition unpaused_status : str :=
  lit "printer Unpaused_Lab is idle.  enabled since Mon 02 Nov 2026"
    ++ [newline].

Definition unpaused_exec (n : nat) (cmd : str) : str + SysFailure :=
  if str_eqb cmd (statusCommand (lit "Unpaused_Lab")) then inl unpaused_status
  else sample_exec n cmd.

Definition unpaused_world : World :=
  mkWorld unpaused_exec (fun _ => true) no_entry (fun _ => None) (fun _ => None)
          (lit "/tmp") (number_of_Z 1793600000000)
          [3; 17; 35; 0; 9; 21; 8; 30; 12; 4]
          (fun _ => false).

(** The command of [getPrinterInfo]. *)
Definition infoCommand (printerName : str) : str :=
  lit "lpoptions -p " ++ quoted printerName ++ lit " -l".

Definition media_header : str := lit "PageSize/Media Size: ".

(** A size label as the option listing prints it: not empty, not the lone
    star, free of blanks and line terminators. *)
Definition size_label (s : str) : Prop :=
  s <> [] /\ s <> lit "*" /\ ~ In blank s
  /\ Forall (fun c => is_line_terminator c = false) s.

(** [header] occurs in [pre ++ header] at the end only. *)
Definition first_occurrence (header pre : str) : Prop :=
  forall a b, pre ++ header = a ++ header ++ b -> b = [].

(** An option listing of [lpoptions -l]. *)
Definition sample_options : str :=
  lit "ColorModel/Color Mode: Gray *RGB" ++ [newline]
    ++ lit "PageSize/Media Size: *Letter Legal A4 4x6" ++ [newline]
    ++ lit "MediaType/Media Type: *Plain Photo" ++ [newline].

Definition options_exec (n : nat) (cmd : str) : str + SysFailure :=
  if str_eqb cmd (infoCommand (lit "Canon_TS3300")) then inl sample_options
  else sample_exec n cmd.

Definition options_world : World :=
  mkWorld options_exec (fun _ => true) no_entry (fun _ => None) (fun _ => None)
          (lit "/tmp") (number_of_Z 1793600000000)
          [3; 17; 35; 0; 9; 21; 8; 30; 12; 4]
          (fun _ => false).

(** CUPS answering every [lp] command with an empty line. *)
Definition silent_exec (n : nat) (cmd : str) : str + SysFailure :=
  if startsWith (lit "lp ") cmd then inl [newline] else sample_exec n cmd.

Definition silent_world : World :=
  mkWorld silent_exec (fun _ => true) no_entry (fun _ => None) (fun _ => None)
          (lit "/tmp") (number_of_Z 1793600000000)
          [3; 17; 35; 0; 9; 21; 8; 30; 12; 4]
          (fun _ => false).

(** An event that changes or cleans the file system, or warns about it. *)
Definition is_file_event (e : event) : bool :=
  match e with
  | EvWriteFile _ | EvUnlink _ | EvWarn _ => true
  | _ => false
  end.

(** A machine on which no file can be read. *)
Definition unreadable_world : World :=
  mkWorld sample_exec (fun _ => false) no_entry (fun _ => None) (fun _ => None)
          (lit "/tmp") (number_of_Z 1793600000000)
          [3; 17; 35; 0; 9; 21; 8; 30; 12; 4]
          (fun _ => false).

(** CUPS losing its default printer between two queries: the first
    name/status report is [sample_list], the later ones list the IPP
    printer only. *)
Definition fading_exec (n : nat) (cmd : str) : str + SysFailure :=
  if str_eqb cmd (lit "lpstat -p -d")
  then (if n <? 2 then inl sample_list else inl class_list)
  else sample_exec n cmd.

Definition fading_world : World :=
  mkWorld fading_exec (fun _ => true) no_entry (fun _ => None) (fun _ => None)
          (lit "/tmp") (number_of_Z 1793600000000)
          [3; 17; 35; 0; 9; 21; 8; 30; 12; 4]
          (fun _ => false).

(** A machine with no printer: both reports are empty. *)
Definition empty_world : World :=
  mkWorld (fun _ _ => inl []) (fun _ => true) no_entry (fun _ => None)
          (fun _ => None)
          (lit "/tmp") (number_of_Z 1793600000000)
          [3; 17; 35; 0; 9; 21; 8; 30; 12; 4]
          (fun _ => false).

(** What one turn of the poller's loop can do for the printer [n]: ask for
    its state, and then possibly run [cupsenable], [cupsaccept] and the
    [onResume] callback, each only after the one before it. *)
Definition printer_block (n : str) (b : list event) : Prop :=
  b = [EvExec (statusCommand n)]
  \/ b = [EvExec (statusCommand n); EvExec (enableCommand n)]
  \/ b = [EvExec (statusCommand n); EvExec (enableCommand n);
          EvExec (acceptCommand n)]
  \/ b = [EvExec (statusCommand n); EvExec (enableCommand n);
          EvExec (acceptCommand n); EvOnResume n].

(** The events of a loop over the printers [names]: one block per printer,
    in order, for the printers the loop reached. *)
Inductive tick_blocks : list str -> list event -> Prop :=
| tb_done names : tick_blocks names []
| tb_turn n names b l :
    printer_block n b -> tick_blocks names l ->
    tick_blocks (n :: names) (b ++ l).

(** The event [e] is about one of the printers [names]. *)
Definition concerns (names : list str) (e : event) : Prop :=
  exists n,
    In n names
    /\ In e [EvExec (statusCommand n); EvExec (enableCommand n);
             EvExec (acceptCommand n); EvOnResume n].

(** Poller options: watch the Canon printer only, and count the resumes. *)
Definition watch_canon : WatchOptions :=
  mkWatch None (Some [lit "Canon_TS3300"]) (Some quiet_handler)
          (Some quiet_handler).

(** From the command numbered [k] on, the status query of each printer of
    [ps], in turn, is answered by a report that shows the printer neither
    paused nor disabled. *)
Fixpoint all_enabled (w : World) (k : nat) (ps : list Printer) : Prop :=
  match ps with
  | [] => True
  | p :: rest =>
      (exists out,
          exec_result w k (statusCommand (name p)) = inl out
          /\ ~ reports_stopped out)
      /\ all_enabled w (S k) rest
  end.

(** A report in which the network printer is the default destination. *)
Definition hp_default_list : str :=
  lit "printer HP_LaserJet is idle.  enabled since Mon 02 Nov 2026" ++ [newline]
    ++ lit "printer Canon_TS3300 is idle.  enabled since Mon 02 Nov 2026"
    ++ [newline]
    ++ lit "system default destination: HP_LaserJet" ++ [newline].

Definition office_exec (n : nat) (cmd : str) : str + SysFailure :=
  if str_eqb cmd (lit "lpstat -p -d") then inl hp_default_list
  else sample_exec n cmd.

Definition office_world : World :=
  mkWorld office_exec (fun _ => true) no_entry (fun _ => None) (fun _ => None)
          (lit "/tmp") (number_of_Z 1793600000000)
          [3; 17; 35; 0; 9; 21; 8; 30; 12; 4]
          (fun _ => false).

(** The rejection of [fs.access] for a path that runs through a regular
    file. *)
Definition not_a_directory (p : str) : SysFailure :=
  mkFailure (lit "ENOTDIR")
            (lit "ENOTDIR: not a directory, access '" ++ p ++ lit "'").

(** A path below the regular file [sample_path]: it names no file. *)
Definition nested_path : str := sample_path ++ lit "/inner.png".

(** A machine that refuses the paths below [sample_path] the way POSIX
    refuses a path through a regular file. *)
Definition nested_world : World :=
  mkWorld sample_exec (fun _ => true)
          (fun p => if startsWith (sample_path ++ lit "/") p
                    then not_a_directory p else no_entry p)
          (fun _ => None) (fun _ => None)
          (lit "/tmp") (number_of_Z 1793600000000)
          [3; 17; 35; 0; 9; 21; 8; 30; 12; 4] (fun _ => false).

(** The message of the error a call failed with. *)
Definition message_of {A} (r : Result A) : option str :=
  match r with
  | Ok _ => None
  | Err e => Some (message e)
  end.

(** The white space [String.prototype.trim] removes, among the code units
    below 256: TAB, LF, VT, FF, CR, SPACE and NBSP. *)
Definition white_space : list ascii :=
  ["009"%char; "010"%char; "011"%char; "012"%char; "013"%char; " "%char;
   "160"%char].

Definition white (c : ascii) : Prop := In c white_space.

(** [r] is [s] without the white space at its two ends: [s] is [r] between
    two runs of white space, and [r] neither starts nor ends with white
    space. *)
Definition trimmed (s r : str) : Prop :=
  exists a b,
    s = a ++ r ++ b /\ Forall white a /\ Forall white b
    /\ match r with
       | [] => True
       | c :: _ => ~ white c
       end
    /\ match rev r with
       | [] => True
       | c :: _ => ~ white c
       end.

(** An answer of [lp] that names no request. *)
Definition terse_ack : str :=
  lit "  job accepted " ++ [ascii_of_nat 13; newline].

Definition terse_exec (n : nat) (cmd : str) : str + SysFailure :=
  if startsWith (lit "lp ") cmd then inl terse_ack else sample_exec n cmd.

Definition terse_world : World :=
  mkWorld terse_exec (fun _ => true) no_entry (fun _ => None) (fun _ => None)
          (lit "/tmp") (number_of_Z 1793600000000)
          [3; 17; 35; 0; 9; 21; 8; 30; 12; 4] (fun _ => false).









Definition default_header : str := lit "system default destination: ".

Definition printer_header : str := lit "printer ".

(** The report names [P] as the default destination: where the text
    "system default destination: " occurs for the first time, it is
    followed by [P], which is not empty and runs to the end of the line. *)
Definition names_default (printerList P : str) : Prop :=
  exists pre post,
    printerList = pre ++ default_header ++ P ++ post
    /\ first_occurrence default_header pre
    /\ P <> [] /\ Forall (fun c => is_line_terminator c = false) P
    /\ match post with
       | [] => True
       | c :: _ => is_line_terminator c = true
       end.

(** The report consists of the lines [lines], a line feed between each two
    of them. *)
Definition lines_of (report : str) (lines : list str) : Prop :=
  lines <> [] /\ Forall (fun l => ~ In newline l) lines
  /\ report = join [newline] lines.

(** A name as the report prints it: not empty, free of line terminators,
    and with no blank after its first character. *)
Definition printer_word (W : str) : Prop :=
  W <> [] /\ Forall (fun c => is_line_terminator c = false) W
  /\ ~ In blank (tl W).

(** The line starts with "printer W ". *)
Definition printer_line (W line : str) : Prop :=
  exists rest, line = printer_header ++ W ++ lit " " ++ rest.

(** A line of the name/status report: a line in which the text "printer "
    occurs, for the first time after [before], followed by a word and a
    blank; or a line in which this text does not occur. *)
Inductive report_line :=
| Mention (before word rest : str)
| Plain (text : str).

Definition line_text (l : report_line) : str :=
  match l with
  | Mention before W rest => before ++ printer_header ++ W ++ lit " " ++ rest
  | Plain text => text
  end.

Definition line_ok (l : report_line) : Prop :=
  match l with
  | Mention before W rest =>
      first_occurrence printer_header before /\ printer_word W
      /\ ~ In newline before /\ ~ In newline rest
  | Plain text => ~ occurs_in printer_header text /\ ~ In newline text
  end.

(** The words that follow "printer " on the lines of a report, in order. *)
Definition mentioned (ls : list report_line) : list str :=
  flat_map (fun l => match l with
                     | Mention _ W _ => [W]
                     | Plain _ => []
                     end) ls.

(** A report on a printer named "to" that is busy: the second line of its
    entry is the status message of the CUPS backend. *)
Definition busy_list : str :=
  lit "printer to now printing to-7.  enabled since Mon 02 Nov 2026"
    ++ [newline; ascii_of_nat 9]
    ++ lit "Waiting for printer to become available." ++ [newline]
    ++ lit "system default destination: to" ++ [newline].

Definition busy_devices : str :=
  lit "device for to: usb://Canon/TS3300%20series?serial=1A2B" ++ [newline].

Definition busy_exec (n : nat) (cmd : str) : str + SysFailure :=
  if str_eqb cmd (lit "lpstat -p -d") then inl busy_list
  else if str_eqb cmd (lit "lpstat -v") then inl busy_devices
  else sample_exec n cmd.

Definition busy_world : World :=
  mkWorld busy_exec (fun _ => true) no_entry (fun _ => None) (fun _ => None)
          (lit "/tmp") (number_of_Z 1793600000000)
          [3; 17; 35; 0; 9; 21; 8; 30; 12; 4] (fun _ => false).

(** The records a list of lines gives. *)
Definition records (deviceLines : list str) (dflt : str) (lines : list str)
  : list Printer :=
  flat_map (fun line => match parseLine deviceLines dflt line with
                        | Some p => [p]
                        | None => []
                        end) lines.

(** A machine on which no command can be run, and on which the stop handle
    is invoked while the first tick is in flight. *)
Definition halting_world : World :=
  mkWorld (fun _ _ => inr (mkFailure (lit "127") (lit "Command failed")))
          (fun _ => true) no_entry (fun _ => None) (fun _ => None)
          (lit "/tmp") (number_of_Z 0) [] (fun n => n =? 0).

(* ===================================================================== *)
(** ** Facts about the string primitives *)
(* ===================================================================== *)

Lemma str_eqb_eq (a b : str) : str_eqb a b = true <-> a = b.
Proof.
  revert b; induction a as [|x a IH]; intros [|y b]; simpl; split;
    try congruence; try reflexivity.
  - intros H. apply andb_true_iff in H as [H1 H2].
    apply Ascii.eqb_eq in H1. apply IH in H2. congruence.
  - intros H. injection H as -> ->.
    apply andb_true_iff. split; [apply Ascii.eqb_refl | now apply IH].
Qed.

Lemma str_eqb_refl (a : str) : str_eqb a a = true.
Proof. now apply str_eqb_eq. Qed.

Lemma str_eqb_neq (a b : str) : str_eqb a b = false <-> a <> b.
Proof.
  split.
  - intros H E. apply str_eqb_eq in E. congruence.
  - intros H. destruct (str_eqb a b) eqn:E; [|reflexivity].
    apply str_eqb_eq in E. contradiction.
Qed.

Lemma startsWith_app (p s : str) : startsWith p (p ++ s) = true.
Proof.
  induction p as [|x p IH]; simpl; [reflexivity|].
  now rewrite Ascii.eqb_refl.
Qed.

Lemma startsWith_split (p s : str) :
  startsWith p s = true -> s = p ++ skipn (List.length p) s.
Proof.
  revert s; induction p as [|x p IH]; intros s H; simpl in *.
  - reflexivity.
  - destruct s as [|y s]; [discriminate|].
    apply andb_true_iff in H as [H1 H2].
    apply Ascii.eqb_eq in H1. subst y. simpl. f_equal. now apply IH.
Qed.

Lemma startsWith_iff (p s : str) :
  startsWith p s = true <-> exists rest, s = p ++ rest.
Proof.
  split.
  - intros H. eexists. now apply startsWith_split.
  - intros [rest ->]. apply startsWith_app.
Qed.

(** [includes] decides the occurrence of a substring. *)
Lemma includes_spec (s sub : str) :
  includes s sub = true <-> occurs_in sub s.
Proof.
  unfold occurs_in. induction s as [|c s IH]; simpl.
  - rewrite orb_false_r. split.
    + intros H. apply startsWith_iff in H as [rest H].
      exists [], rest. exact H.
    + intros (pre & post & H).
      destruct pre; simpl in H.
      * apply startsWith_iff. now exists post.
      * discriminate.
  - rewrite orb_true_iff. split.
    + intros [H | H].
      * apply startsWith_iff in H as [rest H]. exists [], rest. exact H.
      * apply IH in H as (pre & post & ->). now exists (c :: pre), post.
    + intros (pre & post & H). destruct pre as [|x pre]; simpl in H.
      * left. apply startsWith_iff. now exists post.
      * right. apply IH. injection H as _ ->. now exists pre, post.
Qed.

Lemma toLowerCase_app (a b : str) :
  toLowerCase (a ++ b) = toLowerCase a ++ toLowerCase b.
Proof. apply map_app. Qed.

(** A substring test on the lower-cased text finds the mixed-case
    occurrences of the needle. *)
Lemma includes_lower_spec (s needle : str) :
  includes (toLowerCase s) needle = true <->
  exists pre u post, s = pre ++ u ++ post /\ toLowerCase u = needle.
Proof.
  rewrite includes_spec. unfold occurs_in. split.
  - intros (a & b & H). unfold toLowerCase in H.
    apply map_eq_app in H as (pre & rest & -> & Hpre & H).
    apply map_eq_app in H as (u & post & -> & Hu & Hpost).
    now exists pre, u, post.
  - intros (pre & u & post & -> & Hu).
    exists (toLowerCase pre), (toLowerCase post).
    now rewrite !toLowerCase_app, Hu.
Qed.

Lemma lower_char_u (x : ascii) :
  lower_char x = "u"%char <-> x = "u"%char \/ x = "U"%char.
Proof.
  destruct x as [[|] [|] [|] [|] [|] [|] [|] [|]]; vm_compute;
    split; intros H; try discriminate H; auto;
    destruct H as [H | H]; discriminate H.
Qed.

Lemma lower_char_s (x : ascii) :
  lower_char x = "s"%char <-> x = "s"%char \/ x = "S"%char.
Proof.
  destruct x as [[|] [|] [|] [|] [|] [|] [|] [|]]; vm_compute;
    split; intros H; try discriminate H; auto;
    destruct H as [H | H]; discriminate H.
Qed.

Lemma lower_char_b (x : ascii) :
  lower_char x = "b"%char <-> x = "b"%char \/ x = "B"%char.
Proof.
  destruct x as [[|] [|] [|] [|] [|] [|] [|] [|]]; vm_compute;
    split; intros H; try discriminate H; auto;
    destruct H as [H | H]; discriminate H.
Qed.

(** The test of the USB flag finds exactly the locators that mention
    "usb" in some mix of letter cases. *)
Lemma includes_usb_spec (s : str) :
  includes (toLowerCase s) (lit "usb") = true <-> mentions_usb s.
Proof.
  rewrite includes_lower_spec. unfold mentions_usb. split.
  - intros (pre & u & post & -> & Hu).
    destruct u as [|a [|b [|c [|d u]]]]; try discriminate Hu.
    injection Hu as Ha Hb Hc.
    exists pre, a, b, c, post.
    rewrite lower_char_u in Ha. rewrite lower_char_s in Hb.
    rewrite lower_char_b in Hc. auto.
  - intros (pre & a & b & c & post & -> & Ha & Hb & Hc).
    exists pre, [a; b; c], post. split; [reflexivity|].
    apply lower_char_u in Ha. apply lower_char_s in Hb.
    apply lower_char_b in Hc. unfold toLowerCase. simpl.
    now rewrite Ha, Hb, Hc.
Qed.

Lemma uint_chars (d : Decimal.uint) (c : ascii) :
  In c (lit (NilEmpty.string_of_uint d)) -> is_digit c = true.
Proof.
  induction d; simpl; intros H; try contradiction;
    (destruct H as [<- | H]; [reflexivity | now apply IHd]).
Qed.


Lemma in_skipn {A} (n : nat) (l : list A) (x : A) :
  In x (skipn n l) -> In x l.
Proof.
  intros H. rewrite <- (firstn_skipn n l). apply in_or_app. now right.
Qed.


Lemma in_firstn {A} (n : nat) (l : list A) (x : A) :
  In x (firstn n l) -> In x l.
Proof.
  intros H. rewrite <- (firstn_skipn n l). apply in_or_app. now left.
Qed.


Lemma digits_chars (d : Decimal.uint) (c : ascii) :
  In c (lit (NilZero.string_of_uint d)) -> is_digit c = true.
Proof.
  unfold NilZero.string_of_uint. destruct d; try apply uint_chars.
  simpl. intros [<- | []]. reflexivity.
Qed.


Lemma drop_zeros_incl (s : str) (c : ascii) :
  In c (drop_zeros s) -> In c s.
Proof.
  induction s as [|a s IH]; simpl; [auto|].
  destruct (Ascii.eqb a zero_digit); [right; now apply IH | auto].
Qed.


Lemma significant_chars (s : positive) (c : ascii) :
  In c (significant s) -> is_digit c = true.
Proof.
  unfold significant. rewrite <- in_rev. intros H.
  apply drop_zeros_incl in H. rewrite <- in_rev in H.
  now apply digits_chars in H.
Qed.

(* ===================================================================== *)
(** ** Facts about the matcher: it finds a match exactly when the pattern
       denotes one *)
(* ===================================================================== *)

Section Matcher.

Variable k : cls.

Lemma star_greedy_sound (s : str) (caps : list str) (kont : cont) v :
  star_greedy k s caps kont = Some v ->
  exists x rest,
    s = x ++ rest /\ Forall (fun c => cls_ok k c = true) x
    /\ kont rest caps = Some v.
Proof.
  induction s as [|c t IH]; simpl; intros H.
  - exists [], []. auto.
  - destruct (cls_ok k c) eqn:Hc.
    + destruct (star_greedy k t caps kont) eqn:Hg.
      * injection H as <-. destruct (IH eq_refl) as (x & rest & -> & Hx & Hk).
        exists (c :: x), rest. auto.
      * exists [], (c :: t). auto.
    + exists [], (c :: t). auto.
Qed.

Lemma star_greedy_complete (x rest : str) (caps : list str) (kont : cont) :
  Forall (fun c => cls_ok k c = true) x ->
  kont rest caps <> None ->
  star_greedy k (x ++ rest) caps kont <> None.
Proof.
  intros Hx Hk. induction Hx as [|c x Hc Hx IH]; simpl.
  - destruct rest as [|c t]; simpl; [exact Hk|].
    destruct (cls_ok k c); [|exact Hk].
    destruct (star_greedy k t caps kont); [discriminate | exact Hk].
  - rewrite Hc. destruct (star_greedy k (x ++ rest) caps kont);
      [discriminate | contradiction].
Qed.

Lemma star_lazy_sound (s : str) (caps : list str) (kont : cont) v :
  star_lazy k s caps kont = Some v ->
  exists x rest,
    s = x ++ rest /\ Forall (fun c => cls_ok k c = true) x
    /\ kont rest caps = Some v.
Proof.
  induction s as [|c t IH]; simpl; intros H.
  - destruct (kont [] caps) eqn:Hk; [|discriminate].
    exists [], []. injection H as <-. auto.
  - destruct (kont (c :: t) caps) eqn:Hk.
    + injection H as <-. exists [], (c :: t). auto.
    + destruct (cls_ok k c) eqn:Hc; [|discriminate].
      destruct (IH H) as (x & rest & -> & Hx & Hk').
      exists (c :: x), rest. auto.
Qed.

Lemma star_lazy_complete (x rest : str) (caps : list str) (kont : cont) :
  Forall (fun c => cls_ok k c = true) x ->
  kont rest caps <> None ->
  star_lazy k (x ++ rest) caps kont <> None.
Proof.
  intros Hx Hk. induction Hx as [|c x Hc Hx IH]; simpl.
  - destruct rest as [|c t]; simpl.
    + destruct (kont [] caps); [discriminate | contradiction].
    + destruct (kont (c :: t) caps); [discriminate | contradiction].
  - destruct (kont (c :: x ++ rest) caps); [discriminate|].
    rewrite Hc. exact IH.
Qed.

End Matcher.

Lemma firstn_consumed (x rest : str) :
  firstn (List.length (x ++ rest) - List.length rest) (x ++ rest) = x.
Proof.
  rewrite length_app.
  replace (List.length x + List.length rest - List.length rest)
    with (List.length x + 0) by lia.
  rewrite firstn_app_2. simpl. apply app_nil_r.
Qed.

(** Soundness: a successful run consumed a text the pattern denotes and
    handed the rest, with the captures, to the continuation. *)
Lemma exec_at_sound (r : re) :
  forall (s : str) (caps : list str) (kont : cont) v,
    exec_at r s caps kont = Some v ->
    exists x rest cs,
      s = x ++ rest /\ matches r x cs /\ kont rest (caps ++ cs) = Some v.
Proof.
  induction r as [l | k | k | k | r1 IH1 r2 IH2 | r1 IH1];
    intros s caps kont v H; simpl in H.
  - destruct (startsWith l s) eqn:Hl; [|discriminate].
    exists l, (skipn (List.length l) s), [].
    rewrite app_nil_r. repeat split; auto using startsWith_split.
  - destruct s as [|c t]; [discriminate|].
    destruct (cls_ok k c) eqn:Hc; [|discriminate].
    apply star_greedy_sound in H as (x & rest & -> & Hx & Hk).
    exists (c :: x), rest, []. rewrite app_nil_r.
    repeat split; auto. discriminate.
  - apply star_greedy_sound in H as (x & rest & -> & Hx & Hk).
    exists x, rest, []. rewrite app_nil_r. repeat split; auto.
  - destruct s as [|c t]; [discriminate|].
    destruct (cls_ok k c) eqn:Hc; [|discriminate].
    apply star_lazy_sound in H as (x & rest & -> & Hx & Hk).
    exists (c :: x), rest, []. rewrite app_nil_r.
    repeat split; auto. discriminate.
  - apply IH1 in H as (x1 & rest1 & c1 & -> & M1 & H).
    apply IH2 in H as (x2 & rest & c2 & -> & M2 & H).
    exists (x1 ++ x2), rest, (c1 ++ c2).
    rewrite <- !app_assoc in *. repeat split; auto.
    simpl. now exists x1, x2, c1, c2.
  - apply IH1 in H as (x & rest & c1 & -> & M1 & H).
    rewrite firstn_consumed in H.
    exists x, rest, (c1 ++ [x]). rewrite <- app_assoc in H.
    repeat split; auto. simpl. now exists c1.
Qed.

(** Completeness: where the pattern denotes a prefix after which the
    continuation succeeds, the run succeeds. *)
Lemma exec_at_complete (r : re) :
  forall (x rest : str) (cs caps : list str) (kont : cont),
    matches r x cs ->
    (forall caps', kont rest caps' <> None) ->
    exec_at r (x ++ rest) caps kont <> None.
Proof.
  induction r as [l | k | k | k | r1 IH1 r2 IH2 | r1 IH1];
    intros x rest cs caps kont M Hk; simpl in M |- *.
  - destruct M as [-> _]. rewrite startsWith_app.
    rewrite skipn_app, skipn_all, Nat.sub_diag. simpl. apply Hk.
  - destruct M as (Hne & Hx & _). destruct x as [|c x]; [congruence|].
    inversion Hx as [|? ? Hc Hx']; subst. simpl. rewrite Hc.
    now apply star_greedy_complete.
  - destruct M as (Hx & _). now apply star_greedy_complete.
  - destruct M as (Hne & Hx & _). destruct x as [|c x]; [congruence|].
    inversion Hx as [|? ? Hc Hx']; subst. simpl. rewrite Hc.
    now apply star_lazy_complete.
  - destruct M as (x1 & x2 & c1 & c2 & -> & _ & M1 & M2).
    rewrite <- app_assoc. eapply IH1; [exact M1|].
    intros caps'. eapply IH2; [exact M2 | exact Hk].
  - destruct M as (c1 & _ & M1).
    eapply IH1; [exact M1|]. intros caps'. apply Hk.
Qed.

Lemma re_match_sound (r : re) (s : str) (caps : list str) :
  re_match r s = Some caps ->
  exists pre x post, s = pre ++ x ++ post /\ matches r x caps.
Proof.
  induction s as [|c t IH]; simpl.
  - destruct (exec_at r [] [] accept) eqn:H; [|discriminate].
    intros E. injection E as ->.
    apply exec_at_sound in H as (x & rest & cs & Hs & M & Hk).
    unfold accept in Hk. injection Hk as <-. now exists [], x, rest.
  - destruct (exec_at r (c :: t) [] accept) eqn:H.
    + intros E. injection E as ->.
      apply exec_at_sound in H as (x & rest & cs & Hs & M & Hk).
      unfold accept in Hk. injection Hk as <-. now exists [], x, rest.
    + intros E. apply IH in E as (pre & x & post & -> & M).
      now exists (c :: pre), x, post.
Qed.

Lemma re_match_complete (r : re) (pre x post : str) (cs : list str) :
  matches r x cs -> re_match r (pre ++ x ++ post) <> None.
Proof.
  intros M.
  assert (H0 : exec_at r (x ++ post) [] accept <> None).
  { eapply exec_at_complete; [exact M|]. intros; discriminate. }
  induction pre as [|c pre IH]; simpl.
  - destruct (x ++ post); simpl in *;
      destruct (exec_at r _ [] accept); try discriminate; contradiction.
  - destruct (exec_at r (c :: pre ++ x ++ post) [] accept);
      [discriminate | exact IH].
Qed.

(* ===================================================================== *)
(** ** Job identifiers *)
(* ===================================================================== *)

Lemma any_ok_iff (x : str) :
  Forall (fun c => cls_ok Any c = true) x <->
  Forall (fun c => is_line_terminator c = false) x.
Proof.
  split; intros H; eapply Forall_impl; try exact H; simpl; intros c Hc.
  - now apply negb_true_iff.
  - now apply negb_true_iff.
Qed.

(** What [re_job] denotes. *)
Lemma re_job_denotes (x : str) (caps : list str) :
  matches re_job x caps <->
  exists nm ds,
    x = lit "request id is " ++ nm ++ lit "-" ++ ds /\ caps = [ds]
    /\ nm <> [] /\ Forall (fun c => is_line_terminator c = false) nm
    /\ ds <> [] /\ Forall (fun c => is_digit c = true) ds.
Proof.
  unfold re_job. split.
  - intros (x1 & x2 & c1 & c2 & -> & -> & [-> ->] & M). 
    destruct M as (x3 & x4 & c3 & c4 & -> & -> & (Hne & Hnm & ->) & M).
    destruct M as (x5 & x6 & c5 & c6 & -> & -> & [-> ->] & M).
    destruct M as (c7 & -> & (Hd & Hds & ->)).
    exists x3, x6. simpl. repeat split; auto. now apply any_ok_iff.
  - intros (nm & ds & -> & -> & Hne & Hnm & Hd & Hds).
    exists (lit "request id is "), (nm ++ lit "-" ++ ds), [], [ds].
    repeat split.
    exists nm, (lit "-" ++ ds), [], [ds]. repeat split; auto.
    { now apply any_ok_iff. }
    exists (lit "-"), ds, [], [ds]. repeat split.
    exists []. repeat split; auto.
Qed.

(** A greedy run in front of a continuation that cannot fail takes every
    character of the class it finds. *)
Lemma star_greedy_total (k : cls) (kont : cont) :
  (forall rest caps, kont rest caps <> None) ->
  forall (s : str) (caps : list str) v,
    star_greedy k s caps kont = Some v ->
    exists x rest,
      s = x ++ rest /\ Forall (fun c => cls_ok k c = true) x
      /\ kont rest caps = Some v
      /\ match rest with
         | [] => True
         | c :: _ => cls_ok k c = false
         end.
Proof.
  intros Hk. induction s as [|c t IH]; simpl; intros caps v H.
  - exists [], []. auto.
  - destruct (cls_ok k c) eqn:Hc.
    + destruct (star_greedy k t caps kont) eqn:Hg.
      * injection H as <-.
        destruct (IH caps _ Hg) as (x & rest & -> & Hx & Hv & Hmax).
        exists (c :: x), rest. auto.
      * exfalso. clear IH H. revert Hg. generalize caps.
        induction t as [|d t IHt]; simpl; intros caps0 Hg.
        -- now apply (Hk [] caps0).
        -- destruct (cls_ok k d).
           ++ destruct (star_greedy k t caps0 kont) eqn:Ht; [discriminate|].
              now apply (IHt caps0).
           ++ now apply (Hk (d :: t) caps0).
    + exists [], (c :: t). auto.
Qed.

Lemma re_match_at (r : re) (s : str) (caps : list str) :
  re_match r s = Some caps ->
  exists pre s', s = pre ++ s' /\ exec_at r s' [] accept = Some caps.
Proof.
  induction s as [|c t IH]; simpl.
  - destruct (exec_at r [] [] accept) eqn:H; [|discriminate].
    intros E. injection E as ->. now exists [], [].
  - destruct (exec_at r (c :: t) [] accept) eqn:H.
    + intros E. injection E as ->. now exists [], (c :: t).
    + intros E. apply IH in E as (pre & s' & -> & E).
      now exists (c :: pre), s'.
Qed.

(** A match of [re_job] at the head of [s]: the digit group is maximal. *)
Lemma re_job_at (s : str) (caps : list str) :
  exec_at re_job s [] accept = Some caps ->
  exists nm ds post,
    s = lit "request id is " ++ nm ++ lit "-" ++ ds ++ post
    /\ caps = [ds]
    /\ nm <> [] /\ Forall (fun c => is_line_terminator c = false) nm
    /\ ds <> [] /\ Forall (fun c => is_digit c = true) ds
    /\ match post with
       | [] => True
       | c :: _ => is_digit c = false
       end.
Proof.
  unfold re_job. intros H.
  change (exec_at (Lit (lit "request id is ")) s []
            (fun r1 c1 =>
               exec_at (PlusG Any) r1 c1
                 (fun r2 c2 =>
                    exec_at (Lit (lit "-")) r2 c2
                      (fun r3 c3 => exec_at (Grp (PlusG Digit)) r3 c3 accept)))
          = Some caps) in H.
  apply exec_at_sound in H as (x1 & s1 & k1 & -> & [-> ->] & H).
  apply exec_at_sound in H as (nm & s2 & k2 & -> & (Hne & Hnm & ->) & H).
  apply exec_at_sound in H as (x3 & s3 & k3 & -> & [-> ->] & H).
  cbn [exec_at] in H. destruct s3 as [|d t]; [discriminate|].
  cbn [cls_ok] in H. destruct (is_digit d) eqn:Hd; [|discriminate].
  apply star_greedy_total in H; [|intros; discriminate].
  destruct H as (x & post & -> & Hx & Hv & Hmax).
  change (d :: x ++ post) with ((d :: x) ++ post) in Hv.
  rewrite firstn_consumed in Hv.
  unfold accept in Hv. injection Hv as <-.
  exists nm, (d :: x), post.
  repeat split; auto; try discriminate. now apply any_ok_iff.
Qed.

Lemma extractJobId_match (out : str) :
  (exists ds, acknowledges out ds /\ extractJobId out = ds)
  \/ ((forall ds, ~ acknowledges out ds) /\ extractJobId out = trim out).
Proof.
  unfold extractJobId. destruct (re_match re_job out) as [caps|] eqn:H.
  - left. apply re_match_at in H as (pre & s & -> & H).
    apply re_job_at in H
      as (nm & ds & post & -> & -> & Hne & Hnm & Hd & Hds & Hmax).
    exists ds. split; [|reflexivity].
    exists pre, nm, post. repeat split; auto.
  - right. split; [|reflexivity].
    intros ds (pre & nm & post & -> & Hne & Hnm & Hd & Hds & _).
    assert (M : matches re_job (lit "request id is " ++ nm ++ lit "-" ++ ds) [ds]).
    { apply re_job_denotes. exists nm, ds. repeat split; auto. }
    pose proof (@re_match_complete re_job pre _ post _ M) as C.
    rewrite <- !app_assoc in C. contradiction.
Qed.

(** The result of [printImage] once the submission command has answered. *)
Lemma printImage_acknowledged (w : World) (printerName : str)
  (input : image_input) (options : PrintOptions) (st st1 st2 : State)
  (imagePath : str) (printers : list Printer) (out : str) :
  stageInput w input st = (Ok imagePath, st1) ->
  getAllPrinters w st1 = (Ok printers, st2) ->
  (exists p, In p printers /\ name p = printerName) ->
  exec_result w (clock st2) (buildPrintCommand printerName imagePath options)
    = inl out ->
  fst (printImage w printerName input options st) = Ok (extractJobId out).
Proof.
  intros H1 H2 (p & Hin & Hp) H4.
  unfold printImage, tryBlock, finally, wrap_errors, try_catch, bind.
  rewrite H1, H2.
  destruct (find (fun q => str_eqb (name q) printerName) printers) eqn:Hf.
  - unfold execAsync. rewrite H4. reflexivity.
  - exfalso. eapply find_none in Hf; [|exact Hin].
    simpl in Hf. rewrite Hp, str_eqb_refl in Hf. discriminate.
Qed.

Lemma is_space_white (c : ascii) : is_space c = true <-> white c.
Proof.
  unfold white, white_space.
  destruct c as [[|] [|] [|] [|] [|] [|] [|] [|]]; vm_compute; split;
    intros H; try discriminate; try reflexivity;
    try (repeat (destruct H as [H | H]; [discriminate H|]); contradiction);
    repeat (try (left; reflexivity); right).
Qed.

Lemma trimStart_split (s : str) :
  exists a,
    s = a ++ trimStart s /\ Forall white a
    /\ match trimStart s with
       | [] => True
       | c :: _ => ~ white c
       end.
Proof.
  induction s as [|c t (a & E & Ha & Hh)]; simpl.
  - exists []. auto.
  - destruct (is_space c) eqn:Hc.
    + exists (c :: a). split; [now rewrite E at 1|]. split; [|exact Hh].
      constructor; [now apply is_space_white | exact Ha].
    + exists []. split; [reflexivity|]. split; [constructor|].
      intros H. apply is_space_white in H. congruence.
Qed.

(** [trim] removes the white space at the two ends, and nothing else. *)
Lemma trim_trimmed (s : str) : trimmed s (trim s).
Proof.
  unfold trim.
  destruct (trimStart_split s) as (a & Es & Ha & Hh).
  destruct (trimStart_split (rev (trimStart s))) as (b & Eu & Hb & Ht).
  set (u := trimStart s) in *. set (v := trimStart (rev u)) in *.
  assert (Eu' : u = rev v ++ rev b).
  { rewrite <- (rev_involutive u), Eu. apply rev_app_distr. }
  exists a, (rev b). split; [now rewrite <- Eu'|]. split; [exact Ha|].
  split; [now apply Forall_rev|]. split.
  - destruct (rev v) as [|c r] eqn:Ev; [exact I|].
    rewrite Eu' in Hh. exact Hh.
  - now rewrite rev_involutive.
Qed.

Lemma extractJobId_cases (out : str) :
  (exists ds, acknowledges out ds /\ extractJobId out = ds)
  \/ ((forall ds, ~ acknowledges out ds) /\ trimmed out (extractJobId out)).
Proof.
  destruct (extractJobId_match out) as [H | [H E]]; [now left | right].
  split; [exact H|]. rewrite E. apply trim_trimmed.
Qed.

(** C4. Whenever the submission command of [printImage] answers with the
    text [out], the job identifier returned is the digit group of a match
    of "request id is <name>-<digits>" in [out] when there is one; when
    [out] contains no such text, it is [out] without the white space at
    its two ends, and otherwise unchanged.  The acknowledgement "request id
    is Canon_TS3300-42 (1 file(s))" gives "42". *)
Theorem C4_job_id_extraction (w : World) (printerName : str)
  (input : image_input) (options : PrintOptions) (st st1 st2 : State)
  (imagePath : str) (printers : list Printer) (out : str) :
  stageInput w input st = (Ok imagePath, st1) ->
  getAllPrinters w st1 = (Ok printers, st2) ->
  (exists p, In p printers /\ name p = printerName) ->
  exec_result w (clock st2) (buildPrintCommand printerName imagePath options)
    = inl out ->
  exists jobId,
    fst (printImage w printerName input options st) = Ok jobId
    /\ jobId = extractJobId out
    /\ ((exists ds, acknowledges out ds /\ jobId = ds)
        \/ ((forall ds, ~ acknowledges out ds) /\ trimmed out jobId))
    /\ extractJobId (lit "request id is Canon_TS3300-42 (1 file(s))")
       = lit "42".
Proof.
  intros H1 H2 H3 H4. exists (extractJobId out). split; [|split; [|split]].
  - eapply printImage_acknowledged; eauto.
  - reflexivity.
  - apply extractJobId_cases.
  - reflexivity.
Qed.

Lemma C4_witness :
  fst (printImage sample_world (lit "Canon_TS3300") (FromPath sample_path)
         no_options (state_with sample_path))
  = Ok (lit "42")
  /\ fst (printImage terse_world (lit "Canon_TS3300") (FromPath sample_path)
            no_options (state_with sample_path))
     = Ok (lit "job accepted")
  /\ trimmed terse_ack (lit "job accepted").
Proof.
  pose (st0 := state_with sample_path).
  split; [|split].
  - pose (st1 := snd (stageInput sample_world (FromPath sample_path) st0)).
    pose (st2 := snd (getAllPrinters sample_world st1)).
    destruct (@C4_job_id_extraction sample_world (lit "Canon_TS3300")
                (FromPath sample_path) no_options st0
                st1 st2 sample_path (parsePrinters sample_list sample_devices)
                sample_ack) as (id & H & -> & _).
    + vm_compute. reflexivity.
    + vm_compute. reflexivity.
    + eexists. split; [right; left; reflexivity | reflexivity].
    + reflexivity.
    + exact H.
  - pose (st1 := snd (stageInput terse_world (FromPath sample_path) st0)).
    pose (st2 := snd (getAllPrinters terse_world st1)).
    destruct (@C4_job_id_extraction terse_world (lit "Canon_TS3300")
                (FromPath sample_path) no_options st0
                st1 st2 sample_path (parsePrinters sample_list sample_devices)
                terse_ack) as (id & H & -> & _).
    + vm_compute. reflexivity.
    + vm_compute. reflexivity.
    + eexists. split; [right; left; reflexivity | reflexivity].
    + reflexivity.
    + exact H.
  - pose (st1 := snd (stageInput terse_world (FromPath sample_path) st0)).
    pose (st2 := snd (getAllPrinters terse_world st1)).
    destruct (@C4_job_id_extraction terse_world (lit "Canon_TS3300")
                (FromPath sample_path) no_options st0
                st1 st2 sample_path (parsePrinters sample_list sample_devices)
                terse_ack) as (id & _ & E & [(ds & Hds & _) | [_ T]] & _).
    + vm_compute. reflexivity.
    + vm_compute. reflexivity.
    + eexists. split; [right; left; reflexivity | reflexivity].
    + reflexivity.
    + exfalso. destruct Hds as (pre & nm & post & Hs & _).
      revert Hs. clear. intros Hs.
      assert (Hin : includes terse_ack (lit "request id is ") = true).
      { apply includes_spec. exists pre, (nm ++ lit "-" ++ ds ++ post).
        exact Hs. }
      vm_compute in Hin. discriminate.
    + subst id. exact T.
Defined.

(* ===================================================================== *)
(** ** The submission command *)
(* ===================================================================== *)

Lemma fold_push {A} (f : A -> list str) (l : list A) (args : list str) :
  fold_left (fun acc x => push acc (f x)) l args = args ++ flat_map f l.
Proof.
  revert args; induction l as [|x l IH]; intros args; simpl.
  - now rewrite app_nil_r.
  - rewrite IH. unfold push. now rewrite <- app_assoc.
Qed.

Lemma buildPrintCommand_flags (printerName imagePath : str)
  (options : PrintOptions) :
  buildPrintCommand printerName imagePath options
  = join (lit " ") (lit "lp" :: spec_flags printerName imagePath options).
Proof.
  unfold buildPrintCommand, spec_flags. f_equal.
  destruct options as [c m g f o]; simpl.
  destruct c as [n|]; [destruct (number_truthy n && gt_one n)|];
    (destruct m as [m|]; [destruct (truthy m)|]);
    destruct g as [[|]|]; destruct f as [[|]|]; destruct o as [entries|];
    unfold push; simpl; try rewrite fold_push; unfold push;
    simpl; rewrite <- ?app_assoc; reflexivity.
Qed.

(** Every command built by [buildPrintCommand] is a submission command. *)
Lemma buildPrintCommand_is_submission (pn ip : str) (o : PrintOptions) :
  is_submission (EvExec (buildPrintCommand pn ip o)) = true.
Proof.
  rewrite buildPrintCommand_flags. reflexivity.
Qed.

















(* ===================================================================== *)
(** ** More about the matcher, and about lines *)
(* ===================================================================== *)

(** A lazy run stops at the first place where the continuation succeeds. *)
Lemma star_lazy_minimal (k : cls) (s : str) (caps : list str) (kont : cont) v :
  star_lazy k s caps kont = Some v ->
  exists x rest,
    s = x ++ rest /\ Forall (fun c => cls_ok k c = true) x
    /\ kont rest caps = Some v
    /\ (forall x1 x2, x = x1 ++ x2 -> x2 <> [] ->
                      kont (x2 ++ rest) caps = None).
Proof.
  induction s as [|c t IH]; simpl; intros H.
  - destruct (kont [] caps) eqn:Hk; [|discriminate].
    injection H as <-. exists [], []. repeat split; auto.
    intros x1 x2 E Hne. destruct x1, x2; try discriminate. congruence.
  - destruct (kont (c :: t) caps) eqn:Hk.
    + injection H as <-. exists [], (c :: t). repeat split; auto.
      intros x1 x2 E Hne. destruct x1, x2; try discriminate. congruence.
    + destruct (cls_ok k c) eqn:Hc; [|discriminate].
      destruct (IH H) as (x & rest & -> & Hx & Hv & Hmin).
      exists (c :: x), rest. repeat split; auto.
      intros x1 x2 E Hne. destruct x1 as [|d x1]; simpl in E.
      * subst x2. exact Hk.
      * injection E as _ E. now apply (Hmin x1 x2).
Qed.

Lemma re_match_unfold (r : re) (s : str) :
  re_match r s
  = match exec_at r s [] accept with
    | Some caps => Some caps
    | None => match s with
              | [] => None
              | _ :: t => re_match r t
              end
    end.
Proof. destruct s; reflexivity. Qed.

(** Where the literal that opens a pattern occurs for the first time, no
    earlier position starts a match. *)
Lemma no_earlier_start (l pre body : str) (c : ascii) :
  first_occurrence l (c :: pre) ->
  startsWith l ((c :: pre) ++ l ++ body) = false.
Proof.
  intros Hfirst. destruct (startsWith l _) eqn:E; [|reflexivity].
  exfalso. apply startsWith_iff in E as (rest & E).
  set (P := (c :: pre) ++ l) in *.
  assert (HP : P = l ++ skipn (List.length l) P).
  { rewrite <- (firstn_skipn (List.length l) P) at 1. f_equal.
    assert (F : firstn (List.length l) (P ++ body) = l).
    { replace (P ++ body) with (l ++ rest)
        by (rewrite <- E; unfold P; now rewrite <- app_assoc).
      rewrite firstn_app, Nat.sub_diag, firstn_all. simpl.
      apply app_nil_r. }
    rewrite firstn_app in F.
    replace (List.length l - List.length P) with 0 in F
      by (unfold P; rewrite length_app; simpl; lia).
    simpl in F. now rewrite app_nil_r in F. }
  specialize (Hfirst [] (skipn (List.length l) P) HP).
  apply (f_equal (@List.length ascii)) in HP.
  rewrite Hfirst, app_nil_r in HP. unfold P in HP.
  rewrite length_app in HP. simpl in HP. lia.
Qed.

Lemma re_match_first (l : str) (r : re) (pre body : str) (caps : list str) :
  first_occurrence l pre ->
  exec_at (Cat (Lit l) r) (l ++ body) [] accept = Some caps ->
  re_match (Cat (Lit l) r) (pre ++ l ++ body) = Some caps.
Proof.
  intros Hfirst Hm. induction pre as [|c pre IH].
  - simpl. rewrite re_match_unfold, Hm. reflexivity.
  - rewrite re_match_unfold.
    assert (E : exec_at (Cat (Lit l) r) ((c :: pre) ++ l ++ body) [] accept
                = None).
    { cbn [exec_at]. now rewrite no_earlier_start. }
    rewrite E. simpl. apply IH.
    intros a b Hab. apply (Hfirst (c :: a) b). simpl. now rewrite Hab.
Qed.

(** A greedy run takes a whole stretch of the class when what follows is
    not of the class and the continuation accepts there. *)
Lemma star_greedy_stretch (k : cls) (x rest : str) (caps : list str)
  (kont : cont) v :
  Forall (fun c => cls_ok k c = true) x ->
  match rest with
  | [] => True
  | c :: _ => cls_ok k c = false
  end ->
  kont rest caps = Some v ->
  star_greedy k (x ++ rest) caps kont = Some v.
Proof.
  intros Hx Hrest Hk. induction Hx as [|c x Hc Hx IH]; simpl.
  - destruct rest as [|c t]; simpl; [exact Hk|]. now rewrite Hrest.
  - now rewrite Hc, IH.
Qed.

Lemma split_on_nonempty (sep : ascii) (s : str) : split_on sep s <> [].
Proof.
  destruct s as [|c t]; simpl; [discriminate|].
  destruct (Ascii.eqb c sep); [discriminate|].
  destruct (split_on sep t); discriminate.
Qed.

Lemma split_on_absent (sep : ascii) (s : str) :
  ~ In sep s -> split_on sep s = [s].
Proof.
  induction s as [|c t IH]; simpl; intros H; [reflexivity|].
  destruct (Ascii.eqb c sep) eqn:E.
  - apply Ascii.eqb_eq in E. subst. exfalso. auto.
  - rewrite IH by auto. reflexivity.
Qed.

Lemma split_on_app (sep : ascii) (a b : str) :
  split_on sep (a ++ sep :: b) = split_on sep a ++ split_on sep b.
Proof.
  induction a as [|c a IH]; simpl.
  - now rewrite Ascii.eqb_refl.
  - destruct (Ascii.eqb c sep); rewrite IH; [reflexivity|].
    pose proof (split_on_nonempty sep a) as Hne.
    destruct (split_on sep a); [congruence | reflexivity].
Qed.

Lemma split_join (sep : ascii) (tokens : list str) :
  tokens <> [] -> Forall (fun t => ~ In sep t) tokens ->
  split_on sep (join [sep] tokens) = tokens.
Proof.
  intros Hne Hs. induction Hs as [|x l Hx Hl IH]; [congruence|].
  destruct l as [|y l].
  - simpl. now apply split_on_absent.
  - change (join [sep] (x :: y :: l)) with (x ++ sep :: join [sep] (y :: l)).
    rewrite split_on_app, (@split_on_absent sep x Hx), IH by discriminate.
    reflexivity.
Qed.

Lemma join_chars (sep : str) (l : list str) (P : ascii -> Prop) :
  Forall P sep -> Forall (Forall P) l -> Forall P (join sep l).
Proof.
  intros Hsep Hl. induction Hl as [|x l Hx Hl IH]; simpl; [constructor|].
  destruct l; [exact Hx|].
  apply Forall_app. split; [exact Hx|]. apply Forall_app. now split.
Qed.

Lemma join_nonempty (sep : str) (l : list str) :
  l <> [] -> Forall (fun t => t <> []) l -> join sep l <> [].
Proof.
  intros Hne Hl. destruct Hl as [|x l Hx Hl]; [congruence|].
  simpl. destruct l; [exact Hx|]. destruct x; [congruence | discriminate].
Qed.

(** A test that decides the first occurrence. *)
Lemma first_occurrence_check (l pre : str) :
  includes (removelast (pre ++ l)) l = false -> first_occurrence l pre.
Proof.
  intros Hc a b E. destruct b as [|c b]; [reflexivity|]. exfalso.
  assert (Hocc : occurs_in l (removelast (pre ++ l))).
  { exists a, (removelast (c :: b)).
    rewrite E, !removelast_app by (try discriminate; destruct l; discriminate).
    reflexivity. }
  apply includes_spec in Hocc. congruence.
Qed.

(* ===================================================================== *)
(** ** The printer directory *)
(* ===================================================================== *)

Lemma fold_snoc_opt {A B} (f : A -> option B) (l : list A) (acc : list B) :
  fold_left
    (fun printers line =>
       match f line with
       | Some p => printers ++ [p]
       | None => printers
       end) l acc
  = acc ++ flat_map (fun line => match f line with
                                 | Some p => [p]
                                 | None => []
                                 end) l.
Proof.
  revert acc; induction l as [|x l IH]; intros acc; simpl.
  - now rewrite app_nil_r.
  - rewrite IH. destruct (f x); simpl.
    + now rewrite <- app_assoc.
    + reflexivity.
Qed.

(** The records are the parsed printer lines, in the order of the report. *)
Lemma parsePrinters_lines (printerList printerDevices : str) :
  parsePrinters printerList printerDevices
  = flat_map
      (fun line =>
         match parseLine (split_lines printerDevices)
                 (defaultPrinter printerList) line with
         | Some p => [p]
         | None => []
         end)
      (split_lines printerList).
Proof.
  unfold parsePrinters. now rewrite fold_snoc_opt.
Qed.

Lemma parsePrinters_In (printerList printerDevices : str) (r : Printer) :
  In r (parsePrinters printerList printerDevices) ->
  exists line,
    In line (split_lines printerList)
    /\ parseLine (split_lines printerDevices) (defaultPrinter printerList) line
       = Some r.
Proof.
  rewrite parsePrinters_lines, in_flat_map.
  intros (line & Hin & Hr). exists line. split; [exact Hin|].
  destruct (parseLine _ _ line) as [p|]; simpl in Hr.
  - destruct Hr as [-> | []]. reflexivity.
  - contradiction.
Qed.

Lemma deviceOf_usb (deviceLines : list str) (printerName : str) :
  snd (deviceOf deviceLines printerName)
  = includes (toLowerCase (fst (deviceOf deviceLines printerName))) (lit "usb").
Proof.
  unfold deviceOf.
  destruct (find _ deviceLines) as [d|]; [|reflexivity].
  destruct (truthy d); [|reflexivity].
  destruct (re_match re_device d); reflexivity.
Qed.

Lemma parseLine_fields (deviceLines : list str) (dflt line : str)
  (r : Printer) :
  parseLine deviceLines dflt line = Some r ->
  printerNameOf line = Some (name r)
  /\ isDefault r = str_eqb (name r) dflt
  /\ isUSB r = includes (toLowerCase (uri r)) (lit "usb").
Proof.
  unfold parseLine, printerNameOf.
  destruct (re_match re_printer line) as [caps|]; [|discriminate].
  pose proof (deviceOf_usb deviceLines (group 1 caps)) as Hu.
  destruct (deviceOf deviceLines (group 1 caps)) as [u b].
  intros E. injection E as <-. simpl in *. auto.
Qed.

Lemma parseLine_none (deviceLines : list str) (dflt line : str) :
  parseLine deviceLines dflt line = None <-> printerNameOf line = None.
Proof.
  unfold parseLine, printerNameOf.
  destruct (re_match re_printer line) as [caps|].
  - destruct (deviceOf deviceLines (group 1 caps)). split; discriminate.
  - split; reflexivity.
Qed.

(** A match of [re_printer] at the head of [s]: the name runs from the text
    "printer " to the first blank that follows at least one character. *)
Lemma re_printer_at (s : str) (caps : list str) :
  exec_at re_printer s [] accept = Some caps ->
  exists c x rest,
    s = lit "printer " ++ (c :: x) ++ lit " " ++ rest
    /\ group 1 caps = c :: x
    /\ Forall (fun a => is_line_terminator a = false) (c :: x)
    /\ ~ In blank x.
Proof.
  unfold re_printer. intros H.
  change (exec_at (Lit (lit "printer ")) s []
            (fun r1 c1 =>
               exec_at (Grp (PlusL Any)) r1 c1
                 (fun r2 c2 =>
                    exec_at (Lit (lit " ")) r2 c2
                      (fun r3 c3 => exec_at (Grp (StarG Any)) r3 c3 accept)))
          = Some caps) in H.
  apply exec_at_sound in H as (x1 & s1 & k1 & -> & [-> ->] & H).
  cbn [exec_at] in H. destruct s1 as [|c t]; [discriminate|].
  destruct (cls_ok Any c) eqn:Hc; [|discriminate].
  apply star_lazy_minimal in H as (x & rest & -> & Hx & Hv & Hmin).
  change (c :: x ++ rest) with ((c :: x) ++ rest) in Hv.
  rewrite firstn_consumed in Hv.
  destruct (startsWith (lit " ") rest) eqn:Hb; [|discriminate].
  apply startsWith_split in Hb.
  set (rest' := skipn (List.length (lit " ")) rest) in *.
  apply star_greedy_sound in Hv as (y & post & Hrest & Hy & Hk).
  unfold accept in Hk. injection Hk as <-.
  exists c, x, rest'. repeat split.
  - rewrite Hb at 1. reflexivity.
  - constructor.
    + now apply negb_true_iff in Hc.
    + now apply any_ok_iff.
  - intros Hin. apply in_split in Hin as (x1 & x2 & ->).
    specialize (Hmin x1 (blank :: x2) eq_refl).
    assert (Hn : forall caps0,
               exec_at (Lit (lit " ")) ((blank :: x2) ++ rest) caps0
                 (fun r3 c3 => exec_at (Grp (StarG Any)) r3 c3 accept)
               <> None).
    { intros caps0.
      change ((blank :: x2) ++ rest) with (lit " " ++ (x2 ++ rest)).
      apply exec_at_complete with (cs := []); [now split|].
      intros caps'. change (x2 ++ rest) with ([] ++ (x2 ++ rest)).
      apply exec_at_complete with (cs := [] ++ [[]]).
      - exists []. split; [reflexivity|]. split; [constructor | reflexivity].
      - intros; discriminate. }
    eapply Hn. apply Hmin. discriminate.
Qed.

Lemma or_else_nonempty (x y : str) : y <> [] -> or_else x y <> [].
Proof.
  intros Hy. unfold or_else, truthy.
  destruct (str_eqb x []) eqn:E; simpl; [exact Hy|].
  now apply str_eqb_neq in E.
Qed.

Lemma app_regroup {A} (pre a b c rest : list A) :
  pre ++ a ++ b ++ c ++ rest = pre ++ (a ++ b ++ c) ++ rest.
Proof. now rewrite <- !app_assoc. Qed.

(** What a record says about the line it was parsed from. *)
Lemma parseLine_shape (deviceLines : list str) (dflt line : str)
  (r : Printer) :
  parseLine deviceLines dflt line = Some r ->
  name r <> [] /\ ~ In blank (tl (name r))
  /\ Forall (fun a => is_line_terminator a = false) (name r)
  /\ status r <> [] /\ description r = Some (status r)
  /\ occurs_in (lit "printer " ++ name r ++ lit " ") line
  /\ uri r = fst (deviceOf deviceLines (name r))
  /\ isUSB r = snd (deviceOf deviceLines (name r)).
Proof.
  unfold parseLine.
  destruct (re_match re_printer line) as [caps|] eqn:Hm; [|discriminate].
  apply re_match_at in Hm as (pre & s & -> & Hm).
  apply re_printer_at in Hm as (c & x & rest & -> & Hg & Hlt & Hb).
  destruct (deviceOf deviceLines (group 1 caps)) as [u b] eqn:Hd.
  intros E. injection E as <-. simpl. rewrite Hg in *. simpl.
  repeat split; auto; try discriminate.
  - apply or_else_nonempty. discriminate.
  - exists pre, rest.
    exact (app_regroup pre (lit "printer ") (c :: x) (lit " ") rest).
  - now rewrite Hd.
  - now rewrite Hd.
Qed.

(** What a successful directory query did: two commands, in this order,
    and nothing else. *)
Lemma getAllPrinters_ok (w : World) (st st' : State) (ps : list Printer) :
  getAllPrinters w st = (Ok ps, st') ->
  exists printerList printerDevices,
    exec_result w (clock st) (lit "lpstat -p -d") = inl printerList
    /\ exec_result w (S (clock st)) (lit "lpstat -v") = inl printerDevices
    /\ ps = parsePrinters printerList printerDevices
    /\ st' = mkState (files st)
               (trace st ++ [EvExec (lit "lpstat -p -d"); EvExec (lit "lpstat -v")])
               (S (S (clock st))).
Proof.
  unfold getAllPrinters, wrap_errors, try_catch, bind, execAsync, ret, throw.
  simpl.
  destruct (exec_result w (clock st) (lit "lpstat -p -d")) as [pl|f];
    simpl; [|discriminate].
  destruct (exec_result w (S (clock st)) (lit "lpstat -v")) as [pd|f];
    simpl; [|discriminate].
  intros E. injection E as <- <-. exists pl, pd.
  repeat split. now rewrite <- app_assoc.
Qed.

(** C8. A record returned by [getAllPrinters] has its [isUSB] flag set
    exactly when its transport locator contains "usb" in some mix of letter
    cases; in particular the flag is off for the empty locator. *)
Theorem C8_usb_flag (w : World) (st st' : State) (ps : list Printer)
  (r : Printer) :
  getAllPrinters w st = (Ok ps, st') ->
  In r ps ->
  (isUSB r = true <-> mentions_usb (uri r))
  /\ (uri r = [] -> isUSB r = false).
Proof.
  intros H Hin.
  apply getAllPrinters_ok in H as (pl & pd & _ & _ & -> & _).
  apply parsePrinters_In in Hin as (line & _ & Hr).
  apply parseLine_fields in Hr as (_ & _ & Hu).
  split.
  - rewrite Hu. apply includes_usb_spec.
  - intros E. rewrite Hu, E. reflexivity.
Qed.

Lemma C8_witness :
  exists r,
    In r (parsePrinters sample_list sample_devices)
    /\ name r = lit "Canon_TS3300" /\ isUSB r = true
    /\ mentions_usb (uri r).
Proof.
  pose (r := mkPrinter (lit "Canon_TS3300")
               (lit "usb://Canon/TS3300%20series?serial=1A2B")
               (lit "is idle.  enabled since Mon 02 Nov 2026") true true
               (Some (lit "is idle.  enabled since Mon 02 Nov 2026"))).
  assert (Hin : In r (parsePrinters sample_list sample_devices)).
  { right. left. reflexivity. }
  exists r. split; [exact Hin|]. split; [reflexivity|].
  split; [reflexivity|].
  apply (@C8_usb_flag sample_world init_state
           (snd (getAllPrinters sample_world init_state))
           (parsePrinters sample_list sample_devices) r).
  - vm_compute. reflexivity.
  - exact Hin.
  - reflexivity.
Defined.

Lemma defaultPrinter_named (printerList P : str) :
  re_match re_default printerList = Some [P] ->
  defaultPrinter printerList = P.
Proof. unfold defaultPrinter. now intros ->. Qed.

Lemma first_occurrence_nil (l : str) : first_occurrence l [].
Proof.
  intros a b E. apply (f_equal (@List.length ascii)) in E.
  rewrite !length_app in E. simpl in E. destruct b; [reflexivity|].
  simpl in E. lia.
Qed.

(** The default line as the pattern reads it. *)
Lemma names_default_match (printerList P : str) :
  names_default printerList P ->
  re_match re_default printerList = Some [P].
Proof.
  intros (pre & post & -> & Hfirst & Hne & HP & Hpost).
  assert (Hm : exec_at re_default (default_header ++ P ++ post) [] accept
               = Some [P]).
  { unfold re_default. cbn [exec_at]. fold default_header.
    rewrite startsWith_app, skipn_app, skipn_all, Nat.sub_diag. simpl skipn.
    cbn [app]. destruct P as [|c P'] eqn:EP; [congruence|].
    apply any_ok_iff in HP.
    inversion HP as [|? ? Hc HP']; subst. cbn [app]. rewrite Hc.
    apply star_greedy_stretch; auto.
    - destruct post as [|d post']; [exact I|]. simpl. now rewrite Hpost.
    - unfold accept. change (c :: P' ++ post) with ((c :: P') ++ post).
      now rewrite firstn_consumed. }
  unfold re_default in *. fold default_header in *.
  now apply re_match_first.
Qed.

Lemma lines_of_split (report : str) (lines : list str) :
  lines_of report lines -> split_lines report = lines.
Proof.
  intros (Hne & Hl & ->). now apply split_join.
Qed.

Lemma blank_split (a b r1 r2 : str) :
  ~ In blank a -> ~ In blank b ->
  a ++ blank :: r1 = b ++ blank :: r2 -> a = b.
Proof.
  revert b. induction a as [|x a IH]; intros [|y b] Ha Hb E; simpl in *.
  - reflexivity.
  - injection E as <- _. exfalso. apply Hb. now left.
  - injection E as -> _. exfalso. apply Ha. now left.
  - injection E as -> E. f_equal. apply IH with (b := b); auto.
Qed.

(** A line in which "printer " is followed by a word and a blank, and does
    not occur before, gives a record named by that word. *)
Lemma mention_parsed (deviceLines : list str) (dflt pre W rest : str) :
  first_occurrence printer_header pre -> printer_word W ->
  exists r,
    parseLine deviceLines dflt (pre ++ printer_header ++ W ++ lit " " ++ rest)
    = Some r
    /\ name r = W.
Proof.
  intros Hfirst (Hne & Hlt & Hb).
  assert (Hex : exec_at re_printer (printer_header ++ W ++ lit " " ++ rest)
                  [] accept <> None).
  { replace (printer_header ++ W ++ lit " " ++ rest)
      with ((printer_header ++ W ++ lit " ") ++ rest)
      by (now rewrite <- !app_assoc).
    apply exec_at_complete with (cs := [W; []]); [|intros; discriminate].
    unfold re_printer. cbn [matches].
    exists printer_header, (W ++ lit " "), [], [W; []].
    split; [reflexivity|]. split; [reflexivity|]. split; [now split|].
    exists W, (lit " "), [W], [[]].
    split; [reflexivity|]. split; [reflexivity|]. split.
    - exists []. split; [reflexivity|]. split; [exact Hne|].
      split; [now apply any_ok_iff | reflexivity].
    - exists (lit " "), [], [], [[]].
      split; [reflexivity|]. split; [reflexivity|]. split; [now split|].
      exists []. split; [reflexivity|]. split; [constructor | reflexivity]. }
  destruct (exec_at re_printer (printer_header ++ W ++ lit " " ++ rest) []
              accept) as [caps|] eqn:E; [clear Hex|congruence].
  pose proof E as E'.
  apply re_printer_at in E' as (c & x & rest2 & Hs & Hg & _ & Hbx).
  assert (HW : W = c :: x).
  { apply app_inv_head in Hs. destruct W as [|w0 W']; [congruence|].
    simpl in Hs. injection Hs as -> Hs. f_equal.
    now apply (@blank_split W' x rest rest2). }
  assert (Hm : re_match re_printer
                 (pre ++ printer_header ++ W ++ lit " " ++ rest)
               = Some caps).
  { unfold re_printer in *. fold printer_header in *.
    now apply re_match_first. }
  unfold parseLine. rewrite Hm.
  destruct (deviceOf deviceLines (group 1 caps)) as [u b].
  eexists. split; [reflexivity|]. simpl. congruence.
Qed.

(** A line in which "printer " does not occur gives no record. *)
Lemma plain_parsed (deviceLines : list str) (dflt line : str) :
  ~ occurs_in printer_header line ->
  parseLine deviceLines dflt line = None.
Proof.
  intros Hno. destruct (parseLine deviceLines dflt line) as [r|] eqn:E;
    [|reflexivity].
  exfalso. apply Hno. apply parseLine_shape in E as (_ & _ & _ & _ & _ & O & _).
  destruct O as (a & b & ->). exists a, (name r ++ lit " " ++ b).
  unfold printer_header. now rewrite <- !app_assoc.
Qed.

Lemma records_flagged (deviceLines : list str) (P : str) (lines : list str)
  (r : Printer) :
  In r (filter isDefault (records deviceLines P lines)) ->
  name r = P
  /\ exists line,
       In line lines /\ occurs_in (printer_header ++ P ++ lit " ") line.
Proof.
  intros H. apply filter_In in H as [Hin Hd].
  apply in_flat_map in Hin as (line & Hline & Hr).
  destruct (parseLine deviceLines P line) as [q|] eqn:E; [|contradiction].
  destruct Hr as [-> | []].
  pose proof (parseLine_fields _ _ _ E) as (_ & Hf & _).
  rewrite Hf in Hd. apply str_eqb_eq in Hd.
  split; [exact Hd|]. exists line. split; [exact Hline|].
  apply parseLine_shape in E as (_ & _ & _ & _ & _ & O & _).
  now rewrite Hd in O.
Qed.

Lemma records_unflagged (deviceLines : list str) (P : str)
  (lines : list str) :
  (forall line, In line lines ->
                ~ occurs_in (printer_header ++ P ++ lit " ") line) ->
  filter isDefault (records deviceLines P lines) = [].
Proof.
  intros Hno.
  destruct (filter isDefault (records deviceLines P lines)) as [|r l] eqn:E;
    [reflexivity|].
  exfalso.
  assert (Hin : In r (filter isDefault (records deviceLines P lines)))
    by (rewrite E; now left).
  apply records_flagged in Hin as (_ & line & Hline & O).
  exact (Hno line Hline O).
Qed.

(** C7. When the name/status report names [P] as the default destination,
    a record returned by [getAllPrinters] has its [isDefault] flag set
    exactly when its name is [P], and every flagged record comes from a
    line of the report that contains "printer P ".  So no record is flagged
    when no line contains this text; at least one is flagged when a line
    starts with it; and exactly one is flagged when a line starts with it
    and no other line contains it. *)
Theorem C7_default_flag (w : World) (st st' : State) (ps : list Printer)
  (printerList P : str) (lines : list str) :
  getAllPrinters w st = (Ok ps, st') ->
  exec_result w (clock st) (lit "lpstat -p -d") = inl printerList ->
  names_default printerList P ->
  lines_of printerList lines ->
  (forall r, In r ps -> (isDefault r = true <-> name r = P))
  /\ (forall r, In r ps -> isDefault r = true ->
        exists line,
          In line lines /\ occurs_in (printer_header ++ P ++ lit " ") line)
  /\ ((forall line, In line lines ->
                    ~ occurs_in (printer_header ++ P ++ lit " ") line) ->
      filter isDefault ps = [])
  /\ (printer_word P ->
      (exists line, In line lines /\ printer_line P line) ->
      exists r, In r ps /\ isDefault r = true /\ name r = P)
  /\ (printer_word P ->
      forall before line after,
        lines = before ++ line :: after ->
        printer_line P line ->
        (forall l, In l (before ++ after) ->
                   ~ occurs_in (printer_header ++ P ++ lit " ") l) ->
        exists r, filter isDefault ps = [r] /\ name r = P).
Proof.
  intros H Hl HP Hlines.
  apply getAllPrinters_ok in H as (pl & pd & Hpl & _ & -> & _).
  rewrite Hl in Hpl. injection Hpl as <-.
  apply names_default_match, defaultPrinter_named in HP.
  apply lines_of_split in Hlines.
  rewrite parsePrinters_lines, HP, Hlines.
  fold (records (split_lines pd) P lines).
  assert (Hflag : forall r, In r (records (split_lines pd) P lines) ->
                            (isDefault r = true <-> name r = P)).
  { intros r Hin. apply in_flat_map in Hin as (line & _ & Hr).
    destruct (parseLine (split_lines pd) P line) as [q|] eqn:E;
      [|contradiction].
    destruct Hr as [-> | []].
    apply parseLine_fields in E as (_ & Hd & _).
    rewrite Hd. apply str_eqb_eq. }
  assert (Hstart : forall line,
             printer_word P -> printer_line P line ->
             exists r, parseLine (split_lines pd) P line = Some r
                       /\ name r = P /\ isDefault r = true).
  { intros line HW (rest & ->).
    destruct (@mention_parsed (split_lines pd) P [] P rest
                (@first_occurrence_nil printer_header) HW) as (r & E & Hn).
    exists r. split; [exact E|]. split; [exact Hn|].
    apply parseLine_fields in E as (_ & Hd & _).
    rewrite Hd, Hn. apply str_eqb_refl. }
  split; [exact Hflag|]. split; [|split; [|split]].
  - intros r Hin Hd.
    assert (Hf : In r (filter isDefault (records (split_lines pd) P lines)))
      by (apply filter_In; now split).
    now apply records_flagged in Hf as (_ & Hline).
  - apply records_unflagged.
  - intros HW (line & Hin & Hline).
    destruct (Hstart line HW Hline) as (r & E & Hn & Hd).
    exists r. split; [|now split].
    apply in_flat_map. exists line. split; [exact Hin|].
    rewrite E. now left.
  - intros HW before line after -> Hline Hothers.
    destruct (Hstart line HW Hline) as (r & E & Hn & Hd).
    exists r. split; [|exact Hn].
    unfold records. rewrite flat_map_app. cbn [flat_map]. rewrite E.
    rewrite !filter_app.
    fold (records (split_lines pd) P before).
    fold (records (split_lines pd) P after).
    rewrite !records_unflagged.
    + simpl. now rewrite Hd.
    + intros l Hin. apply Hothers. apply in_or_app. now right.
    + intros l Hin. apply Hothers. apply in_or_app. now left.
Qed.

Lemma C7_witness :
  exists r,
    filter isDefault (parsePrinters sample_list sample_devices) = [r]
    /\ name r = lit "Canon_TS3300".
Proof.
  pose (l1 := lit "printer HP_LaserJet is idle.  enabled since Mon 02 Nov 2026").
  pose (l2 := lit "printer Canon_TS3300 is idle.  enabled since Mon 02 Nov 2026").
  pose (l3 := lit "system default destination: Canon_TS3300").
  assert (Hnl : forall s : str, includes s [newline] = false ->
                                ~ In newline s).
  { intros s Hs Hin. apply in_split in Hin as (a & b & ->).
    assert (O : occurs_in [newline] (a ++ newline :: b)) by now exists a, b.
    apply includes_spec in O. congruence. }
  assert (Hno : forall s : str,
             includes s (printer_header ++ lit "Canon_TS3300" ++ lit " ")
             = false ->
             ~ occurs_in (printer_header ++ lit "Canon_TS3300" ++ lit " ") s).
  { intros s Hs O. apply includes_spec in O. congruence. }
  destruct (@C7_default_flag sample_world init_state
              (snd (getAllPrinters sample_world init_state))
              (parsePrinters sample_list sample_devices)
              sample_list (lit "Canon_TS3300") [l1; l2; l3; []])
    as (_ & _ & _ & _ & Hone).
  - vm_compute. reflexivity.
  - reflexivity.
  - exists (l1 ++ [newline] ++ l2 ++ [newline]), [newline].
    split; [reflexivity|].
    split; [apply first_occurrence_check; vm_compute; reflexivity|].
    split; [discriminate|]. split; [|reflexivity].
    apply Forall_forall. intros c Hc.
    destruct (is_line_terminator c) eqn:E; [|reflexivity].
    exfalso. revert Hc E. clear.
    intros Hc E. vm_compute in Hc.
    repeat (destruct Hc as [<- | Hc]; [discriminate E|]). exact Hc.
  - split; [discriminate|]. split; [|reflexivity].
    repeat constructor; apply Hnl; reflexivity.
  - apply (Hone ltac:(split; [discriminate|];
                       split; [|vm_compute; intuition discriminate];
                       apply Forall_forall; intros c Hc;
                       destruct (is_line_terminator c) eqn:E; [|reflexivity];
                       exfalso; vm_compute in Hc;
                       repeat (destruct Hc as [<- | Hc]; [discriminate E|]);
                       exact Hc)
                  [l1] l2 [l3; []] eq_refl).
    + now exists (lit "is idle.  enabled since Mon 02 Nov 2026").
    + intros l [<- | [<- | [<- | []]]]; apply Hno; reflexivity.
Defined.

(** C7 does not hold for every report whose default line names a printer.
    In this report the printer named "to" has a line of its own, which
    starts with "printer to ", and the default line names it; but the
    status message on the second line contains "printer to " as well, the
    pattern finds it there, and two records named "to" are flagged. *)
Lemma C7_counterexample :
  names_default busy_list (lit "to")
  /\ (exists line,
         In line (split_lines busy_list) /\ printer_line (lit "to") line)
  /\ fst (getAllPrinters busy_world init_state)
     = Ok (parsePrinters busy_list busy_devices)
  /\ map name (filter isDefault (parsePrinters busy_list busy_devices))
     = [lit "to"; lit "to"]
  /\ ~ (exists r,
          filter isDefault (parsePrinters busy_list busy_devices) = [r]
          /\ name r = lit "to").
Proof.
  split; [|split; [|split; [|split]]].
  - exists (lit "printer to now printing to-7.  enabled since Mon 02 Nov 2026"
              ++ [newline; ascii_of_nat 9]
              ++ lit "Waiting for printer to become available." ++ [newline]),
      [newline].
    split; [reflexivity|].
    split; [apply first_occurrence_check; vm_compute; reflexivity|].
    split; [discriminate|]. split; [|reflexivity].
    repeat constructor.
  - exists (lit "printer to now printing to-7.  enabled since Mon 02 Nov 2026").
    split; [left; reflexivity|].
    now exists (lit "now printing to-7.  enabled since Mon 02 Nov 2026").
  - reflexivity.
  - reflexivity.
  - intros (r & H & _). vm_compute in H. discriminate.
Qed.

(* ===================================================================== *)
(** ** Traces *)
(* ===================================================================== *)

Lemma emits_refl (P : event -> bool) (st : State) : emits P st st.
Proof. exists []. now rewrite app_nil_r. Qed.

Lemma emits_trans (P : event -> bool) (a b c : State) :
  emits P a b -> emits P b c -> emits P a c.
Proof.
  intros (e1 & H1 & F1) (e2 & H2 & F2). exists (e1 ++ e2).
  rewrite H2, H1, <- app_assoc, forallb_app, F1, F2. auto.
Qed.

Lemma emits_weaken (P Q : event -> bool) (a b : State) :
  (forall e, P e = true -> Q e = true) -> emits P a b -> emits Q a b.
Proof.
  intros HPQ (evs & H & F). exists evs. split; [exact H|].
  rewrite forallb_forall in *. auto.
Qed.

Lemma emits_log (P : event -> bool) (e : event) (st : State) :
  P e = true -> emits P st (log e st).
Proof. intros H. exists [e]. simpl. now rewrite H. Qed.

Lemma find_absent {A} (f : A -> bool) (l : list A) :
  (forall x, In x l -> f x = false) -> find f l = None.
Proof.
  induction l as [|x l IH]; simpl; intros H; [reflexivity|].
  rewrite (H x) by auto. apply IH. auto.
Qed.

(** The directory query, whatever its outcome: it runs query commands only,
    leaves the files alone, and fails only with a wrapped system error. *)
Lemma getAllPrinters_run (w : World) (st st' : State)
  (r : Result (list Printer)) :
  getAllPrinters w st = (r, st') ->
  emits is_query st st' /\ files st' = files st
  /\ (forall e, r = Err e ->
        exists f, e = Wrapped (lit "Failed to get printers") (sys_error f)).
Proof.
  unfold getAllPrinters, wrap_errors, try_catch, bind, execAsync, ret, throw.
  destruct (exec_result w (clock st) (lit "lpstat -p -d")) as [pl|f]; simpl.
  - destruct (exec_result w (S (clock st)) (lit "lpstat -v")) as [pd|f];
      simpl; intros E; injection E as <- <-; simpl; (split; [|split]); auto.
    + exists [EvExec (lit "lpstat -p -d"); EvExec (lit "lpstat -v")].
      simpl. now rewrite <- app_assoc.
    + discriminate.
    + exists [EvExec (lit "lpstat -p -d"); EvExec (lit "lpstat -v")].
      simpl. now rewrite <- app_assoc.
    + intros e E. injection E as <-. now exists f.
  - intros E; injection E as <- <-; simpl; (split; [|split]); auto.
    + now exists [EvExec (lit "lpstat -p -d")].
    + intros e E. injection E as <-. now exists f.
Qed.

(** [validateImageFile] in one equation: one access, then the verdict. *)
Lemma validateImageFile_run (w : World) (filePath : str) (st : State) :
  validateImageFile w filePath st
  = (match files st filePath with
     | None =>
         if str_eqb (failure_code (access_refusal w filePath)) (lit "ENOENT")
         then Err (FileNotFound filePath)
         else Err (sys_error (access_refusal w filePath))
     | Some _ =>
         if readable w filePath then
           if existsb (str_eqb (toLowerCase (Path.extname filePath)))
                supportedFormats
           then Ok tt
           else Err (UnsupportedFormat (toLowerCase (Path.extname filePath)))
         else Err (SysError (lit "EACCES")
                     (lit "EACCES: permission denied, access '"
                        ++ filePath ++ lit "'"))
     end,
     log (EvAccess filePath) st).
Proof.
  unfold validateImageFile, try_catch, bind, fs_access, throw, ret.
  destruct (files st filePath);
    [|cbn [sys_error is_ENOENT errno];
      now destruct (str_eqb (failure_code (access_refusal w filePath)) _)].
  destruct (readable w filePath); [|reflexivity].
  destruct (existsb _ supportedFormats); reflexivity.
Qed.

Lemma existsb_str_eqb (x : str) (l : list str) :
  existsb (str_eqb x) l = true <-> In x l.
Proof.
  rewrite existsb_exists. split.
  - intros (y & Hin & E). apply str_eqb_eq in E. now subst.
  - intros H. exists x. split; [exact H | apply str_eqb_refl].
Qed.

(** A path input that fails validation: the error is wrapped, nothing else
    happens. *)
Lemma printImage_rejected (w : World) (printerName p : str)
  (options : PrintOptions) (st st1 : State) (e : error) :
  validateImageFile w p st = (Err e, st1) ->
  printImage w printerName (FromPath p) options st
  = (Err (Wrapped (lit "Failed to print") e), st1).
Proof.
  intros H.
  unfold printImage, tryBlock, stageInput, finally, wrap_errors, try_catch,
    bind.
  cbv beta. rewrite H. reflexivity.
Qed.

(** C1. For a path input, [printImage] runs the access check first and
    looks at the extension second.  A path that names a readable file whose
    lower-cased extension is outside the allow-list fails with the
    unsupported-format error.  A path that names no file fails with the
    file-not-found error exactly when the system rejects the access check
    with the code ENOENT, whatever the extension; when the system rejects
    it with another code (ENOTDIR for a path through a regular file, EACCES
    for a directory that may not be searched), that rejection is the error.
    In each case the failure is wrapped by "Failed to print", and the access
    check is the only thing the call did: no command was issued.  The two
    validation errors arise in no other way. *)
Theorem C1_path_validation (w : World) (printerName p : str)
  (options : PrintOptions) (st : State) :
  let run := printImage w printerName (FromPath p) options st in
  let ext := toLowerCase (Path.extname p) in
  (files st p <> None -> readable w p = true ->
   ~ In ext supportedFormats ->
   run = (Err (Wrapped (lit "Failed to print") (UnsupportedFormat ext)),
          log (EvAccess p) st))
  /\ (files st p = None ->
      failure_code (access_refusal w p) = lit "ENOENT" ->
      run = (Err (Wrapped (lit "Failed to print") (FileNotFound p)),
             log (EvAccess p) st))
  /\ (files st p = None ->
      failure_code (access_refusal w p) <> lit "ENOENT" ->
      run = (Err (Wrapped (lit "Failed to print")
                    (sys_error (access_refusal w p))),
             log (EvAccess p) st))
  /\ (fst run = Err (Wrapped (lit "Failed to print") (FileNotFound p))
      <-> files st p = None
          /\ failure_code (access_refusal w p) = lit "ENOENT")
  /\ (fst run = Err (Wrapped (lit "Failed to print") (UnsupportedFormat ext))
      <-> files st p <> None /\ readable w p = true
          /\ ~ In ext supportedFormats).
Proof.
  intros run ext.
  assert (Hun : files st p <> None -> readable w p = true ->
                ~ In ext supportedFormats ->
                run = (Err (Wrapped (lit "Failed to print")
                              (UnsupportedFormat ext)),
                       log (EvAccess p) st)).
  { intros Hf Hr Hext. apply printImage_rejected.
    rewrite validateImageFile_run.
    destruct (files st p); [|congruence]. rewrite Hr.
    destruct (existsb _ supportedFormats) eqn:E; [|reflexivity].
    apply existsb_str_eqb in E. contradiction. }
  assert (Hnf : files st p = None ->
                failure_code (access_refusal w p) = lit "ENOENT" ->
                run = (Err (Wrapped (lit "Failed to print") (FileNotFound p)),
                       log (EvAccess p) st)).
  { intros Hf Hc. apply printImage_rejected.
    rewrite validateImageFile_run, Hf, Hc. now rewrite str_eqb_refl. }
  assert (Hraw : files st p = None ->
                 failure_code (access_refusal w p) <> lit "ENOENT" ->
                 run = (Err (Wrapped (lit "Failed to print")
                               (sys_error (access_refusal w p))),
                        log (EvAccess p) st)).
  { intros Hf Hc. apply printImage_rejected.
    rewrite validateImageFile_run, Hf.
    apply str_eqb_neq in Hc. now rewrite Hc. }
  split; [exact Hun|]. split; [exact Hnf|]. split; [exact Hraw|].
  assert (Hcases :
            (files st p = None
             /\ failure_code (access_refusal w p) = lit "ENOENT")
            \/ (files st p = None
                /\ failure_code (access_refusal w p) <> lit "ENOENT")
            \/ (files st p <> None /\ readable w p = true
                /\ ~ In ext supportedFormats)
            \/ (files st p <> None
                /\ (readable w p = false \/ In ext supportedFormats))).
  { destruct (files st p) as [b|] eqn:Hf.
    - right. right. destruct (readable w p) eqn:Hr.
      + destruct (existsb (str_eqb ext) supportedFormats) eqn:E.
        * right. split; [discriminate|]. right.
          now apply existsb_str_eqb.
        * left. split; [discriminate|]. split; [reflexivity|].
          intros H. apply existsb_str_eqb in H. congruence.
      + right. split; [discriminate|]. now left.
    - destruct (str_eqb (failure_code (access_refusal w p)) (lit "ENOENT"))
        eqn:E.
      + left. split; [reflexivity|]. now apply str_eqb_eq.
      + right. left. split; [reflexivity|]. now apply str_eqb_neq. }
  assert (Hother :
            files st p <> None ->
            readable w p = false \/ In ext supportedFormats ->
            forall e, fst run = Err (Wrapped (lit "Failed to print") e) ->
                      is_validation_error e = false).
  { intros Hf Hor e. subst run.
    unfold printImage, tryBlock, stageInput, finally, wrap_errors, try_catch,
      bind, throw, ret.
    cbv beta. rewrite validateImageFile_run.
    destruct (files st p) as [b|]; [clear Hf|congruence].
    destruct (readable w p) eqn:Hr.
    - destruct Hor as [Hor|Hor]; [discriminate|].
      apply existsb_str_eqb in Hor. fold ext. rewrite Hor.
      destruct (getAllPrinters w (log (EvAccess p) st)) as [[ps|e0] st2] eqn:G.
      + destruct (find _ ps).
        * unfold execAsync.
          destruct (exec_result w (clock st2) _); simpl; intros E;
            [discriminate | now injection E as <-].
        * simpl. intros E. now injection E as <-.
      + apply getAllPrinters_run in G as (_ & _ & G).
        destruct (G e0 eq_refl) as (f & ->).
        simpl. intros E. now injection E as <-.
    - simpl. intros E. now injection E as <-. }
  split.
  - split.
    + intros H.
      destruct Hcases as [C | [[Hf Hc] | [(Hf & Hr & Hx) | [Hf Hor]]]].
      * exact C.
      * rewrite (Hraw Hf Hc) in H. discriminate.
      * rewrite (Hun Hf Hr Hx) in H. discriminate.
      * apply (Hother Hf Hor) in H. discriminate.
    + intros [Hf Hc]. now rewrite (Hnf Hf Hc).
  - split.
    + intros H.
      destruct Hcases as [[Hf Hc] | [[Hf Hc] | [C | [Hf Hor]]]].
      * rewrite (Hnf Hf Hc) in H. discriminate.
      * rewrite (Hraw Hf Hc) in H. discriminate.
      * exact C.
      * apply (Hother Hf Hor) in H. discriminate.
    + intros (Hf & Hr & Hx). now rewrite (Hun Hf Hr Hx).
Qed.

Lemma C1_witness :
  printImage sample_world (lit "Canon_TS3300") (FromPath existing_bmp)
    no_options (state_with existing_bmp)
  = (Err (Wrapped (lit "Failed to print") (UnsupportedFormat (lit ".bmp"))),
     log (EvAccess existing_bmp) (state_with existing_bmp))
  /\ printImage sample_world (lit "Canon_TS3300") (FromPath sample_path)
       no_options init_state
     = (Err (Wrapped (lit "Failed to print") (FileNotFound sample_path)),
        log (EvAccess sample_path) init_state)
  /\ printImage nested_world (lit "Canon_TS3300") (FromPath nested_path)
       no_options (state_with sample_path)
     = (Err (Wrapped (lit "Failed to print")
               (sys_error (not_a_directory nested_path))),
        log (EvAccess nested_path) (state_with sample_path)).
Proof.
  split; [|split].
  - apply (proj1 (C1_path_validation sample_world (lit "Canon_TS3300")
                    existing_bmp no_options (state_with existing_bmp))).
    + vm_compute. discriminate.
    + reflexivity.
    + vm_compute. intros H.
      repeat (destruct H as [H|H]; [discriminate H|]). exact H.
  - apply (proj1 (proj2 (C1_path_validation sample_world (lit "Canon_TS3300")
                           sample_path no_options init_state))).
    + reflexivity.
    + reflexivity.
  - apply (proj1 (proj2 (proj2 (C1_path_validation nested_world
                                  (lit "Canon_TS3300") nested_path no_options
                                  (state_with sample_path))))).
    + reflexivity.
    + vm_compute. discriminate.
Defined.

(** C1 does not hold as stated, on either side.  The extension [.bmp] is
    outside the allow-list, yet a path with this extension that names no
    file fails with file-not-found, not with unsupported-format.  And a
    path with the extension [.png] that does not exist, because it runs
    through the regular file [sample_path], fails with the rejection of the
    access check, ENOTDIR, not with file-not-found. *)
Lemma C1_counterexample :
  (~ In (toLowerCase (Path.extname missing_bmp)) supportedFormats
   /\ fst (printImage sample_world (lit "Canon_TS3300") (FromPath missing_bmp)
             no_options init_state)
      = Err (Wrapped (lit "Failed to print") (FileNotFound missing_bmp))
   /\ fst (printImage sample_world (lit "Canon_TS3300") (FromPath missing_bmp)
             no_options init_state)
      <> Err (Wrapped (lit "Failed to print")
                (UnsupportedFormat (toLowerCase (Path.extname missing_bmp)))))
  /\ (In (toLowerCase (Path.extname nested_path)) supportedFormats
      /\ files (state_with sample_path) nested_path = None
      /\ message_of
           (fst (printImage nested_world (lit "Canon_TS3300")
                   (FromPath nested_path) no_options (state_with sample_path)))
         = Some (lit "Failed to print: ENOTDIR: not a directory, access '"
                   ++ nested_path ++ lit "'")
      /\ fst (printImage nested_world (lit "Canon_TS3300")
                (FromPath nested_path) no_options (state_with sample_path))
         <> Err (Wrapped (lit "Failed to print") (FileNotFound nested_path))).
Proof.
  split; [split; [|split] | split; [|split; [|split]]].
  - vm_compute. intros H.
    repeat (destruct H as [H|H]; [discriminate H|]). exact H.
  - reflexivity.
  - vm_compute. discriminate.
  - vm_compute. auto.
  - reflexivity.
  - reflexivity.
  - vm_compute. discriminate.
Qed.

(* ===================================================================== *)
(** ** Submission *)
(* ===================================================================== *)

Lemma stageInput_trace (w : World) (input : image_input) (st st1 : State)
  (r : Result str) :
  stageInput w input st = (r, st1) ->
  trace st1
  = trace st ++ [match input with
                 | FromPath p => EvAccess p
                 | FromBuffer _ => EvWriteFile (tempPath w)
                 end].
Proof.
  destruct input as [p|bytes]; unfold stageInput, bind; cbv beta.
  - rewrite validateImageFile_run.
    destruct (match files st p with Some _ => _ | None => _ end);
      intros E; injection E as _ <-; reflexivity.
  - unfold fs_writeFile. destruct (write_failure w (tempPath w));
      intros E; injection E as _ <-; reflexivity.
Qed.

(** The events of the [finally] block. *)
Lemma cleanup_trace (w : World) (t : option str) (st : State) :
  exists evs,
    trace (cleanup w t st) = trace st ++ evs
    /\ (evs = []
        \/ (exists p, t = Some p
                      /\ (evs = [EvUnlink p]
                          \/ evs = [EvUnlink p; cleanup_warning p]))).
Proof.
  destruct t as [p|]; simpl.
  - unfold fs_unlink. destruct (files st p).
    + destruct (unlink_failure w p); simpl.
      * exists [EvUnlink p; cleanup_warning p]. rewrite <- app_assoc. eauto 6.
      * exists [EvUnlink p]. eauto 6.
    + exists [EvUnlink p; cleanup_warning p]. simpl. rewrite <- app_assoc.
      eauto 6.
  - exists []. rewrite app_nil_r. auto.
Qed.

Lemma cleanup_emits (P : event -> bool) (w : World) (t : option str)
  (st : State) :
  (forall p, P (EvUnlink p) = true) -> (forall m, P (EvWarn m) = true) ->
  emits P st (cleanup w t st).
Proof.
  intros Hu Hw. destruct (cleanup_trace w t st) as (evs & H & C).
  exists evs. split; [exact H|].
  destruct C as [-> | (p & _ & [-> | ->])]; simpl;
    unfold cleanup_warning; now rewrite ?Hu, ?Hw.
Qed.

(** A submission to a printer the directory does not list. *)
Lemma printImage_unknown_printer (w : World) (printerName : str)
  (input : image_input) (options : PrintOptions) (st st1 st2 : State)
  (imagePath : str) (printers : list Printer) :
  stageInput w input st = (Ok imagePath, st1) ->
  getAllPrinters w st1 = (Ok printers, st2) ->
  (forall p, In p printers -> name p <> printerName) ->
  printImage w printerName input options st
  = (Err (Wrapped (lit "Failed to print") (PrinterNotFound printerName)),
     cleanup w match input with
               | FromBuffer _ => Some (tempPath w)
               | FromPath _ => None
               end st2).
Proof.
  intros H1 H2 H3.
  unfold printImage, tryBlock, finally, wrap_errors, try_catch, bind. cbv beta.
  rewrite H1, H2, find_absent; [reflexivity|].
  intros p Hin. apply str_eqb_neq. auto.
Qed.

(** C2. When the directory query made inside [printImage] returns a list
    in which no record carries the requested name, the call fails with
    "Failed to print: Printer not found: <name>", and nothing the call did
    is a submission command. *)
Theorem C2_printer_not_found (w : World) (printerName : str)
  (input : image_input) (options : PrintOptions) (st st1 st2 : State)
  (imagePath : str) (printers : list Printer) :
  stageInput w input st = (Ok imagePath, st1) ->
  getAllPrinters w st1 = (Ok printers, st2) ->
  (forall p, In p printers -> name p <> printerName) ->
  fst (printImage w printerName input options st)
  = Err (Wrapped (lit "Failed to print") (PrinterNotFound printerName))
  /\ message (Wrapped (lit "Failed to print") (PrinterNotFound printerName))
     = lit "Failed to print: Printer not found: " ++ printerName
  /\ emits (fun e => negb (is_submission e)) st
       (snd (printImage w printerName input options st)).
Proof.
  intros H1 H2 H3.
  rewrite (@printImage_unknown_printer w printerName input options st st1
             st2 imagePath printers H1 H2 H3). simpl.
  split; [reflexivity | split; [reflexivity|]].
  apply emits_trans with st1.
  { exists [match input with
            | FromPath p => EvAccess p
            | FromBuffer _ => EvWriteFile (tempPath w)
            end].
    split; [eapply stageInput_trace; eauto|]. now destruct input. }
  apply emits_trans with st2.
  { apply getAllPrinters_ok in H2 as (pl & pd & _ & _ & _ & ->). simpl.
    exists [EvExec (lit "lpstat -p -d"); EvExec (lit "lpstat -v")]. auto. }
  apply cleanup_emits; reflexivity.
Qed.

Lemma C2_witness :
  fst (printImage sample_world (lit "Brother_QL") (FromPath sample_path)
         no_options (state_with sample_path))
  = Err (Wrapped (lit "Failed to print") (PrinterNotFound (lit "Brother_QL"))).
Proof.
  pose (st1 := snd (stageInput sample_world (FromPath sample_path)
                      (state_with sample_path))).
  pose (st2 := snd (getAllPrinters sample_world st1)).
  apply (@C2_printer_not_found sample_world (lit "Brother_QL")
           (FromPath sample_path) no_options (state_with sample_path)
           st1 st2 sample_path (parsePrinters sample_list sample_devices)).
  - vm_compute. reflexivity.
  - vm_compute. reflexivity.
  - intros p [<- | [<- | []]]; vm_compute; discriminate.
Defined.

(* ===================================================================== *)
(** ** The staging path *)
(* ===================================================================== *)

Lemma join_snoc (sep : str) (l : list str) (x : str) :
  exists pre, join sep (l ++ [x]) = pre ++ x.
Proof.
  induction l as [|y l (pre & IH)]; simpl.
  - now exists [].
  - destruct (l ++ [x]) eqn:E.
    + destruct l; discriminate.
    + rewrite IH. exists (y ++ sep ++ pre). now rewrite <- !app_assoc.
Qed.

Lemma ends_with_slash_free (a nm : str) :
  nm <> [] -> ~ In Path.slash nm -> Path.ends_with_slash (a ++ nm) = false.
Proof.
  intros Hne Hs. unfold Path.ends_with_slash. rewrite rev_app_distr.
  destruct (rev nm) as [|c t] eqn:E.
  - apply (f_equal (@rev ascii)) in E. rewrite rev_involutive in E.
    simpl in E. contradiction.
  - simpl. unfold Path.is_slash. apply Ascii.eqb_neq. intros ->.
    apply Hs. apply in_rev. rewrite E. now left.
Qed.

Lemma normalize_keeps_name (a nm : str) (segs : list str) :
  nm <> [] -> ~ In Path.slash nm ->
  nm <> [Path.dot] -> nm <> [Path.dot; Path.dot] ->
  split_on Path.slash (a ++ nm) = segs ++ [nm] ->
  exists pre, Path.normalize (a ++ nm) = pre ++ nm.
Proof.
  intros Hne Hs Hd Hdd Hsplit.
  assert (Hstep : forall allow stack,
             Path.norm_step allow stack nm = nm :: stack).
  { intros allow stack. unfold Path.norm_step.
    apply str_eqb_neq in Hne, Hd, Hdd. now rewrite Hne, Hd, Hdd. }
  pose proof (@ends_with_slash_free a nm Hne Hs) as Hend.
  unfold Path.normalize.
  destruct (a ++ nm) as [|c t] eqn:Ep.
  { destruct a; [simpl in Ep; congruence | discriminate]. }
  rewrite Hsplit, Hend, fold_left_app. simpl. rewrite Hstep. simpl.
  destruct (join_snoc [Path.slash]
              (rev (fold_left (Path.norm_step (negb (Path.is_slash c)))
                      segs [])) nm) as (pre & Hb).
  rewrite Hb.
  destruct (pre ++ nm) eqn:Epn.
  { destruct pre; [simpl in Epn; congruence | discriminate]. }
  rewrite <- Epn, app_nil_r.
  exists ((if Path.is_slash c then [Path.slash] else []) ++ pre).
  now rewrite <- app_assoc.
Qed.

(** A plain file name survives [path.join] as the end of the result. *)
Lemma path_join_keeps_name (dir nm : str) :
  nm <> [] -> ~ In Path.slash nm ->
  nm <> [Path.dot] -> nm <> [Path.dot; Path.dot] ->
  exists pre, Path.path_join dir nm = pre ++ nm.
Proof.
  intros Hne Hs Hd Hdd.
  unfold Path.path_join. simpl.
  apply str_eqb_neq in Hne as Hne'. rewrite Hne'. simpl.
  destruct (str_eqb dir []) eqn:Edir; simpl.
  - assert (E : exists pre, Path.normalize ([] ++ nm) = pre ++ nm).
    { apply normalize_keeps_name with (segs := []); auto.
      simpl. now apply split_on_absent. }
    simpl in E. destruct nm; [congruence | exact E].
  - assert (E : exists pre,
               Path.normalize ((dir ++ [Path.slash]) ++ nm) = pre ++ nm).
    { apply normalize_keeps_name with (segs := split_on Path.slash dir); auto.
      rewrite <- app_assoc. simpl.
      now rewrite split_on_app, (@split_on_absent Path.slash nm Hs). }
    rewrite <- app_assoc in E.
    destruct dir; [discriminate | exact E].
Qed.

Lemma digit_not_slash (c : ascii) : is_digit c = true -> c <> Path.slash.
Proof. intros H ->. discriminate. Qed.

(** The text of a number holds no slash. *)
Lemma number_toString_chars (x : number) : ~ In Path.slash (number_toString x).
Proof.
  assert (Hs : forall l, In Path.slash l ->
                         (forall c, In c l -> is_digit c = true) -> False).
  { intros l Hin Hl. now apply Hl in Hin. }
  assert (Hsig : forall s l, (forall c, In c l -> In c (significant s)) ->
                             ~ In Path.slash l).
  { intros s l Hl Hin. apply Hl, significant_chars in Hin. discriminate. }
  assert (Hneg : forall b : bool,
             ~ In Path.slash (if b then lit "-" else [])).
  { intros [|]; vm_compute; intuition discriminate. }
  destruct x as [|neg|neg|neg s n]; simpl.
  - vm_compute. intuition discriminate.
  - rewrite in_app_iff. intros [H | H]; [now apply Hneg in H|].
    vm_compute in H. intuition discriminate.
  - vm_compute. intuition discriminate.
  - rewrite in_app_iff. intros [H | H]; [now apply Hneg in H|].
    revert H. set (ds := significant s).
    assert (Hds : ~ In Path.slash ds).
    { apply (Hsig s). auto. }
    assert (Hrep : forall k, ~ In Path.slash (repeat zero_digit k)).
    { intros k H. apply repeat_spec in H. discriminate. }
    assert (Hexp : forall b : bool,
               ~ In Path.slash
                   (lit "e" ++ (if b then lit "-" else lit "+")
                      ++ lit (NilZero.string_of_uint
                                (N.to_uint (Z.to_N (Z.abs (n - 1))))))).
    { intros b H. rewrite !in_app_iff in H. destruct H as [H | [H | H]].
      - vm_compute in H. intuition discriminate.
      - destruct b; vm_compute in H; intuition discriminate.
      - apply digits_chars in H. discriminate. }
    destruct ((-5 <=? n)%Z && (n <=? 21)%Z).
    + destruct (Z.of_nat (List.length ds) <=? n)%Z.
      * rewrite in_app_iff. intros [H | H]; [now apply Hds | now apply Hrep in H].
      * destruct (0 <? n)%Z.
        -- rewrite !in_app_iff. intros [H | [H | H]].
           ++ apply Hds. eapply in_firstn; exact H.
           ++ vm_compute in H. intuition discriminate.
           ++ apply Hds. eapply in_skipn; exact H.
        -- intros [H | [H | H]]; try discriminate.
           apply in_app_iff in H as [H | H]; [now apply Hrep in H|].
           now apply Hds.
    + destruct ds as [|d [|d' rest]].
      * apply Hexp.
      * intros [H | H]; [apply Hds; now left | now apply Hexp in H].
      * simpl. intros [H | [H | [H | H]]];
          [apply Hds; now left | discriminate | apply Hds; right; now left |].
        apply in_app_iff in H as [H | H]; [|now apply Hexp in H].
        apply Hds. right. right. exact H.
Qed.

Lemma digit36_not_slash (d : nat) : digit36 d <> Path.slash.
Proof.
  unfold digit36. pose proof (Nat.mod_upper_bound d 36) as Hk.
  set (k := d mod 36) in *. assert (Hlt : k < 36) by lia. clear Hk.
  do 36 (destruct k as [|k]; [vm_compute; discriminate|]). lia.
Qed.

Lemma randomId_chars (w : World) :
  ~ In Path.slash (skipn 7 (random_toString36 w)).
Proof.
  intros H. apply in_skipn in H. revert H.
  unfold random_toString36. destruct (random_digits w) as [|d ds].
  - vm_compute. intuition discriminate.
  - change (lit "0.") with ["0"%char; "."%char]. simpl.
    intros [H | [H | [H | H]]]; try discriminate.
    + now apply digit36_not_slash in H.
    + apply in_map_iff in H as (x & Hx & _).
      now apply digit36_not_slash in Hx.
Qed.

(** The name given to the staging file. *)
Lemma tempName_plain (w : World) :
  let nm := lit "print-temp-" ++ number_toString (now w) ++ lit "-"
              ++ skipn 7 (random_toString36 w) ++ lit ".png" in
  nm <> [] /\ ~ In Path.slash nm
  /\ nm <> [Path.dot] /\ nm <> [Path.dot; Path.dot].
Proof.
  intros nm. subst nm.
  set (rest := number_toString (now w) ++ lit "-"
                 ++ skipn 7 (random_toString36 w) ++ lit ".png").
  change (lit "print-temp-" ++ rest)
    with ("p"%char :: lit "rint-temp-" ++ rest).
  repeat split; try discriminate.
  intros [H | H]; [discriminate|].
  apply in_app_or in H. destruct H as [H | H].
  { vm_compute in H. intuition discriminate. }
  unfold rest in H. rewrite !in_app_iff in H.
  destruct H as [H | [H | [H | H]]].
  - now apply number_toString_chars in H.
  - vm_compute in H. intuition discriminate.
  - now apply randomId_chars in H.
  - vm_compute in H. intuition discriminate.
Qed.

Lemma endsWith_app (x suffix : str) : endsWith suffix (x ++ suffix) = true.
Proof.
  unfold endsWith. rewrite rev_app_distr. apply startsWith_app.
Qed.

(** The staging path ends in ".png". *)
Lemma tempPath_png (w : World) : endsWith (lit ".png") (tempPath w) = true.
Proof.
  destruct (tempName_plain w) as (H1 & H2 & H3 & H4).
  destruct (@path_join_keeps_name (tmpdir w) _ H1 H2 H3 H4) as (pre & E).
  unfold tempPath. rewrite E, !app_assoc. apply endsWith_app.
Qed.

(* ===================================================================== *)
(** ** Buffers: staging and cleanup *)
(* ===================================================================== *)

Lemma is_query_exec (e : event) : is_query e = true -> is_exec e = true.
Proof. destruct e; simpl; congruence. Qed.

(** The [try] block on a buffer: one write, then commands only; the files
    change by the write alone; no error is a validation error. *)
Lemma tryBlock_buffer (w : World) (printerName : str)
  (bytes : list Byte.byte) (options : PrintOptions) (st st' : State)
  (r : Result str) :
  tryBlock w printerName (FromBuffer bytes) options st = (r, st') ->
  (exists mid,
      trace st' = trace st ++ EvWriteFile (tempPath w) :: mid
      /\ forallb is_exec mid = true
      /\ (write_failure w (tempPath w) <> None -> mid = []))
  /\ files st'
     = match write_failure w (tempPath w) with
       | None => fun q => if str_eqb q (tempPath w) then Some bytes
                          else files st q
       | Some _ => files st
       end
  /\ (forall e, r = Err e ->
        exists c, e = Wrapped (lit "Failed to print") c
                  /\ is_validation_error c = false).
Proof.
  unfold tryBlock, stageInput, wrap_errors, try_catch, bind, fs_writeFile.
  cbv beta.
  destruct (write_failure w (tempPath w)) as [f|] eqn:Hw.
  - unfold throw. intros E. injection E as <- <-. simpl.
    split; [|split]; auto.
    + exists []. auto.
    + intros e E. injection E as <-. eauto.
  - unfold ret at 1. cbv beta iota.
    match goal with
    | |- context [getAllPrinters w ?s] =>
        set (st1 := s); destruct (getAllPrinters w st1) as [r1 st2] eqn:G
    end.
    apply getAllPrinters_run in G as ((evs & Ht & Hq) & Hf & He).
    assert (Hx : forallb is_exec evs = true).
    { rewrite forallb_forall in *. auto using is_query_exec. }
    assert (Ht1 : trace st2 = trace st ++ EvWriteFile (tempPath w) :: evs).
    { rewrite Ht. unfold st1. simpl. now rewrite <- app_assoc. }
    destruct r1 as [ps|e1].
    + destruct (find _ ps).
      * unfold execAsync, ret.
        destruct (exec_result w (clock st2) _) as [out|f];
          intros E; injection E as <- <-; simpl; (split; [|split]);
          try (rewrite Hf; reflexivity);
          try (intros e E; first [discriminate | injection E as <-; eauto]).
        -- exists (evs ++ [EvExec (buildPrintCommand printerName (tempPath w)
                                     options)]).
           rewrite Ht1, <- app_assoc, forallb_app, Hx. simpl.
           repeat split; congruence.
        -- exists (evs ++ [EvExec (buildPrintCommand printerName (tempPath w)
                                     options)]).
           rewrite Ht1, <- app_assoc, forallb_app, Hx. simpl.
           repeat split; congruence.
      * unfold throw. intros E. injection E as <- <-.
        split; [|split]; auto.
        -- exists evs. repeat split; auto; congruence.
        -- intros e E. injection E as <-. eauto.
    + unfold throw. intros E. injection E as <- <-.
      split; [|split]; auto.
      * exists evs. repeat split; auto; congruence.
      * intros e E. injection E as <-.
        destruct (He e1 eq_refl) as (f & ->). eauto.
Qed.

(** The [finally] block on a staging path [p]: one unlink; the file is
    gone unless the system refuses; a refusal is only logged. *)
Lemma cleanup_run (w : World) (p : str) (st : State) :
  (exists tail,
      trace (cleanup w (Some p) st) = trace st ++ EvUnlink p :: tail
      /\ (tail = [] \/ tail = [cleanup_warning p])
      /\ (files st p <> None -> unlink_failure w p <> None ->
          tail = [cleanup_warning p]))
  /\ (unlink_failure w p = None -> files (cleanup w (Some p) st) p = None)
  /\ (unlink_failure w p <> None ->
      files (cleanup w (Some p) st) = files st).
Proof.
  unfold cleanup, fs_unlink.
  destruct (files st p) as [data|] eqn:Hf.
  - destruct (unlink_failure w p) as [f|] eqn:Hu; simpl.
    + split; [|split]; try congruence.
      exists [cleanup_warning p]. rewrite <- app_assoc. auto.
    + split; [|split]; try congruence.
      * exists []. repeat split; auto. congruence.
      * intros _. now rewrite str_eqb_refl.
  - simpl. split; [|split]; auto.
    exists [cleanup_warning p]. rewrite <- app_assoc. auto.
Qed.

(** Neither the [try] block nor its result looks at what unlink would do. *)
Lemma tryBlock_unlink_allowed (w : World) (printerName : str)
  (input : image_input) (options : PrintOptions) (st : State) :
  tryBlock (unlink_allowed w) printerName input options st
  = tryBlock w printerName input options st.
Proof. destruct input; reflexivity. Qed.

Lemma printImage_result (w : World) (printerName : str)
  (input : image_input) (options : PrintOptions) (st : State) :
  fst (printImage w printerName input options st)
  = fst (tryBlock w printerName input options st).
Proof.
  unfold printImage, finally.
  now destruct (tryBlock w printerName input options st).
Qed.

(** C3. For a buffer input, [printImage] writes the buffer to a
    staging path under the temporary directory, named "print-temp-", the
    time stamp, a dash, the random suffix and ".png", before it runs any
    command (and runs none when the write fails); once the [try] block is
    over, by success or by any failure, it attempts one unlink of that
    path.  When the system does not refuse the unlink, the file does not
    exist after the call.  When it refuses, the refusal is logged as a
    warning and never raised: the result of the call is what it would be
    otherwise, and a file that was written is still there. *)
Theorem C3_temp_file_lifetime (w : World) (printerName : str)
  (bytes : list Byte.byte) (options : PrintOptions) (st : State) :
  let p := tempPath w in
  let run := printImage w printerName (FromBuffer bytes) options st in
  (p = Path.path_join (tmpdir w)
         (lit "print-temp-" ++ number_toString (now w) ++ lit "-"
            ++ skipn 7 (random_toString36 w) ++ lit ".png")
   /\ endsWith (lit ".png") p = true)
  /\ (exists mid tail,
         trace (snd run)
         = trace st ++ [EvWriteFile p] ++ mid ++ [EvUnlink p] ++ tail
         /\ forallb is_exec mid = true
         /\ (write_failure w p <> None -> mid = [])
         /\ (tail = [] \/ tail = [cleanup_warning p]))
  /\ (unlink_failure w p = None -> files (snd run) p = None)
  /\ (write_failure w p = None -> unlink_failure w p <> None ->
      files (snd run) p = Some bytes
      /\ exists before, trace (snd run) = before ++ [cleanup_warning p])
  /\ fst run
     = fst (printImage (unlink_allowed w) printerName (FromBuffer bytes)
              options st).
Proof.
  intros p run.
  split; [split; [reflexivity | apply tempPath_png]|].
  assert (Hres : fst run
                 = fst (printImage (unlink_allowed w) printerName
                          (FromBuffer bytes) options st)).
  { unfold run. now rewrite !printImage_result, tryBlock_unlink_allowed. }
  subst run p. unfold printImage, finally in *.
  destruct (tryBlock w printerName (FromBuffer bytes) options st)
    as [r st1] eqn:T.
  apply tryBlock_buffer in T as ((mid & Ht & Hx & Hm) & Hf & _).
  destruct (cleanup_run w (tempPath w) st1)
    as ((tail & Hc & Htail & Hwarn) & Hgone & Hkept).
  cbn [snd].
  assert (Hwritten : write_failure w (tempPath w) = None ->
                     files st1 (tempPath w) = Some bytes).
  { intros Hw. rewrite Hf, Hw. now rewrite str_eqb_refl. }
  split; [|split; [|split]].
  - exists mid, tail. rewrite Hc, Ht. simpl. rewrite <- !app_assoc. simpl.
    auto.
  - exact Hgone.
  - intros Hw Hu. rewrite (Hkept Hu). split; [auto|].
    exists (trace st1 ++ [EvUnlink (tempPath w)]). rewrite Hc.
    rewrite Hwarn; [now rewrite <- app_assoc| |exact Hu].
    rewrite (Hwritten Hw). discriminate.
  - exact Hres.
Qed.

Lemma C3_witness :
  files (snd (printImage sample_world (lit "Canon_TS3300")
                (FromBuffer [Byte.x89; Byte.x50; Byte.x4e; Byte.x47])
                no_options init_state))
    (tempPath sample_world) = None
  /\ fst (printImage sample_world (lit "Canon_TS3300")
            (FromBuffer [Byte.x89; Byte.x50; Byte.x4e; Byte.x47])
            no_options init_state) = Ok (lit "42").
Proof.
  split; [|reflexivity].
  apply (C3_temp_file_lifetime sample_world (lit "Canon_TS3300")
           [Byte.x89; Byte.x50; Byte.x4e; Byte.x47] no_options init_state).
  reflexivity.
Defined.

(** C3 does not hold when the unlink is refused: the print succeeds, and
    the staging file, absent before the call, is still there after it. *)
Lemma C3_counterexample :
  let run := printImage world_unlink_denied (lit "Canon_TS3300")
               (FromBuffer [Byte.x89; Byte.x50; Byte.x4e; Byte.x47])
               no_options init_state in
  fst run = Ok (lit "42")
  /\ files init_state (tempPath world_unlink_denied) = None
  /\ files (snd run) (tempPath world_unlink_denied)
     = Some [Byte.x89; Byte.x50; Byte.x4e; Byte.x47].
Proof. vm_compute. repeat split. Qed.

(** C10. For a buffer input, [printImage] performs no access check (the
    one effect of [validateImageFile]), the staging path ends in ".png",
    and a failure of the call is never one of the two validation errors. *)
Theorem C10_buffer_skips_validation (w : World) (printerName : str)
  (bytes : list Byte.byte) (options : PrintOptions) (st : State) :
  let run := printImage w printerName (FromBuffer bytes) options st in
  emits (fun e => negb (is_access e)) st (snd run)
  /\ endsWith (lit ".png") (tempPath w) = true
  /\ (forall e, fst run = Err e ->
        exists c, e = Wrapped (lit "Failed to print") c
                  /\ is_validation_error c = false
                  /\ (forall x, c <> UnsupportedFormat x)
                  /\ (forall x, c <> FileNotFound x)).
Proof.
  intros run. unfold run, printImage, finally.
  destruct (tryBlock w printerName (FromBuffer bytes) options st)
    as [r st1] eqn:T.
  apply tryBlock_buffer in T as ((mid & Ht & Hx & _) & _ & He).
  cbn [fst snd]. split; [|split].
  - apply emits_trans with st1.
    + exists (EvWriteFile (tempPath w) :: mid). split; [exact Ht|].
      simpl. rewrite forallb_forall in *. intros e Hin.
      apply Hx in Hin. now destruct e.
    + apply cleanup_emits; reflexivity.
  - apply tempPath_png.
  - intros e E. destruct (He e E) as (c & -> & Hc).
    exists c. repeat split; auto; intros x ->; discriminate.
Qed.

(* ===================================================================== *)
(** ** Printing to the default printer *)
(* ===================================================================== *)

Lemma find_first {A} (f : A -> bool) (before after : list A) (d : A) :
  f d = true -> (forall q, In q before -> f q = false) ->
  find f (before ++ d :: after) = Some d.
Proof.
  intros Hd Hb. induction before as [|x before IH]; simpl.
  - now rewrite Hd.
  - rewrite (Hb x) by now left. apply IH. intros q Hq. apply Hb. now right.
Qed.

Lemma find_present {A} (f : A -> bool) (l : list A) (x : A) :
  In x l -> f x = true -> exists d, find f l = Some d /\ f d = true.
Proof.
  intros Hin Hx. destruct (find f l) as [d|] eqn:E.
  - exists d. split; [reflexivity|]. now apply find_some in E.
  - eapply find_none in E; [|exact Hin]. congruence.
Qed.

(** The flag of a record says whether the default line names it. *)
Lemma isDefault_named (w : World) (st st' : State) (ps : list Printer)
  (printerList P : str) (r : Printer) :
  getAllPrinters w st = (Ok ps, st') ->
  exec_result w (clock st) (lit "lpstat -p -d") = inl printerList ->
  re_match re_default printerList = Some [P] ->
  In r ps -> (isDefault r = true <-> name r = P).
Proof.
  intros H Hl HP Hin.
  apply getAllPrinters_ok in H as (pl & pd & Hpl & _ & -> & _).
  rewrite Hl in Hpl. injection Hpl as <-.
  apply defaultPrinter_named in HP.
  apply parsePrinters_In in Hin as (line & _ & Hr).
  apply parseLine_fields in Hr as (_ & Hd & _).
  rewrite Hd, HP. apply str_eqb_eq.
Qed.

Lemma printToUSB_run (w : World) (input : image_input)
  (options : PrintOptions) (st st1 : State) (printers : list Printer) :
  getAllPrinters w st = (Ok printers, st1) ->
  printToUSB w input options st
  = match choosePrinter printers with
    | None => (Err NoPrintersFound, st1)
    | Some printer =>
        let '(r, st2) := printImage w (name printer) input options st1 in
        (match r with
         | Ok jobId => Ok (name printer, jobId)
         | Err e => Err e
         end, st2)
    end.
Proof.
  intros H. unfold printToUSB, bind. rewrite H.
  destruct printers as [|p0 ps]; [reflexivity|].
  change (List.length (p0 :: ps) =? 0) with false. cbv iota.
  destruct (choosePrinter (p0 :: ps)) as [printer|]; [|reflexivity].
  cbv beta. destruct (printImage w (name printer) input options st1) as [r st2].
  destruct r; reflexivity.
Qed.

(** C6. [printToUSB] queries the directory.  An empty list makes it fail
    with "No printers found".  Otherwise it chooses the first record whose
    [isDefault] flag is set, or the first record of the list when no flag is
    set, and its outcome is that of [printImage] on the chosen name, paired
    with that name.  Hence, when the default line of the report names a
    listed printer, that printer is chosen wherever it stands in the list;
    with "Canon_TS3300" as default destination and listed second, the job
    goes to "Canon_TS3300". *)
Theorem C6_print_to_default (w : World) (input : image_input)
  (options : PrintOptions) (st st1 : State) (printers : list Printer) :
  getAllPrinters w st = (Ok printers, st1) ->
  (printers = [] ->
   printToUSB w input options st = (Err NoPrintersFound, st1)
   /\ message NoPrintersFound = lit "No printers found")
  /\ (forall before d after,
         printers = before ++ d :: after -> isDefault d = true ->
         (forall q, In q before -> isDefault q = false) ->
         choosePrinter printers = Some d)
  /\ ((forall q, In q printers -> isDefault q = false) ->
      choosePrinter printers = hd_error printers)
  /\ (forall printer,
         choosePrinter printers = Some printer ->
         printToUSB w input options st
         = (match fst (printImage w (name printer) input options st1) with
            | Ok jobId => Ok (name printer, jobId)
            | Err e => Err e
            end,
            snd (printImage w (name printer) input options st1)))
  /\ (forall printerList P r,
         exec_result w (clock st) (lit "lpstat -p -d") = inl printerList ->
         re_match re_default printerList = Some [P] ->
         In r printers -> name r = P ->
         exists d, choosePrinter printers = Some d /\ name d = P)
  /\ (let run := printToUSB sample_world (FromPath sample_path) no_options
                   (state_with sample_path) in
      map name (parsePrinters sample_list sample_devices)
      = [lit "HP_LaserJet"; lit "Canon_TS3300"]
      /\ fst run = Ok (lit "Canon_TS3300", lit "42")
      /\ filter is_submission (trace (snd run))
         = [EvExec (buildPrintCommand (lit "Canon_TS3300") sample_path
                      no_options)]).
Proof.
  intros H. refine (conj _ (conj _ (conj _ (conj _ (conj _ _))))).
  - intros ->. rewrite (@printToUSB_run w input options st st1 [] H).
    split; reflexivity.
  - intros before d after -> Hd Hb. unfold choosePrinter.
    now rewrite find_first.
  - intros Hn. unfold choosePrinter. now rewrite find_absent.
  - intros printer Hc.
    rewrite (@printToUSB_run w input options st st1 printers H), Hc.
    now destruct (printImage w (name printer) input options st1).
  - intros pl P r Hl HP Hin Hr.
    assert (Hd : isDefault r = true).
    { eapply isDefault_named; eauto. }
    destruct (@find_present _ isDefault printers r Hin Hd) as (d & Hf & Hdd).
    exists d. unfold choosePrinter. rewrite Hf. split; [reflexivity|].
    apply find_some in Hf as [Hind _].
    eapply isDefault_named; eauto.
  - repeat split; reflexivity.
Qed.

Lemma C6_witness :
  fst (printToUSB sample_world
         (FromBuffer [Byte.x89; Byte.x50; Byte.x4e; Byte.x47]) no_options
         init_state)
  = Ok (lit "Canon_TS3300", lit "42").
Proof.
  pose (st1 := snd (getAllPrinters sample_world init_state)).
  pose (chosen := mkPrinter (lit "Canon_TS3300")
               (lit "usb://Canon/TS3300%20series?serial=1A2B")
               (lit "is idle.  enabled since Mon 02 Nov 2026") true true
               (Some (lit "is idle.  enabled since Mon 02 Nov 2026"))).
  destruct (@C6_print_to_default sample_world
              (FromBuffer [Byte.x89; Byte.x50; Byte.x4e; Byte.x47])
              no_options init_state st1
              (parsePrinters sample_list sample_devices))
    as (_ & _ & _ & Hrun & _).
  - vm_compute. reflexivity.
  - rewrite (Hrun chosen eq_refl). reflexivity.
Defined.

(* ===================================================================== *)
(** ** The poller *)
(* ===================================================================== *)

(** One tick of a running poller, case by case. *)
Lemma check_running (w : World) (opts : WatchOptions) (p : Poller)
  (st : State) :
  isRunning p = true ->
  check w opts p st
  = let '(r, st1) := tickWork w opts st in
    let running := negb (stop_requested w (ticks p)) in
    match r with
    | Ok _ =>
        if running
        then (Ok tt, mkPoller true (S (pending p)) (S (ticks p)),
              log (EvSetTimeout (intervalOf opts)) st1)
        else (Ok tt, mkPoller false (pending p) (S (ticks p)), st1)
    | Err e =>
        match onError opts with
        | None =>
            if running
            then (Ok tt, mkPoller true (S (pending p)) (S (ticks p)),
                  log (EvSetTimeout (intervalOf opts)) st1)
            else (Ok tt, mkPoller false (pending p) (S (ticks p)), st1)
        | Some cb =>
            match cb (message e) with
            | None =>
                if running
                then (Ok tt, mkPoller true (S (pending p)) (S (ticks p)),
                      log (EvSetTimeout (intervalOf opts))
                        (log (EvOnError (message e)) st1))
                else (Ok tt, mkPoller false (pending p) (S (ticks p)),
                      log (EvOnError (message e)) st1)
            | Some msg =>
                (Err (Thrown msg),
                 mkPoller running (pending p) (S (ticks p)),
                 log (EvOnError (message e)) st1)
            end
        end
    end.
Proof.
  intros Hrun. unfold check, try_catch, reportError, call, ret.
  rewrite Hrun. simpl.
  destruct (tickWork w opts st) as [[u|e] st1].
  - destruct (stop_requested w (ticks p)); reflexivity.
  - destruct (onError opts) as [cb|].
    + destruct (cb (message e)); [reflexivity|].
      destruct (stop_requested w (ticks p)); reflexivity.
    + destruct (stop_requested w (ticks p)); reflexivity.
Qed.







(* ===================================================================== *)
(** ** Further properties: the printer directory *)
(* ===================================================================== *)

Lemma execAsync_run (w : World) (cmd : str) (st : State) :
  execAsync w cmd st
  = (match exec_result w (clock st) cmd with
     | inl out => Ok out
     | inr f => Err (sys_error f)
     end, ran [cmd] st).
Proof.
  unfold execAsync, ran. simpl.
  destruct (exec_result w (clock st) cmd); reflexivity.
Qed.

Lemma ran_app (a b : list str) (st : State) :
  ran b (ran a st) = ran (a ++ b) st.
Proof.
  unfold ran. simpl. rewrite map_app, length_app, <- app_assoc.
  f_equal. lia.
Qed.

(** [getAllPrinters] in one equation. *)
Lemma getAllPrinters_cases (w : World) (st : State) :
  getAllPrinters w st
  = match exec_result w (clock st) (lit "lpstat -p -d") with
    | inr f => (Err (Wrapped (lit "Failed to get printers") (sys_error f)),
                ran [lit "lpstat -p -d"] st)
    | inl pl =>
        match exec_result w (S (clock st)) (lit "lpstat -v") with
        | inr f => (Err (Wrapped (lit "Failed to get printers") (sys_error f)),
                    ran [lit "lpstat -p -d"; lit "lpstat -v"] st)
        | inl pd => (Ok (parsePrinters pl pd),
                     ran [lit "lpstat -p -d"; lit "lpstat -v"] st)
        end
    end.
Proof.
  unfold getAllPrinters, wrap_errors, try_catch, bind. cbv beta.
  rewrite execAsync_run.
  destruct (exec_result w (clock st) (lit "lpstat -p -d")) as [pl|f];
    [|reflexivity].
  rewrite execAsync_run, ran_app. simpl.
  destruct (exec_result w (S (clock st)) (lit "lpstat -v")); reflexivity.
Qed.

(** X1. The directory query gives no partial result.  When [lpstat -p -d]
    is rejected, [lpstat -v] is never run; when either command is rejected
    the call fails, and its message is "Failed to get printers: " followed
    by the message of the rejection. *)
Theorem X1_directory_failure (w : World) (st : State) :
  (forall f,
      exec_result w (clock st) (lit "lpstat -p -d") = inr f ->
      getAllPrinters w st
      = (Err (Wrapped (lit "Failed to get printers") (sys_error f)),
         ran [lit "lpstat -p -d"] st))
  /\ (forall pl f,
         exec_result w (clock st) (lit "lpstat -p -d") = inl pl ->
         exec_result w (S (clock st)) (lit "lpstat -v") = inr f ->
         getAllPrinters w st
         = (Err (Wrapped (lit "Failed to get printers") (sys_error f)),
            ran [lit "lpstat -p -d"; lit "lpstat -v"] st))
  /\ (forall e,
         fst (getAllPrinters w st) = Err e ->
         exists f,
           message e = lit "Failed to get printers: " ++ failure_message f
           /\ (exec_result w (clock st) (lit "lpstat -p -d") = inr f
               \/ exec_result w (S (clock st)) (lit "lpstat -v") = inr f)).
Proof.
  rewrite getAllPrinters_cases. split; [|split].
  - intros f ->. reflexivity.
  - intros pl f -> ->. reflexivity.
  - intros e.
    destruct (exec_result w (clock st) (lit "lpstat -p -d")) as [pl|f].
    + destruct (exec_result w (S (clock st)) (lit "lpstat -v")) as [pd|f];
        simpl; intros E; [discriminate|].
      injection E as <-. exists f. auto.
    + simpl. intros E. injection E as <-. exists f. auto.
Qed.

Lemma X1_witness :
  getAllPrinters world_down init_state
  = (Err (Wrapped (lit "Failed to get printers")
            (SysError (lit "127") (lit "Command failed"))),
     ran [lit "lpstat -p -d"] init_state).
Proof.
  apply (proj1 (X1_directory_failure world_down init_state)
           (mkFailure (lit "127") (lit "Command failed"))).
  reflexivity.
Defined.



Lemma line_text_newline (l : report_line) :
  line_ok l -> ~ In newline (line_text l).
Proof.
  destruct l as [before W rest|text]; cbn [line_text line_ok].
  - intros (_ & (_ & HW & _) & Hb & Hr) H.
    rewrite !in_app_iff in H. destruct H as [H | [H | [H | [H | H]]]].
    + now apply Hb.
    + vm_compute in H. intuition discriminate.
    + rewrite Forall_forall in HW. apply HW in H. discriminate.
    + vm_compute in H. intuition discriminate.
    + now apply Hr.
  - now intros (_ & H).
Qed.

Lemma records_mentioned (deviceLines : list str) (dflt : str)
  (ls : list report_line) :
  Forall line_ok ls ->
  map name (records deviceLines dflt (map line_text ls)) = mentioned ls.
Proof.
  intros Hls. induction Hls as [|l ls Hl Hls IH]; [reflexivity|].
  unfold records, mentioned in *. cbn [map flat_map].
  rewrite map_app, IH. f_equal.
  destruct l as [before W rest|text]; cbn [line_text line_ok] in Hl |- *.
  - destruct Hl as (Hfirst & HW & _).
    destruct (@mention_parsed deviceLines dflt before W rest Hfirst HW)
      as (r & E & Hn).
    rewrite E. simpl. now rewrite Hn.
  - destruct Hl as (Hno & _). now rewrite plain_parsed.
Qed.

Lemma mentioned_short (ls : list report_line) :
  List.length (mentioned ls) <= List.length ls.
Proof.
  induction ls as [|l ls IH]; simpl; [lia|].
  rewrite length_app. destruct l; simpl; lia.
Qed.

(** X3. The directory holds one record for each line of the name/status
    report in which the text "printer " occurs, followed by a word and a
    blank: the record is named by that word, and the records come in the
    order of the report.  The lines in which the text does not occur give
    nothing.  The text counts wherever it stands in its line, not only at
    the start. *)
Theorem X3_one_record_per_printer_line (w : World) (st st' : State)
  (ps : list Printer) (ls : list report_line) :
  ls <> [] ->
  Forall line_ok ls ->
  getAllPrinters w st = (Ok ps, st') ->
  exec_result w (clock st) (lit "lpstat -p -d")
    = inl (join [newline] (map line_text ls)) ->
  map name ps = mentioned ls /\ List.length ps <= List.length ls.
Proof.
  intros Hne Hls H Hl.
  apply getAllPrinters_ok in H as (pl & pd & Hpl & _ & -> & _).
  rewrite Hl in Hpl. injection Hpl as <-.
  assert (E : map name (parsePrinters (join [newline] (map line_text ls)) pd)
              = mentioned ls).
  { rewrite parsePrinters_lines. unfold split_lines. rewrite split_join.
    - now apply records_mentioned.
    - destruct ls; [congruence | discriminate].
    - apply Forall_map. eapply Forall_impl; [|exact Hls].
      intros l. apply line_text_newline. }
  split; [exact E|].
  rewrite <- (length_map name), E. apply mentioned_short.
Qed.

Lemma X3_witness :
  map name (parsePrinters sample_list sample_devices)
  = [lit "HP_LaserJet"; lit "Canon_TS3300"]
  /\ map name (parsePrinters busy_list busy_devices) = [lit "to"; lit "to"].
Proof.
  assert (Hnl : forall s : str, includes s [newline] = false ->
                                ~ In newline s).
  { intros s Hs Hin. apply in_split in Hin as (a & b & ->).
    assert (O : occurs_in [newline] (a ++ newline :: b)) by now exists a, b.
    apply includes_spec in O. congruence. }
  assert (Hplain : forall s : str,
             includes s printer_header = false ->
             includes s [newline] = false ->
             line_ok (Plain s)).
  { intros s H1 H2. split; [|now apply Hnl].
    intros O. apply includes_spec in O. congruence. }
  assert (Hword : forall W : str,
             W <> [] -> forallb (fun c => negb (is_line_terminator c)) W = true ->
             includes (tl W) [blank] = false -> printer_word W).
  { intros W H1 H2 H3. split; [exact H1|]. split.
    - apply Forall_forall. intros c Hc.
      rewrite forallb_forall in H2. apply H2 in Hc.
      now apply negb_true_iff in Hc.
    - intros Hin. apply in_split in Hin as (a & b & E).
      assert (O : occurs_in [blank] (tl W)) by (exists a, b; exact E).
      apply includes_spec in O. congruence. }
  split.
  - apply (@X3_one_record_per_printer_line sample_world init_state
             (snd (getAllPrinters sample_world init_state))
             (parsePrinters sample_list sample_devices)
             [Mention [] (lit "HP_LaserJet")
                (lit "is idle.  enabled since Mon 02 Nov 2026");
              Mention [] (lit "Canon_TS3300")
                (lit "is idle.  enabled since Mon 02 Nov 2026");
              Plain (lit "system default destination: Canon_TS3300");
              Plain []]).
    + discriminate.
    + repeat constructor;
        try (apply first_occurrence_nil);
        try (apply Hword; [discriminate | reflexivity | reflexivity]);
        try (apply Hnl; reflexivity);
        try (apply Hplain; reflexivity);
        try (intros []).
    + vm_compute. reflexivity.
    + reflexivity.
  - apply (@X3_one_record_per_printer_line busy_world init_state
             (snd (getAllPrinters busy_world init_state))
             (parsePrinters busy_list busy_devices)
             [Mention [] (lit "to")
                (lit "now printing to-7.  enabled since Mon 02 Nov 2026");
              Mention (ascii_of_nat 9 :: lit "Waiting for ") (lit "to")
                (lit "become available.");
              Plain (lit "system default destination: to");
              Plain []]).
    + discriminate.
    + repeat constructor;
        try (apply first_occurrence_nil);
        try (apply first_occurrence_check; vm_compute; reflexivity);
        try (apply Hword; [discriminate | reflexivity | reflexivity]);
        try (apply Hnl; reflexivity);
        try (apply Hplain; reflexivity);
        try (intros []).
    + vm_compute. reflexivity.
    + reflexivity.
Defined.

Lemma deviceOf_absent (deviceLines : list str) (printerName : str) :
  (forall d, In d deviceLines -> ~ occurs_in printerName d) ->
  deviceOf deviceLines printerName = ([], false).
Proof.
  intros H. unfold deviceOf. rewrite find_absent; [reflexivity|].
  intros d Hd. destruct (includes d printerName) eqn:E; [|reflexivity].
  apply includes_spec in E. now apply H in E.
Qed.

(** X4. A record whose name occurs on no line of the device report has the
    empty transport locator, and its USB flag is off. *)
Theorem X4_missing_device_line (w : World) (st st' : State)
  (ps : list Printer) (printerDevices : str) (r : Printer) :
  getAllPrinters w st = (Ok ps, st') ->
  exec_result w (S (clock st)) (lit "lpstat -v") = inl printerDevices ->
  In r ps ->
  (forall d, In d (split_lines printerDevices) -> ~ occurs_in (name r) d) ->
  uri r = [] /\ isUSB r = false.
Proof.
  intros H Hv Hin Habs.
  apply getAllPrinters_ok in H as (pl & pd & _ & Hpd & -> & _).
  rewrite Hv in Hpd. injection Hpd as <-.
  apply parsePrinters_In in Hin as (line & _ & Hr).
  apply parseLine_shape in Hr as (_ & _ & _ & _ & _ & _ & Hu & Hb).
  rewrite Hu, Hb, deviceOf_absent by exact Habs. auto.
Qed.

Lemma X4_witness :
  exists r,
    In r (parsePrinters sample_list devices_hp_only)
    /\ name r = lit "Canon_TS3300" /\ uri r = [] /\ isUSB r = false.
Proof.
  pose (r := mkPrinter (lit "Canon_TS3300") []
               (lit "is idle.  enabled since Mon 02 Nov 2026") true false
               (Some (lit "is idle.  enabled since Mon 02 Nov 2026"))).
  assert (Hin : In r (parsePrinters sample_list devices_hp_only)).
  { right. left. reflexivity. }
  exists r. split; [exact Hin|]. split; [reflexivity|].
  apply (@X4_missing_device_line lonely_world init_state
           (snd (getAllPrinters lonely_world init_state))
           (parsePrinters sample_list devices_hp_only) devices_hp_only r).
  - vm_compute. reflexivity.
  - reflexivity.
  - exact Hin.
  - intros d Hd Hocc. apply includes_spec in Hocc.
    destruct Hd as [<- | [<- | []]]; vm_compute in Hocc; discriminate.
Defined.

(** X5. [getUSBPrinters] runs the directory query and nothing else.  It
    fails as the query fails; otherwise it returns, in the order of the
    directory, exactly the records whose transport locator contains "usb"
    in some mix of letter cases. *)
Theorem X5_usb_printers (w : World) (st st' : State) :
  (forall e, getAllPrinters w st = (Err e, st') ->
             getUSBPrinters w st = (Err e, st'))
  /\ (forall ps, getAllPrinters w st = (Ok ps, st') ->
                 getUSBPrinters w st = (Ok (filter isUSB ps), st')
                 /\ forall r, In r (filter isUSB ps)
                              <-> In r ps /\ mentions_usb (uri r)).
Proof.
  split.
  - intros e H. unfold getUSBPrinters, bind. now rewrite H.
  - intros ps H. split.
    + unfold getUSBPrinters, bind. now rewrite H.
    + intros r. rewrite filter_In.
      apply getAllPrinters_ok in H as (pl & pd & _ & _ & -> & _).
      split; intros [Hin Hu]; split; auto.
      * apply parsePrinters_In in Hin as (line & _ & Hr).
        apply parseLine_fields in Hr as (_ & _ & E).
        rewrite E in Hu. now apply includes_usb_spec.
      * apply parsePrinters_In in Hin as (line & _ & Hr).
        apply parseLine_fields in Hr as (_ & _ & E).
        rewrite E. now apply includes_usb_spec.
Qed.

Lemma X5_witness :
  fst (getUSBPrinters sample_world init_state)
  = Ok (filter isUSB (parsePrinters sample_list sample_devices))
  /\ map name (filter isUSB (parsePrinters sample_list sample_devices))
     = [lit "Canon_TS3300"].
Proof.
  split; [|reflexivity].
  destruct (proj2 (X5_usb_printers sample_world init_state
                     (snd (getAllPrinters sample_world init_state)))
              (parsePrinters sample_list sample_devices)) as [H _].
  - vm_compute. reflexivity.
  - now rewrite H.
Defined.

(* ===================================================================== *)
(** ** Further properties: the state of a printer *)
(* ===================================================================== *)

Lemma isPrinterEnabled_cases (w : World) (printerName : str) (st : State) :
  isPrinterEnabled w printerName st
  = (match exec_result w (clock st) (statusCommand printerName) with
     | inl out =>
         Ok (negb (includes (toLowerCase out) (lit "disabled")
                   || includes (toLowerCase out) (lit "paused")))
     | inr f =>
         Err (Wrapped (lit "Failed to check printer status") (sys_error f))
     end, ran [statusCommand printerName] st).
Proof.
  unfold isPrinterEnabled, wrap_errors, try_catch, bind. cbv beta.
  fold (statusCommand printerName). rewrite execAsync_run.
  destruct (exec_result w (clock st) (statusCommand printerName));
    reflexivity.
Qed.

Lemma stopped_spec (out : str) :
  includes (toLowerCase out) (lit "disabled")
  || includes (toLowerCase out) (lit "paused") = true
  <-> reports_stopped out.
Proof.
  unfold reports_stopped, mentions_ci.
  rewrite orb_true_iff, !includes_lower_spec. reflexivity.
Qed.

(** X6. [isPrinterEnabled] runs the one command [lpstat -p "<name>"].  It
    answers [false] exactly when the output of the command contains
    "disabled" or "paused" in some mix of letter cases, and [true]
    otherwise; a rejected command makes it fail with "Failed to check
    printer status: " followed by the message of the rejection. *)
Theorem X6_enabled_unless_stopped (w : World) (printerName : str)
  (st : State) :
  (forall out,
      exec_result w (clock st) (statusCommand printerName) = inl out ->
      exists enabled,
        isPrinterEnabled w printerName st
        = (Ok enabled, ran [statusCommand printerName] st)
        /\ (enabled = false <-> reports_stopped out))
  /\ (forall f,
         exec_result w (clock st) (statusCommand printerName) = inr f ->
         isPrinterEnabled w printerName st
         = (Err (Wrapped (lit "Failed to check printer status")
                   (sys_error f)),
            ran [statusCommand printerName] st)
         /\ message (Wrapped (lit "Failed to check printer status")
                       (sys_error f))
            = lit "Failed to check printer status: " ++ failure_message f).
Proof.
  rewrite isPrinterEnabled_cases. split.
  - intros out ->. eexists. split; [reflexivity|].
    rewrite negb_false_iff. apply stopped_spec.
  - intros f ->. split; reflexivity.
Qed.

Lemma X6_witness :
  isPrinterEnabled paused_world (lit "Canon_TS3300") init_state
  = (Ok false, ran [statusCommand (lit "Canon_TS3300")] init_state)
  /\ reports_stopped paused_status.
Proof.
  destruct (proj1 (X6_enabled_unless_stopped paused_world
                     (lit "Canon_TS3300") init_state) paused_status)
    as (enabled & H & Hiff).
  - reflexivity.
  - assert (E : enabled = false).
    { vm_compute in H. now injection H as ->. }
    subst enabled. split; [reflexivity | now apply Hiff].
Defined.

Lemma mentions_ci_within (needle a b : str) :
  mentions_ci needle a -> occurs_in a b -> mentions_ci needle b.
Proof.
  intros (pre & u & post & -> & Hu) (x & y & ->).
  exists (x ++ pre), u, (post ++ y). split; [|exact Hu].
  now rewrite <- !app_assoc.
Qed.

(** X7. The test reads the whole output, the printer's name included: when
    the name itself contains "paused" or "disabled" in some mix of letter
    cases and the output of [lpstat -p] repeats the name, the answer of
    [isPrinterEnabled] is [false] whatever the state of the printer. *)
Theorem X7_name_read_as_state (w : World) (printerName : str) (st : State)
  (out : str) :
  exec_result w (clock st) (statusCommand printerName) = inl out ->
  occurs_in printerName out ->
  reports_stopped printerName ->
  fst (isPrinterEnabled w printerName st) = Ok false.
Proof.
  intros He Hocc Hn. rewrite isPrinterEnabled_cases, He. simpl.
  f_equal. apply negb_false_iff, stopped_spec.
  destruct Hn as [Hn | Hn]; [left | right];
    eapply mentions_ci_within; eauto.
Qed.

Lemma X7_witness :
  fst (isPrinterEnabled unpaused_world (lit "Unpaused_Lab") init_state)
  = Ok false.
Proof.
  apply (@X7_name_read_as_state unpaused_world (lit "Unpaused_Lab")
           init_state unpaused_status).
  - reflexivity.
  - apply includes_spec. reflexivity.
  - right. apply includes_lower_spec. reflexivity.
Defined.

Lemma enablePrinter_cases (w : World) (printerName : str) (st : State) :
  enablePrinter w printerName st
  = match exec_result w (clock st) (enableCommand printerName) with
    | inr f =>
        (Err (Wrapped (lit "Failed to enable printer") (sys_error f)),
         ran [enableCommand printerName] st)
    | inl _ =>
        match exec_result w (S (clock st)) (acceptCommand printerName) with
        | inr f =>
            (Err (Wrapped (lit "Failed to enable printer") (sys_error f)),
             ran [enableCommand printerName; acceptCommand printerName] st)
        | inl _ =>
            (Ok (lit "Printer " ++ quoted printerName
                   ++ lit " has been enabled and is now accepting jobs"),
             ran [enableCommand printerName; acceptCommand printerName] st)
        end
    end.
Proof.
  unfold enablePrinter, wrap_errors, try_catch, bind. cbv beta.
  fold (enableCommand printerName). fold (acceptCommand printerName).
  rewrite execAsync_run.
  destruct (exec_result w (clock st) (enableCommand printerName));
    [|reflexivity].
  rewrite execAsync_run, ran_app. simpl.
  destruct (exec_result w (S (clock st)) (acceptCommand printerName));
    reflexivity.
Qed.

(** X8. [enablePrinter] runs [cupsenable "<name>"] and then
    [cupsaccept "<name>"].  It succeeds only when both are accepted; when
    [cupsenable] is rejected [cupsaccept] is never run; either rejection
    surfaces as "Failed to enable printer: " followed by its message. *)
Theorem X8_enable_then_accept (w : World) (printerName : str) (st : State) :
  (forall f,
      exec_result w (clock st) (enableCommand printerName) = inr f ->
      enablePrinter w printerName st
      = (Err (Wrapped (lit "Failed to enable printer") (sys_error f)),
         ran [enableCommand printerName] st))
  /\ (forall o f,
         exec_result w (clock st) (enableCommand printerName) = inl o ->
         exec_result w (S (clock st)) (acceptCommand printerName) = inr f ->
         enablePrinter w printerName st
         = (Err (Wrapped (lit "Failed to enable printer") (sys_error f)),
            ran [enableCommand printerName; acceptCommand printerName] st))
  /\ (forall msg,
         fst (enablePrinter w printerName st) = Ok msg ->
         (exists o1 o2,
             exec_result w (clock st) (enableCommand printerName) = inl o1
             /\ exec_result w (S (clock st)) (acceptCommand printerName)
                = inl o2)
         /\ snd (enablePrinter w printerName st)
            = ran [enableCommand printerName; acceptCommand printerName] st
         /\ msg = lit "Printer " ++ quoted printerName
                    ++ lit " has been enabled and is now accepting jobs")
  /\ (forall e,
         fst (enablePrinter w printerName st) = Err e ->
         exists f, message e
                   = lit "Failed to enable printer: " ++ failure_message f).
Proof.
  rewrite enablePrinter_cases. repeat apply conj.
  - intros f ->. reflexivity.
  - intros o f -> ->. reflexivity.
  - intros msg.
    destruct (exec_result w (clock st) (enableCommand printerName)) as [o1|f];
      [|discriminate].
    destruct (exec_result w (S (clock st)) (acceptCommand printerName))
      as [o2|f]; [|discriminate].
    simpl. intros E. injection E as <-. repeat split; eauto.
  - intros e.
    destruct (exec_result w (clock st) (enableCommand printerName)) as [o1|f].
    + destruct (exec_result w (S (clock st)) (acceptCommand printerName))
        as [o2|f]; simpl; intros E; [discriminate|].
      injection E as <-. now exists f.
    + simpl. intros E. injection E as <-. now exists f.
Qed.

Lemma X8_witness :
  enablePrinter world_down (lit "Canon_TS3300") init_state
  = (Err (Wrapped (lit "Failed to enable printer")
            (SysError (lit "127") (lit "Command failed"))),
     ran [enableCommand (lit "Canon_TS3300")] init_state)
  /\ fst (enablePrinter sample_world (lit "Canon_TS3300") init_state)
     = Ok (lit "Printer " ++ quoted (lit "Canon_TS3300")
             ++ lit " has been enabled and is now accepting jobs").
Proof.
  split; [|reflexivity].
  apply (proj1 (X8_enable_then_accept world_down (lit "Canon_TS3300")
                  init_state) (mkFailure (lit "127") (lit "Command failed"))).
  reflexivity.
Defined.

Lemma isPrinterEnabled_answer (w : World) (printerName : str) (st : State)
  (out : str) :
  exec_result w (clock st) (statusCommand printerName) = inl out ->
  (reports_stopped out ->
   isPrinterEnabled w printerName st
   = (Ok false, ran [statusCommand printerName] st))
  /\ (~ reports_stopped out ->
      isPrinterEnabled w printerName st
      = (Ok true, ran [statusCommand printerName] st)).
Proof.
  intros He. rewrite isPrinterEnabled_cases, He.
  destruct (includes (toLowerCase out) (lit "disabled")
            || includes (toLowerCase out) (lit "paused")) eqn:E.
  - apply stopped_spec in E. split; [reflexivity | contradiction].
  - split; [|reflexivity]. intros H. apply stopped_spec in H. congruence.
Qed.

(** X9. With [autoEnable] set to [false], [checkAndResumePrinter] only
    looks: whatever the outcome, the one command it runs is the status
    query, never [cupsenable] or [cupsaccept].  Its [wasEnabled] field says
    whether the report showed the printer as neither paused nor disabled,
    and its message is the "is ready" or the "is paused/disabled" text. *)
Theorem X9_check_without_resume (w : World) (printerName : str)
  (st : State) :
  snd (checkAndResumePrinter w printerName (Some false) st)
  = ran [statusCommand printerName] st
  /\ (forall out,
         exec_result w (clock st) (statusCommand printerName) = inl out ->
         (~ reports_stopped out ->
          fst (checkAndResumePrinter w printerName (Some false) st)
          = Ok (Resume.mk true
                  (lit "Printer " ++ quoted printerName ++ lit " is ready")))
         /\ (reports_stopped out ->
             fst (checkAndResumePrinter w printerName (Some false) st)
             = Ok (Resume.mk false
                     (lit "Printer " ++ quoted printerName
                        ++ lit " is paused/disabled")))).
Proof.
  unfold checkAndResumePrinter, bind. cbv beta. split.
  - rewrite isPrinterEnabled_cases.
    destruct (exec_result w (clock st) (statusCommand printerName));
      [|reflexivity].
    destruct (negb _); reflexivity.
  - intros out He.
    destruct (isPrinterEnabled_answer w printerName st He) as [Hs Hn].
    split; intros H.
    + now rewrite (Hn H).
    + now rewrite (Hs H).
Qed.

Lemma X9_witness :
  checkAndResumePrinter paused_world (lit "Canon_TS3300") (Some false)
    init_state
  = (Ok (Resume.mk false
           (lit "Printer " ++ quoted (lit "Canon_TS3300")
              ++ lit " is paused/disabled")),
     ran [statusCommand (lit "Canon_TS3300")] init_state).
Proof.
  destruct (X9_check_without_resume paused_world (lit "Canon_TS3300")
              init_state) as [Hs Hr].
  destruct (Hr paused_status eq_refl) as [_ Hp].
  rewrite (surjective_pairing (checkAndResumePrinter _ _ _ _)).
  rewrite Hs, Hp; [reflexivity|].
  left. apply includes_lower_spec. reflexivity.
Defined.

(** X10. With [autoEnable] left out or [true], [checkAndResumePrinter]
    leaves a printer alone whose report shows it neither paused nor
    disabled (one command, [wasEnabled] true).  Otherwise it runs
    [cupsenable] and [cupsaccept] after the status query: when both are
    accepted it reports [wasEnabled] false and the message of
    [enablePrinter] followed by " (was paused/disabled)"; when [cupsenable]
    is rejected it fails with the error of [enablePrinter], and
    [cupsaccept] is never run. *)
Theorem X10_check_and_resume (w : World) (printerName : str)
  (autoEnable : option bool) (st : State) (out : str) :
  autoEnable <> Some false ->
  exec_result w (clock st) (statusCommand printerName) = inl out ->
  (~ reports_stopped out ->
   checkAndResumePrinter w printerName autoEnable st
   = (Ok (Resume.mk true
            (lit "Printer " ++ quoted printerName ++ lit " is ready")),
      ran [statusCommand printerName] st))
  /\ (forall o1 o2,
         reports_stopped out ->
         exec_result w (S (clock st)) (enableCommand printerName) = inl o1 ->
         exec_result w (S (S (clock st))) (acceptCommand printerName)
           = inl o2 ->
         checkAndResumePrinter w printerName autoEnable st
         = (Ok (Resume.mk false
                  (lit "Printer " ++ quoted printerName
                     ++ lit " has been enabled and is now accepting jobs"
                     ++ lit " (was paused/disabled)")),
            ran [statusCommand printerName; enableCommand printerName;
                 acceptCommand printerName] st))
  /\ (forall f,
         reports_stopped out ->
         exec_result w (S (clock st)) (enableCommand printerName) = inr f ->
         checkAndResumePrinter w printerName autoEnable st
         = (Err (Wrapped (lit "Failed to enable printer") (sys_error f)),
            ran [statusCommand printerName; enableCommand printerName] st)).
Proof.
  intros Ha He.
  assert (Hauto : match autoEnable with Some b => b | None => true end = true).
  { destruct autoEnable as [[|]|]; congruence. }
  destruct (isPrinterEnabled_answer w printerName st He) as [Hs Hn].
  unfold checkAndResumePrinter, bind. cbv beta. rewrite Hauto.
  split; [|split].
  - intros H. now rewrite (Hn H).
  - intros o1 o2 H H1 H2. rewrite (Hs H), enablePrinter_cases.
    simpl clock. rewrite H1, H2, ran_app. unfold ret. simpl.
    now rewrite <- !app_assoc.
  - intros f H H1. rewrite (Hs H), enablePrinter_cases.
    simpl clock. rewrite H1, ran_app. reflexivity.
Qed.

Lemma X10_witness :
  checkAndResumePrinter paused_world (lit "Canon_TS3300") None init_state
  = (Ok (Resume.mk false
           (lit "Printer " ++ quoted (lit "Canon_TS3300")
              ++ lit " has been enabled and is now accepting jobs"
              ++ lit " (was paused/disabled)")),
     ran [statusCommand (lit "Canon_TS3300");
          enableCommand (lit "Canon_TS3300");
          acceptCommand (lit "Canon_TS3300")] init_state).
Proof.
  destruct (@X10_check_and_resume paused_world (lit "Canon_TS3300") None
              init_state paused_status) as (_ & H & _).
  - discriminate.
  - reflexivity.
  - apply (H [] []).
    + left. apply includes_lower_spec. reflexivity.
    + reflexivity.
    + reflexivity.
Defined.

(* ===================================================================== *)
(** ** Further properties: jobs and media sizes *)
(* ===================================================================== *)

Lemma getPrintJobStatus_cases (w : World) (jobId : option str) (st : State) :
  let command := match jobId with
                 | Some j => if truthy j then lit "lpq " ++ j else lit "lpq"
                 | None => lit "lpq"
                 end in
  getPrintJobStatus w jobId st
  = (match exec_result w (clock st) command with
     | inl out => Ok out
     | inr f => Err (Wrapped (lit "Failed to get job status") (sys_error f))
     end, ran [command] st).
Proof.
  intros command.
  unfold getPrintJobStatus, wrap_errors, try_catch, bind. cbv beta zeta.
  fold command. rewrite execAsync_run.
  destruct (exec_result w (clock st) command); reflexivity.
Qed.

Lemma cancelPrintJob_cases (w : World) (jobId : str) (st : State) :
  cancelPrintJob w jobId st
  = (match exec_result w (clock st) (lit "cancel " ++ jobId) with
     | inl _ => Ok tt
     | inr f => Err (Wrapped (lit "Failed to cancel job") (sys_error f))
     end, ran [lit "cancel " ++ jobId] st).
Proof.
  unfold cancelPrintJob, wrap_errors, try_catch, bind. cbv beta.
  rewrite execAsync_run.
  destruct (exec_result w (clock st) (lit "cancel " ++ jobId)); reflexivity.
Qed.

(** X11. [getPrintJobStatus] runs one command: plain [lpq] when the job id
    is left out or is the empty string, [lpq <id>] otherwise; it returns
    the output of that command unchanged.  [cancelPrintJob] runs
    [cancel <id>], the id unquoted.  In each case a rejection of the
    command surfaces as "Failed to get job status: " or "Failed to cancel
    job: " followed by its message. *)
Theorem X11_job_commands (w : World) (st : State) :
  (forall jobId, jobId = None \/ jobId = Some [] ->
      snd (getPrintJobStatus w jobId st) = ran [lit "lpq"] st
      /\ (forall out, exec_result w (clock st) (lit "lpq") = inl out ->
                      fst (getPrintJobStatus w jobId st) = Ok out)
      /\ (forall f,
             exec_result w (clock st) (lit "lpq") = inr f ->
             fst (getPrintJobStatus w jobId st)
             = Err (Wrapped (lit "Failed to get job status") (sys_error f))
             /\ message_of (fst (getPrintJobStatus w jobId st))
                = Some (lit "Failed to get job status: "
                          ++ failure_message f)))
  /\ (forall id, id <> [] ->
         snd (getPrintJobStatus w (Some id) st) = ran [lit "lpq " ++ id] st
         /\ (forall out,
                exec_result w (clock st) (lit "lpq " ++ id) = inl out ->
                fst (getPrintJobStatus w (Some id) st) = Ok out)
         /\ (forall f,
                exec_result w (clock st) (lit "lpq " ++ id) = inr f ->
                fst (getPrintJobStatus w (Some id) st)
                = Err (Wrapped (lit "Failed to get job status")
                         (sys_error f))
                /\ message_of (fst (getPrintJobStatus w (Some id) st))
                   = Some (lit "Failed to get job status: "
                             ++ failure_message f)))
  /\ (forall id,
         snd (cancelPrintJob w id st) = ran [lit "cancel " ++ id] st
         /\ (forall out,
                exec_result w (clock st) (lit "cancel " ++ id) = inl out ->
                fst (cancelPrintJob w id st) = Ok tt)
         /\ (forall f,
                exec_result w (clock st) (lit "cancel " ++ id) = inr f ->
                fst (cancelPrintJob w id st)
                = Err (Wrapped (lit "Failed to cancel job") (sys_error f))
                /\ message_of (fst (cancelPrintJob w id st))
                   = Some (lit "Failed to cancel job: "
                             ++ failure_message f))).
Proof.
  split; [|split].
  - intros jobId [-> | ->]; rewrite getPrintJobStatus_cases; simpl;
      (split; [reflexivity|]);
      (split; [intros out -> | intros f ->]; [reflexivity|]);
      split; reflexivity.
  - intros id Hid. rewrite getPrintJobStatus_cases. cbv zeta.
    assert (Ht : truthy id = true).
    { unfold truthy. apply negb_true_iff. now apply str_eqb_neq. }
    rewrite Ht. simpl. split; [reflexivity|].
    split; [intros out -> | intros f ->]; [reflexivity|].
    split; reflexivity.
  - intros id. rewrite cancelPrintJob_cases. simpl.
    split; [reflexivity|].
    split; [intros out -> | intros f ->]; [reflexivity|].
    split; reflexivity.
Qed.

Lemma X11_witness :
  snd (getPrintJobStatus sample_world (Some []) init_state)
  = ran [lit "lpq"] init_state
  /\ snd (getPrintJobStatus sample_world (Some (lit "42")) init_state)
     = ran [lit "lpq 42"] init_state
  /\ message_of (fst (getPrintJobStatus world_down None init_state))
     = Some (lit "Failed to get job status: Command failed").
Proof.
  destruct (X11_job_commands sample_world init_state) as (H1 & H2 & _).
  destruct (X11_job_commands world_down init_state) as (H3 & _).
  split; [|split].
  - apply (H1 (Some [])). now right.
  - apply (H2 (lit "42")). discriminate.
  - destruct (H3 None (or_introl eq_refl)) as (_ & _ & H).
    apply (H (mkFailure (lit "127") (lit "Command failed"))). reflexivity.
Defined.

Lemma trimStart_blank (s : str) :
  Forall (fun c => is_space c = true) s -> trimStart s = [].
Proof.
  induction 1 as [|c s Hc _ IH]; simpl; [reflexivity|]. now rewrite Hc.
Qed.

Lemma extractJobId_blank (out : str) :
  Forall (fun c => is_space c = true) out -> extractJobId out = [].
Proof.
  intros Hb. unfold extractJobId.
  destruct (re_match re_job out) as [caps|] eqn:Hm.
  - exfalso. apply re_match_sound in Hm as (pre & x & post & -> & M).
    apply re_job_denotes in M as (nm & ds & -> & _).
    rewrite Forall_forall in Hb.
    assert (Hr : is_space "r"%char = true).
    { apply Hb. apply in_or_app. right. apply in_or_app. left.
      apply in_or_app. left. now left. }
    discriminate Hr.
  - unfold trim. rewrite (trimStart_blank Hb). reflexivity.
Qed.

(** X12. When the submission command answers with white space only, the
    job id [printImage] returns is the empty string; handed to
    [getPrintJobStatus], it selects the whole queue ([lpq] without an
    argument), not one job. *)
Theorem X12_blank_acknowledgement (w : World) (printerName : str)
  (input : image_input) (options : PrintOptions) (st st1 st2 : State)
  (imagePath : str) (printers : list Printer) (out : str) :
  stageInput w input st = (Ok imagePath, st1) ->
  getAllPrinters w st1 = (Ok printers, st2) ->
  (exists p, In p printers /\ name p = printerName) ->
  exec_result w (clock st2) (buildPrintCommand printerName imagePath options)
    = inl out ->
  Forall (fun c => is_space c = true) out ->
  fst (printImage w printerName input options st) = Ok []
  /\ forall st3,
       snd (getPrintJobStatus w (Some (extractJobId out)) st3)
       = ran [lit "lpq"] st3.
Proof.
  intros H1 H2 H3 H4 Hb. split.
  - rewrite <- (extractJobId_blank Hb).
    eapply printImage_acknowledged; eauto.
  - intros st3. rewrite (extractJobId_blank Hb), getPrintJobStatus_cases.
    reflexivity.
Qed.

Lemma X12_witness :
  fst (printImage silent_world (lit "Canon_TS3300") (FromPath sample_path)
         no_options (state_with sample_path)) = Ok [].
Proof.
  pose (st1 := snd (stageInput silent_world (FromPath sample_path)
                      (state_with sample_path))).
  pose (st2 := snd (getAllPrinters silent_world st1)).
  apply (@X12_blank_acknowledgement silent_world (lit "Canon_TS3300")
           (FromPath sample_path) no_options (state_with sample_path)
           st1 st2 sample_path (parsePrinters sample_list sample_devices)
           [newline]).
  - vm_compute. reflexivity.
  - vm_compute. reflexivity.
  - eexists. split; [right; left; reflexivity | reflexivity].
  - reflexivity.
  - repeat constructor.
Defined.

Lemma getAvailableMediaSizes_cases (w : World) (printerName : str)
  (st : State) :
  getAvailableMediaSizes w printerName st
  = (match exec_result w (clock st) (infoCommand printerName) with
     | inl info => Ok (parseMediaSizes info)
     | inr f =>
         Err (Wrapped (lit "Failed to get media sizes")
                (Wrapped (lit "Failed to get printer info") (sys_error f)))
     end, ran [infoCommand printerName] st).
Proof.
  unfold getAvailableMediaSizes, getPrinterInfo, wrap_errors, try_catch, bind.
  cbv beta. fold (infoCommand printerName). rewrite execAsync_run.
  destruct (exec_result w (clock st) (infoCommand printerName)); reflexivity.
Qed.

(** X13. Round trip of the size list.  When the option listing of a
    printer holds, at the first place where "PageSize/Media Size: " occurs,
    a non-empty list of size labels separated by single blanks and running
    to the end of the line, [getAvailableMediaSizes] returns exactly these
    labels, in order.  A label is any non-empty text without blank or line
    terminator other than the lone star; so the label of the default size
    keeps the star printed in front of it. *)
Theorem X13_media_sizes_round_trip (w : World) (printerName : str)
  (st : State) (pre post : str) (tokens : list str) :
  tokens <> [] ->
  Forall size_label tokens ->
  match post with
  | [] => True
  | c :: _ => is_line_terminator c = true
  end ->
  first_occurrence media_header pre ->
  exec_result w (clock st) (infoCommand printerName)
    = inl (pre ++ media_header ++ join [blank] tokens ++ post) ->
  getAvailableMediaSizes w printerName st
  = (Ok tokens, ran [infoCommand printerName] st).
Proof.
  intros Hne Hlab Hpost Hfirst He.
  rewrite getAvailableMediaSizes_cases, He. f_equal. f_equal.
  set (J := join [blank] tokens).
  assert (HJne : J <> []).
  { apply join_nonempty; [exact Hne|].
    eapply Forall_impl; [|exact Hlab]. now intros t (A & _). }
  assert (HJok : Forall (fun c => cls_ok Any c = true) J).
  { apply any_ok_iff. apply join_chars.
    - repeat constructor.
    - eapply Forall_impl; [|exact Hlab]. now intros t (_ & _ & _ & D). }
  assert (Hm : exec_at re_media (media_header ++ J ++ post) [] accept
               = Some [J]).
  { unfold re_media. cbn [exec_at]. fold media_header.
    rewrite startsWith_app, skipn_app, skipn_all, Nat.sub_diag. simpl skipn.
    cbn [app]. destruct J as [|c J'] eqn:EJ; [congruence|].
    inversion HJok as [|? ? Hc HJ']; subst. cbn [app]. rewrite Hc.
    apply star_greedy_stretch; auto.
    - destruct post as [|d post']; [exact I|]. simpl.
      now rewrite Hpost.
    - unfold accept. change (c :: J' ++ post) with ((c :: J') ++ post).
      now rewrite firstn_consumed. }
  unfold parseMediaSizes.
  change (re_match re_media (pre ++ media_header ++ J ++ post))
    with (re_match (Cat (Lit media_header) (Grp (PlusG Any)))
            (pre ++ media_header ++ J ++ post)).
  rewrite (@re_match_first media_header (Grp (PlusG Any)) pre (J ++ post)
             [J] Hfirst Hm).
  change (group 1 [J]) with J. unfold J.
  rewrite split_join.
  - apply forallb_filter_id. apply forallb_forall. intros t Ht.
    rewrite Forall_forall in Hlab. destruct (Hlab t Ht) as (A & B & _).
    unfold truthy. apply str_eqb_neq in A, B. now rewrite A, B.
  - exact Hne.
  - eapply Forall_impl; [|exact Hlab]. now intros t (_ & _ & C & _).
Qed.

Lemma X13_witness :
  getAvailableMediaSizes options_world (lit "Canon_TS3300") init_state
  = (Ok [lit "*Letter"; lit "Legal"; lit "A4"; lit "4x6"],
     ran [infoCommand (lit "Canon_TS3300")] init_state).
Proof.
  apply (@X13_media_sizes_round_trip options_world (lit "Canon_TS3300")
           init_state
           (lit "ColorModel/Color Mode: Gray *RGB" ++ [newline])
           ([newline] ++ lit "MediaType/Media Type: *Plain Photo"
              ++ [newline])
           [lit "*Letter"; lit "Legal"; lit "A4"; lit "4x6"]).
  - discriminate.
  - repeat constructor; try discriminate;
      try (vm_compute; intuition discriminate).
  - reflexivity.
  - apply first_occurrence_check. reflexivity.
  - reflexivity.
Defined.

Lemma split_on_parts (sep : ascii) (s t : str) :
  In t (split_on sep s) -> ~ In sep t /\ (forall c, In c t -> In c s).
Proof.
  revert t. induction s as [|c s IH]; simpl; intros t Ht.
  - destruct Ht as [<- | []]. split; [intros [] | intros ? []].
  - destruct (Ascii.eqb c sep) eqn:E.
    + destruct Ht as [<- | Ht].
      * split; [intros [] | intros ? []].
      * destruct (IH t Ht) as [A B]. split; [exact A|]. auto.
    + apply Ascii.eqb_neq in E.
      pose proof (split_on_nonempty sep s) as Hne.
      destruct (split_on sep s) as [|l ls]; [congruence|].
      destruct Ht as [<- | Ht].
      * destruct (IH l (or_introl eq_refl)) as [A B]. split.
        -- intros [H | H]; [congruence | contradiction].
        -- intros d [<- | Hd]; [now left | right; auto].
      * destruct (IH t (or_intror Ht)) as [A B]. split; [exact A|]. auto.
Qed.

Lemma re_media_denotes (x : str) (caps : list str) :
  matches re_media x caps ->
  exists g, x = media_header ++ g /\ caps = [g] /\ g <> []
            /\ Forall (fun c => is_line_terminator c = false) g.
Proof.
  unfold re_media.
  intros (x1 & x2 & c1 & c2 & -> & -> & [-> ->] & M).
  destruct M as (c3 & -> & (Hne & Hg & ->)).
  exists x2. repeat split; auto. now apply any_ok_iff.
Qed.

Lemma parseMediaSizes_sound (info : str) :
  Forall size_label (parseMediaSizes info)
  /\ (~ occurs_in media_header info -> parseMediaSizes info = []).
Proof.
  unfold parseMediaSizes.
  destruct (re_match re_media info) as [caps|] eqn:Hm.
  - apply re_match_sound in Hm as (pre & x & post & -> & M).
    apply re_media_denotes in M as (g & -> & -> & Hne & Hg). split.
    + apply Forall_forall. intros t Ht. apply filter_In in Ht as [Ht Hf].
      change (group 1 [g]) with g in Ht.
      apply split_on_parts in Ht as [Hb Hc].
      apply andb_true_iff in Hf as [H1 H2].
      unfold truthy in H1. apply negb_true_iff in H1, H2.
      apply str_eqb_neq in H1, H2.
      repeat split; auto.
      apply Forall_forall. intros c Hin. rewrite Forall_forall in Hg. auto.
    + intros Hno. exfalso. apply Hno. exists pre, (g ++ post).
      now rewrite <- app_assoc.
  - split; [constructor | reflexivity].
Qed.

(** X14. [getAvailableMediaSizes] never returns an empty label, the lone
    star, or a label holding a blank or a line terminator.  It returns the
    empty list when the option listing does not contain "PageSize/Media
    Size: ".  When [lpoptions] is rejected, the failure is wrapped twice:
    "Failed to get media sizes: Failed to get printer info: " followed by
    the message of the rejection. *)
Theorem X14_media_sizes_sound (w : World) (printerName : str) (st : State) :
  (forall sizes,
      fst (getAvailableMediaSizes w printerName st) = Ok sizes ->
      Forall size_label sizes)
  /\ (forall info,
         exec_result w (clock st) (infoCommand printerName) = inl info ->
         ~ occurs_in media_header info ->
         getAvailableMediaSizes w printerName st
         = (Ok [], ran [infoCommand printerName] st))
  /\ (forall f,
         exec_result w (clock st) (infoCommand printerName) = inr f ->
         exists e,
           getAvailableMediaSizes w printerName st
           = (Err e, ran [infoCommand printerName] st)
           /\ message e
              = lit "Failed to get media sizes: Failed to get printer info: "
                  ++ failure_message f).
Proof.
  rewrite getAvailableMediaSizes_cases. split; [|split].
  - intros sizes.
    destruct (exec_result w (clock st) (infoCommand printerName)) as [info|f];
      simpl; intros E; [|discriminate].
    injection E as <-. apply parseMediaSizes_sound.
  - intros info -> Hno.
    now rewrite (proj2 (parseMediaSizes_sound info) Hno).
  - intros f ->. eexists. split; reflexivity.
Qed.

Lemma X14_witness :
  getAvailableMediaSizes sample_world (lit "Canon_TS3300") init_state
  = (Ok [], ran [infoCommand (lit "Canon_TS3300")] init_state).
Proof.
  apply (proj1 (proj2 (X14_media_sizes_sound sample_world
                         (lit "Canon_TS3300") init_state)) []).
  - reflexivity.
  - intros H. apply includes_spec in H. discriminate.
Defined.

(* ===================================================================== *)
(** ** Further properties: submission *)
(* ===================================================================== *)

Lemma find_name (printerName : str) (printers : list Printer) :
  (exists p, find (fun q => str_eqb (name q) printerName) printers = Some p
             /\ In p printers /\ name p = printerName)
  \/ (find (fun q => str_eqb (name q) printerName) printers = None
      /\ forall p, In p printers -> name p <> printerName).
Proof.
  destruct (find _ printers) as [p|] eqn:E.
  - left. exists p. apply find_some in E as [Hin Hn].
    apply str_eqb_eq in Hn. auto.
  - right. split; [reflexivity|]. intros p Hin.
    eapply find_none in E; [|exact Hin]. now apply str_eqb_neq.
Qed.

(** The [try] block on a path, outcome by outcome: the files are left
    alone, the events are the access check followed by commands, and a
    success went through every step. *)
Lemma tryBlock_path (w : World) (printerName p : str)
  (options : PrintOptions) (st st' : State) (r : Result str) :
  tryBlock w printerName (FromPath p) options st = (r, st') ->
  files st' = files st
  /\ (exists cmds,
         trace st' = trace st ++ EvAccess p :: map EvExec cmds
         /\ clock st' = List.length cmds + clock st
         /\ forall id, r = Ok id ->
              cmds = [lit "lpstat -p -d"; lit "lpstat -v";
                      buildPrintCommand printerName p options])
  /\ (forall id, r = Ok id ->
        files st p <> None /\ readable w p = true
        /\ In (toLowerCase (Path.extname p)) supportedFormats
        /\ exists printerList printerDevices out,
             exec_result w (clock st) (lit "lpstat -p -d") = inl printerList
             /\ exec_result w (S (clock st)) (lit "lpstat -v")
                = inl printerDevices
             /\ (exists q, In q (parsePrinters printerList printerDevices)
                           /\ name q = printerName)
             /\ exec_result w (S (S (clock st)))
                  (buildPrintCommand printerName p options) = inl out
             /\ id = extractJobId out).
Proof.
  unfold tryBlock, stageInput, wrap_errors, try_catch, bind. cbv beta.
  rewrite validateImageFile_run.
  assert (Hfail : forall (e : error),
             (Err (A := str) e, log (EvAccess p) st) = (r, st') ->
             files st' = files st
             /\ (exists cmds,
                    trace st' = trace st ++ EvAccess p :: map EvExec cmds
                    /\ clock st' = List.length cmds + clock st
                    /\ forall id, r = Ok id ->
                         cmds = [lit "lpstat -p -d"; lit "lpstat -v";
                                 buildPrintCommand printerName p options])
             /\ (forall id, r = Ok id ->
                   files st p <> None /\ readable w p = true
                   /\ In (toLowerCase (Path.extname p)) supportedFormats
                   /\ exists printerList printerDevices out,
                        exec_result w (clock st) (lit "lpstat -p -d")
                          = inl printerList
                        /\ exec_result w (S (clock st)) (lit "lpstat -v")
                           = inl printerDevices
                        /\ (exists q,
                               In q (parsePrinters printerList printerDevices)
                               /\ name q = printerName)
                        /\ exec_result w (S (S (clock st)))
                             (buildPrintCommand printerName p options)
                           = inl out
                        /\ id = extractJobId out)).
  { intros e E. injection E as <- <-. split; [reflexivity|]. split.
    - exists []. repeat split; discriminate.
    - discriminate. }
  destruct (files st p) as [data|] eqn:Hf;
    [|destruct (str_eqb (failure_code (access_refusal w p)) _); apply Hfail].
  destruct (readable w p) eqn:Hr; [|apply Hfail].
  destruct (existsb _ supportedFormats) eqn:Hext; [|apply Hfail].
  clear Hfail. apply existsb_str_eqb in Hext.
  unfold ret at 1. cbv beta iota. rewrite getAllPrinters_cases.
  change (clock (log (EvAccess p) st)) with (clock st).
  destruct (exec_result w (clock st) (lit "lpstat -p -d")) as [pl|f1] eqn:E1.
  2:{ unfold throw. intros E. injection E as <- <-. simpl.
      split; [reflexivity|]. split; [|discriminate].
      exists [lit "lpstat -p -d"]. simpl. rewrite <- app_assoc.
      repeat split; discriminate. }
  destruct (exec_result w (S (clock st)) (lit "lpstat -v")) as [pd|f2] eqn:E2.
  2:{ unfold throw. intros E. injection E as <- <-. simpl.
      split; [reflexivity|]. split; [|discriminate].
      exists [lit "lpstat -p -d"; lit "lpstat -v"]. simpl.
      rewrite <- app_assoc. repeat split; discriminate. }
  destruct (find_name printerName (parsePrinters pl pd))
    as [(q & Hfind & Hin & Hq) | (Hfind & Hnone)]; rewrite Hfind.
  2:{ unfold throw. intros E. injection E as <- <-. simpl.
      split; [reflexivity|]. split; [|discriminate].
      exists [lit "lpstat -p -d"; lit "lpstat -v"]. simpl.
      rewrite <- app_assoc. repeat split; discriminate. }
  rewrite execAsync_run, ran_app. simpl clock.
  destruct (exec_result w (S (S (clock st)))
              (buildPrintCommand printerName p options)) as [out|f3] eqn:E3;
    unfold ret, throw; intros E; injection E as <- <-; simpl;
    (split; [reflexivity|]); split.
  - exists [lit "lpstat -p -d"; lit "lpstat -v";
            buildPrintCommand printerName p options].
    simpl. rewrite <- app_assoc. repeat split.
  - intros id E. injection E as <-.
    split; [discriminate|]. split; [reflexivity|]. split; [exact Hext|].
    exists pl, pd, out. repeat split; eauto.
  - exists [lit "lpstat -p -d"; lit "lpstat -v";
            buildPrintCommand printerName p options].
    simpl. rewrite <- app_assoc. repeat split.
  - discriminate.
Qed.

Lemma printImage_path_run (w : World) (printerName p : str)
  (options : PrintOptions) (st : State) :
  printImage w printerName (FromPath p) options st
  = tryBlock w printerName (FromPath p) options st.
Proof.
  unfold printImage, finally.
  now destruct (tryBlock w printerName (FromPath p) options st).
Qed.

(** X15. Printing from a path never touches the file system: whatever the
    outcome, the files after the call are the files before it, and the call
    did one access check followed by commands only, with no write, no
    unlink and no warning. *)
Theorem X15_path_leaves_files_alone (w : World) (printerName p : str)
  (options : PrintOptions) (st : State) :
  let run := printImage w printerName (FromPath p) options st in
  files (snd run) = files st
  /\ exists cmds,
       trace (snd run) = trace st ++ EvAccess p :: map EvExec cmds
       /\ forallb (fun e => negb (is_file_event e))
            (EvAccess p :: map EvExec cmds) = true.
Proof.
  intros run. subst run. rewrite printImage_path_run.
  destruct (tryBlock w printerName (FromPath p) options st) as [r st'] eqn:T.
  apply tryBlock_path in T as (Hf & (cmds & Ht & _) & _). simpl.
  split; [exact Hf|]. exists cmds. split; [exact Ht|].
  simpl. apply forallb_forall. intros e He.
  apply in_map_iff in He as (c & <- & _). reflexivity.
Qed.

(** X16. A successful print from a path went through every step: the file
    exists, is readable and has an extension of the allow-list; both
    directory commands were answered and a record of the directory carries
    the requested name; the call ran exactly three commands, the two
    queries and then the one built by [buildPrintCommand]; and the job id
    is [extractJobId] of that command's output. *)
Theorem X16_path_success (w : World) (printerName p : str)
  (options : PrintOptions) (st : State) (id : str) :
  fst (printImage w printerName (FromPath p) options st) = Ok id ->
  (files st p <> None /\ readable w p = true
   /\ In (toLowerCase (Path.extname p)) supportedFormats)
  /\ (exists printerList printerDevices out,
         exec_result w (clock st) (lit "lpstat -p -d") = inl printerList
         /\ exec_result w (S (clock st)) (lit "lpstat -v") = inl printerDevices
         /\ (exists q, In q (parsePrinters printerList printerDevices)
                       /\ name q = printerName)
         /\ exec_result w (S (S (clock st)))
              (buildPrintCommand printerName p options) = inl out
         /\ id = extractJobId out)
  /\ trace (snd (printImage w printerName (FromPath p) options st))
     = trace st ++ [EvAccess p; EvExec (lit "lpstat -p -d");
                    EvExec (lit "lpstat -v");
                    EvExec (buildPrintCommand printerName p options)].
Proof.
  rewrite printImage_path_run.
  destruct (tryBlock w printerName (FromPath p) options st) as [r st'] eqn:T.
  simpl. intros ->.
  apply tryBlock_path in T as (_ & (cmds & Ht & _ & Hc) & Hok).
  destruct (Hok id eq_refl) as (A & B & C & D).
  rewrite (Hc id eq_refl) in Ht. repeat split; auto.
Qed.

Lemma X16_witness :
  trace (snd (printImage sample_world (lit "Canon_TS3300")
                (FromPath sample_path) no_options (state_with sample_path)))
  = [EvAccess sample_path; EvExec (lit "lpstat -p -d");
     EvExec (lit "lpstat -v");
     EvExec (buildPrintCommand (lit "Canon_TS3300") sample_path no_options)].
Proof.
  apply (@X16_path_success sample_world (lit "Canon_TS3300") sample_path
           no_options (state_with sample_path) (lit "42")).
  reflexivity.
Defined.

Lemma cleanup_other_files (w : World) (p q : str) (st : State) :
  q <> p -> files (cleanup w (Some p) st) q = files st q.
Proof.
  intros Hq. unfold cleanup, fs_unlink.
  destruct (files st p); [|reflexivity].
  destruct (unlink_failure w p); simpl; [reflexivity|].
  apply str_eqb_neq in Hq. now rewrite Hq.
Qed.

(** X17. Printing from a buffer touches no file but the staging file:
    whatever the outcome, every other path holds after the call what it
    held before. *)
Theorem X17_buffer_touches_staging_file_only (w : World) (printerName : str)
  (bytes : list Byte.byte) (options : PrintOptions) (st : State) (q : str) :
  q <> tempPath w ->
  files (snd (printImage w printerName (FromBuffer bytes) options st)) q
  = files st q.
Proof.
  intros Hq. unfold printImage, finally.
  destruct (tryBlock w printerName (FromBuffer bytes) options st)
    as [r st1] eqn:T.
  apply tryBlock_buffer in T as (_ & Hf & _). cbn [snd].
  rewrite cleanup_other_files by exact Hq. rewrite Hf.
  destruct (write_failure w (tempPath w)); [reflexivity|].
  apply str_eqb_neq in Hq. now rewrite Hq.
Qed.

Lemma X17_witness :
  files (snd (printImage sample_world (lit "Canon_TS3300")
                (FromBuffer [Byte.x89; Byte.x50; Byte.x4e; Byte.x47])
                no_options (state_with sample_path))) sample_path
  = Some [].
Proof.
  rewrite (@X17_buffer_touches_staging_file_only sample_world
             (lit "Canon_TS3300") [Byte.x89; Byte.x50; Byte.x4e; Byte.x47]
             no_options (state_with sample_path) sample_path).
  - reflexivity.
  - vm_compute. discriminate.
Defined.

(** X18. When the directory query made inside [printImage] is rejected,
    the failure is wrapped twice, "Failed to print: Failed to get
    printers: " followed by the message of the rejection, and the call
    issues no submission command. *)
Theorem X18_directory_failure_while_printing (w : World) (printerName : str)
  (input : image_input) (options : PrintOptions) (st st1 st2 : State)
  (imagePath : str) (e : error) :
  stageInput w input st = (Ok imagePath, st1) ->
  getAllPrinters w st1 = (Err e, st2) ->
  (exists f,
      fst (printImage w printerName input options st)
      = Err (Wrapped (lit "Failed to print")
               (Wrapped (lit "Failed to get printers") (sys_error f)))
      /\ message (Wrapped (lit "Failed to print")
                    (Wrapped (lit "Failed to get printers") (sys_error f)))
         = lit "Failed to print: Failed to get printers: "
             ++ failure_message f)
  /\ emits (fun ev => negb (is_submission ev)) st
       (snd (printImage w printerName input options st)).
Proof.
  intros H1 H2.
  assert (Hrun : printImage w printerName input options st
                 = (Err (Wrapped (lit "Failed to print") e),
                    cleanup w match input with
                              | FromBuffer _ => Some (tempPath w)
                              | FromPath _ => None
                              end st2)).
  { unfold printImage, tryBlock, finally, wrap_errors, try_catch, bind.
    cbv beta. now rewrite H1, H2. }
  rewrite Hrun. simpl.
  pose proof (stageInput_trace _ _ _ H1) as Ht1.
  apply getAllPrinters_run in H2 as (Hq & _ & He).
  destruct (He e eq_refl) as (f & ->). split.
  - exists f. split; reflexivity.
  - apply emits_trans with st1.
    { eexists. split; [exact Ht1|]. now destruct input. }
    apply emits_trans with st2.
    { eapply emits_weaken; [|exact Hq]. intros ev Hev.
      destruct ev; try discriminate. simpl in Hev |- *.
      apply orb_true_iff in Hev as [Hev | Hev];
        apply str_eqb_eq in Hev; subst; reflexivity. }
    apply cleanup_emits; reflexivity.
Qed.

Lemma X18_witness :
  fst (printImage world_down (lit "Canon_TS3300")
         (FromBuffer [Byte.x89; Byte.x50; Byte.x4e; Byte.x47]) no_options
         init_state)
  = Err (Wrapped (lit "Failed to print")
           (Wrapped (lit "Failed to get printers")
              (SysError (lit "127") (lit "Command failed")))).
Proof.
  pose (input := FromBuffer [Byte.x89; Byte.x50; Byte.x4e; Byte.x47]).
  pose (st1 := snd (stageInput world_down input init_state)).
  destruct (@X18_directory_failure_while_printing world_down
              (lit "Canon_TS3300") input no_options init_state st1
              (snd (getAllPrinters world_down st1)) (tempPath world_down)
              (Wrapped (lit "Failed to get printers")
                 (SysError (lit "127") (lit "Command failed"))))
    as [(f & Hr & _) _].
  - vm_compute. reflexivity.
  - vm_compute. reflexivity.
  - reflexivity.
Defined.

(** X19. A path that names a file the process may not read fails with the
    permission error of the access check, wrapped by "Failed to print",
    whatever its extension; the extension is not looked at and no command
    is run. *)
Theorem X19_unreadable_file (w : World) (printerName p : str)
  (options : PrintOptions) (st : State) :
  files st p <> None -> readable w p = false ->
  printImage w printerName (FromPath p) options st
  = (Err (Wrapped (lit "Failed to print")
            (SysError (lit "EACCES")
               (lit "EACCES: permission denied, access '" ++ p ++ lit "'"))),
     log (EvAccess p) st).
Proof.
  intros Hf Hr. apply printImage_rejected.
  rewrite validateImageFile_run.
  destruct (files st p); [|congruence]. now rewrite Hr.
Qed.

Lemma X19_witness :
  fst (printImage unreadable_world (lit "Canon_TS3300")
         (FromPath existing_bmp) no_options (state_with existing_bmp))
  = Err (Wrapped (lit "Failed to print")
           (SysError (lit "EACCES")
              (lit "EACCES: permission denied, access '" ++ existing_bmp
                 ++ lit "'"))).
Proof.
  rewrite (@X19_unreadable_file unreadable_world (lit "Canon_TS3300")
             existing_bmp no_options (state_with existing_bmp)).
  - reflexivity.
  - vm_compute. discriminate.
  - reflexivity.
Defined.

Lemma printImage_error_wrapped (w : World) (printerName : str)
  (input : image_input) (options : PrintOptions) (st : State) (e : error) :
  fst (printImage w printerName input options st) = Err e ->
  exists c, e = Wrapped (lit "Failed to print") c.
Proof.
  rewrite printImage_result.
  unfold tryBlock, wrap_errors, try_catch, throw.
  match goal with
  | |- context [match ?m st with _ => _ end] => destruct (m st) as [[a|c] st']
  end; simpl; intros E; [discriminate|].
  injection E as <-. now exists c.
Qed.

Lemma choosePrinter_nonempty (p : Printer) (ps : list Printer) :
  exists c, choosePrinter (p :: ps) = Some c.
Proof.
  unfold choosePrinter. destruct (find isDefault (p :: ps)); simpl; eauto.
Qed.

(** X20. [printToUSB] fails with "No printers found" exactly when the
    directory query returns the empty list; in that case it ran the two
    query commands and nothing else: no file was staged and no check made.
    The USB flags play no part: a directory of network printers is not
    empty. *)
Theorem X20_no_printers_found (w : World) (input : image_input)
  (options : PrintOptions) (st : State) :
  (fst (printToUSB w input options st) = Err NoPrintersFound
   <-> fst (getAllPrinters w st) = Ok [])
  /\ (fst (getAllPrinters w st) = Ok [] ->
      snd (printToUSB w input options st)
      = ran [lit "lpstat -p -d"; lit "lpstat -v"] st).
Proof.
  destruct (getAllPrinters w st) as [r st1] eqn:G.
  destruct r as [ps|e].
  - rewrite (@printToUSB_run w input options st st1 ps G).
    destruct ps as [|p ps].
    + simpl. split; [split; reflexivity|]. intros _.
      apply getAllPrinters_ok in G as (pl & pd & _ & _ & _ & ->).
      reflexivity.
    + destruct (choosePrinter_nonempty p ps) as (c & ->).
      destruct (printImage w (name c) input options st1) as [r2 st2] eqn:P.
      simpl. split; [|discriminate]. split; [|discriminate].
      destruct r2 as [id|e2]; [discriminate|]. intros E. injection E as ->.
      assert (Hw : fst (printImage w (name c) input options st1)
                   = Err NoPrintersFound) by now rewrite P.
      apply printImage_error_wrapped in Hw as (x & Hx). discriminate.
  - assert (Hrun : printToUSB w input options st = (Err e, st1)).
    { unfold printToUSB, bind. now rewrite G. }
    rewrite Hrun. simpl. split; [|discriminate]. split; [|discriminate].
    intros E. injection E as ->.
    apply getAllPrinters_run in G as (_ & _ & He).
    destruct (He NoPrintersFound eq_refl) as (f & Hf). discriminate.
Qed.

Lemma X20_witness :
  printToUSB empty_world (FromBuffer [Byte.x89]) no_options init_state
  = (Err NoPrintersFound, ran [lit "lpstat -p -d"; lit "lpstat -v"] init_state).
Proof.
  destruct (X20_no_printers_found empty_world (FromBuffer [Byte.x89])
              no_options init_state) as [Hiff Hs].
  rewrite (surjective_pairing (printToUSB _ _ _ _)).
  rewrite Hs by reflexivity.
  rewrite (proj2 Hiff) by reflexivity. reflexivity.
Defined.

(** X21. [printToUSB] asks the directory twice, once to choose a printer
    and once more inside [printImage].  When the second answer no longer
    lists the chosen name, the call fails with "Failed to print: Printer
    not found: <chosen name>", although the name came from the first
    answer, and no submission command is issued. *)
Theorem X21_directory_asked_twice (w : World) (input : image_input)
  (options : PrintOptions) (st st1 st2 st3 : State)
  (first second : list Printer) (chosen : Printer) (imagePath : str) :
  getAllPrinters w st = (Ok first, st1) ->
  choosePrinter first = Some chosen ->
  stageInput w input st1 = (Ok imagePath, st2) ->
  getAllPrinters w st2 = (Ok second, st3) ->
  (forall p, In p second -> name p <> name chosen) ->
  In chosen first
  /\ fst (printToUSB w input options st)
     = Err (Wrapped (lit "Failed to print") (PrinterNotFound (name chosen)))
  /\ emits (fun ev => negb (is_submission ev)) st
       (snd (printToUSB w input options st)).
Proof.
  intros G1 Hc H1 G2 Habs. split; [|split].
  - unfold choosePrinter in Hc.
    destruct (find isDefault first) as [d|] eqn:Hf.
    + injection Hc as <-. now apply find_some in Hf.
    + destruct first; [discriminate|]. injection Hc as <-. now left.
  - rewrite (@printToUSB_run w input options st st1 first G1), Hc.
    rewrite (@printImage_unknown_printer w (name chosen) input options st1
               st2 st3 imagePath second H1 G2 Habs).
    reflexivity.
  - rewrite (@printToUSB_run w input options st st1 first G1), Hc.
    rewrite (@printImage_unknown_printer w (name chosen) input options st1
               st2 st3 imagePath second H1 G2 Habs).
    simpl. apply emits_trans with st1.
    { apply getAllPrinters_ok in G1 as (pl & pd & _ & _ & _ & ->). simpl.
      exists [EvExec (lit "lpstat -p -d"); EvExec (lit "lpstat -v")]. auto. }
    apply emits_trans with st2.
    { eexists. split; [eapply stageInput_trace; eauto|]. now destruct input. }
    apply emits_trans with st3.
    { apply getAllPrinters_ok in G2 as (pl & pd & _ & _ & _ & ->). simpl.
      exists [EvExec (lit "lpstat -p -d"); EvExec (lit "lpstat -v")]. auto. }
    apply cleanup_emits; reflexivity.
Qed.

Lemma X21_witness :
  fst (printToUSB fading_world (FromPath sample_path) no_options
         (state_with sample_path))
  = Err (Wrapped (lit "Failed to print")
           (PrinterNotFound (lit "Canon_TS3300"))).
Proof.
  pose (st0 := state_with sample_path).
  pose (st1 := snd (getAllPrinters fading_world st0)).
  pose (st2 := snd (stageInput fading_world (FromPath sample_path) st1)).
  pose (st3 := snd (getAllPrinters fading_world st2)).
  pose (chosen := mkPrinter (lit "Canon_TS3300")
               (lit "usb://Canon/TS3300%20series?serial=1A2B")
               (lit "is idle.  enabled since Mon 02 Nov 2026") true true
               (Some (lit "is idle.  enabled since Mon 02 Nov 2026"))).
  apply (@X21_directory_asked_twice fading_world (FromPath sample_path)
           no_options st0 st1 st2 st3
           (parsePrinters sample_list sample_devices)
           (parsePrinters class_list sample_devices) chosen sample_path).
  - vm_compute. reflexivity.
  - reflexivity.
  - vm_compute. reflexivity.
  - vm_compute. reflexivity.
  - intros p [<- | []]. vm_compute. discriminate.
Defined.

(* ===================================================================== *)
(** ** Further properties: the poller *)
(* ===================================================================== *)

Lemma fireTimers_stopped (w : World) (opts : WatchOptions) (n k t : nat)
  (st : State) :
  fireTimers w opts n (mkPoller false k t) st = (mkPoller false (k - n) t, st).
Proof.
  revert k. induction n as [|n IH]; intros k; simpl.
  - now rewrite Nat.sub_0_r.
  - destruct k as [|k]; [reflexivity|]. unfold check. simpl. apply IH.
Qed.

(** X22. Stopping is final.  Once the stop handle has been invoked, a tick
    does nothing, and however many of the pending timers fire, no command
    is run, no callback is called and no timer is set: the state of the
    process is unchanged and the timers only run out. *)
Theorem X22_stop_is_final (w : World) (opts : WatchOptions) (p : Poller)
  (st : State) (n : nat) :
  check w opts (stop p) st = (Ok tt, stop p, st)
  /\ fireTimers w opts n (stop p) st
     = (mkPoller false (pending p - n) (ticks p), st).
Proof.
  split; [reflexivity|]. unfold stop. apply fireTimers_stopped.
Qed.

(** X23. Stopping is cooperative.  When the stop handle is invoked while a
    tick is in flight, the tick still does all its work, and when the work
    fails it still hands the error to the [onError] callback, if there is
    one; but it sets no timer, and nothing runs afterwards. *)
Theorem X23_stop_during_a_tick (w : World) (opts : WatchOptions)
  (p : Poller) (st : State) :
  isRunning p = true ->
  stop_requested w (ticks p) = true ->
  let out := check w opts p st in
  let work := tickWork w opts st in
  isRunning (snd (fst out)) = false
  /\ pending (snd (fst out)) = pending p
  /\ (forall u, fst work = Ok u -> snd out = snd work)
  /\ (forall e, fst work = Err e -> onError opts = None ->
                snd out = snd work)
  /\ (forall e cb, fst work = Err e -> onError opts = Some cb ->
                   snd out = log (EvOnError (message e)) (snd work)
                   /\ fst (fst out) = match cb (message e) with
                                      | Some msg => Err (Thrown msg)
                                      | None => Ok tt
                                      end)
  /\ forall n,
       snd (fireTimers w opts n (snd (fst out)) (snd out)) = snd out.
Proof.
  intros Hrun Hstop out work. subst out work.
  rewrite check_running by exact Hrun. rewrite Hstop. simpl negb.
  destruct (tickWork w opts st) as [[u|e] st1]; cbv iota beta.
  - cbn [fst snd isRunning pending].
    split; [reflexivity|]. split; [reflexivity|].
    split; [reflexivity|]. split; [discriminate|]. split; [discriminate|].
    intros n. now rewrite fireTimers_stopped.
  - destruct (onError opts) as [cb|].
    + destruct (cb (message e)) eqn:Hcb; cbn [fst snd isRunning pending];
        (split; [reflexivity|]); (split; [reflexivity|]);
        (split; [discriminate|]); (split; [discriminate|]);
        (split;
         [intros e0 cb0 E1 E2; injection E1 as <-; injection E2 as <-;
          rewrite Hcb; now split
         |intros n; now rewrite fireTimers_stopped]).
    + cbn [fst snd isRunning pending].
      split; [reflexivity|]. split; [reflexivity|].
      split; [discriminate|]. split; [reflexivity|]. split; [discriminate|].
      intros n. now rewrite fireTimers_stopped.
Qed.

Lemma X23_witness :
  let out := check halting_world watch_reporting (mkPoller true 0 0)
               init_state in
  isRunning (snd (fst out)) = false /\ pending (snd (fst out)) = 0
  /\ trace (snd out)
     = [EvExec (lit "lpstat -p -d");
        EvOnError (lit "Failed to get printers: Command failed")].
Proof.
  destruct (@X23_stop_during_a_tick halting_world watch_reporting
              (mkPoller true 0 0) init_state eq_refl eq_refl)
    as (A & B & _ & _ & C & _).
  split; [exact A|]. split; [exact B|].
  destruct (C (Wrapped (lit "Failed to get printers")
                 (SysError (lit "127") (lit "Command failed")))
              quiet_handler eq_refl eq_refl) as [E _].
  rewrite E. reflexivity.
Defined.

Lemma trace_ran (cmds : list str) (st : State) :
  trace (ran cmds st) = trace st ++ map EvExec cmds.
Proof. reflexivity. Qed.

(** The events of the loop over the printers to check. *)
Lemma resumeEach_blocks (w : World) (opts : WatchOptions)
  (ps : list Printer) :
  forall (st st' : State) (r : Result unit),
    resumeEach w opts ps st = (r, st') ->
    exists evs,
      trace st' = trace st ++ evs /\ tick_blocks (map name ps) evs.
Proof.
  induction ps as [|p ps IH]; intros st st' r; simpl.
  - unfold ret. intros E. injection E as _ <-.
    exists []. rewrite app_nil_r. split; [reflexivity | constructor].
  - set (n := name p).
    assert (Hstop : forall b s,
               printer_block n b -> trace s = trace st ++ b ->
               forall x : Result unit, (x, s) = (r, st') ->
               exists evs, trace st' = trace st ++ evs
                           /\ tick_blocks (n :: map name ps) evs).
    { intros b s Hb Hs x E. injection E as _ <-. exists b.
      split; [exact Hs|]. rewrite <- (app_nil_r b).
      constructor; [exact Hb | constructor]. }
    assert (Hgo : forall b s,
               printer_block n b -> trace s = trace st ++ b ->
               resumeEach w opts ps s = (r, st') ->
               exists evs, trace st' = trace st ++ evs
                           /\ tick_blocks (n :: map name ps) evs).
    { intros b s Hb Hs E. apply IH in E as (evs & Ht & Hblocks).
      exists (b ++ evs). split.
      - now rewrite Ht, Hs, <- app_assoc.
      - now constructor. }
    unfold bind. rewrite isPrinterEnabled_cases.
    destruct (exec_result w (clock st) (statusCommand n)) as [out|f].
    2:{ apply (Hstop [EvExec (statusCommand n)]); [now left | reflexivity]. }
    destruct (negb (includes (toLowerCase out) (lit "disabled")
                    || includes (toLowerCase out) (lit "paused"))).
    { cbn [negb]. cbv beta iota. unfold ret at 1. cbv beta iota.
      apply (Hgo [EvExec (statusCommand n)]); [now left | reflexivity]. }
    cbn [negb]. cbv beta iota. rewrite enablePrinter_cases, ?ran_app.
    change (clock (ran [statusCommand n] st)) with (S (clock st)).
    destruct (exec_result w (S (clock st)) (enableCommand n)) as [o1|f1].
    2:{ apply (Hstop [EvExec (statusCommand n); EvExec (enableCommand n)]);
          [right; now left | reflexivity]. }
    destruct (exec_result w (S (S (clock st))) (acceptCommand n)) as [o2|f2].
    2:{ apply (Hstop [EvExec (statusCommand n); EvExec (enableCommand n);
                      EvExec (acceptCommand n)]);
          [right; right; now left | reflexivity]. }
    destruct (onResume opts) as [cb|].
    + unfold call. destruct (cb n) as [msg|].
      * apply (Hstop [EvExec (statusCommand n); EvExec (enableCommand n);
                      EvExec (acceptCommand n); EvOnResume n]).
        -- right; right; now right.
        -- simpl. now rewrite <- app_assoc.
      * apply (Hgo [EvExec (statusCommand n); EvExec (enableCommand n);
                    EvExec (acceptCommand n); EvOnResume n]).
        -- right; right; now right.
        -- simpl. now rewrite <- app_assoc.
    + unfold ret at 1. cbv beta iota.
      apply (Hgo [EvExec (statusCommand n); EvExec (enableCommand n);
                  EvExec (acceptCommand n)]);
        [right; right; now left | reflexivity].
Qed.

(** The events of one tick's work: the directory query, then the loop over
    the printers the options select. *)
Lemma tickWork_events (w : World) (opts : WatchOptions) (st : State) :
  exists qs checked evs,
    trace (snd (tickWork w opts st)) = trace st ++ map EvExec qs ++ evs
    /\ forallb is_query (map EvExec qs) = true
    /\ tick_blocks checked evs
    /\ forall names, printerNames opts = Some names -> names <> [] ->
                     forall n, In n checked -> In n names.
Proof.
  assert (Hgen : forall (f : list Printer -> list Printer)
                        (m : M (list Printer)),
             (forall s, m s = match getAllPrinters w s with
                              | (Ok all, s') => (Ok (f all), s')
                              | (Err e, s') => (Err e, s')
                              end) ->
             exists qs evs all,
               trace (snd (bind m (resumeEach w opts) st))
               = trace st ++ map EvExec qs ++ evs
               /\ forallb is_query (map EvExec qs) = true
               /\ tick_blocks (map name (f all)) evs).
  { intros f m Hm. unfold bind. rewrite Hm, getAllPrinters_cases.
    destruct (exec_result w (clock st) (lit "lpstat -p -d")) as [pl|f1].
    2:{ exists [lit "lpstat -p -d"], [], []. simpl.
        repeat split. constructor. }
    destruct (exec_result w (S (clock st)) (lit "lpstat -v")) as [pd|f2].
    2:{ exists [lit "lpstat -p -d"; lit "lpstat -v"], [], []. simpl.
        repeat split. constructor. }
    destruct (resumeEach w opts (f (parsePrinters pl pd))
                (ran [lit "lpstat -p -d"; lit "lpstat -v"] st))
      as [r st'] eqn:E.
    apply resumeEach_blocks in E as (evs & Ht & Hb).
    exists [lit "lpstat -p -d"; lit "lpstat -v"], evs, (parsePrinters pl pd).
    simpl snd. rewrite Ht, trace_ran, <- app_assoc. auto. }
  unfold tickWork.
  destruct (printerNames opts) as [names|] eqn:Hn.
  - destruct (0 <? List.length names) eqn:Hlen.
    + destruct (Hgen (filter (fun p => existsb (str_eqb (name p)) names))
                  (allPrinters <- getAllPrinters w ;;
                   ret (filter (fun p => existsb (str_eqb (name p)) names)
                          allPrinters)))
        as (qs & evs & all & Ht & Hq & Hb).
      { intros s. unfold bind, ret.
        destruct (getAllPrinters w s) as [[a|e] s']; reflexivity. }
      exists qs, (map name (filter (fun p => existsb (str_eqb (name p)) names)
                              all)), evs.
      repeat split; auto.
      intros names' E _ n Hin. injection E as <-.
      apply in_map_iff in Hin as (p & <- & Hp).
      apply filter_In in Hp as [_ Hp]. now apply existsb_str_eqb in Hp.
    + destruct (Hgen (fun l => l) (getAllPrinters w))
        as (qs & evs & all & Ht & Hq & Hb).
      { intros s. destruct (getAllPrinters w s) as [[a|e] s']; reflexivity. }
      exists qs, (map name all), evs. repeat split; auto.
      intros names' E Hne. injection E as <-.
      destruct names; [congruence | discriminate].
  - destruct (Hgen (fun l => l) (getAllPrinters w))
      as (qs & evs & all & Ht & Hq & Hb).
    { intros s. destruct (getAllPrinters w s) as [[a|e] s']; reflexivity. }
    exists qs, (map name all), evs. repeat split; auto. discriminate.
Qed.

Lemma printer_block_concerns (n : str) (b : list event) (e : event) :
  printer_block n b -> In e b ->
  In e [EvExec (statusCommand n); EvExec (enableCommand n);
        EvExec (acceptCommand n); EvOnResume n].
Proof.
  intros [-> | [-> | [-> | ->]]] Hin; simpl in *; intuition.
Qed.

Lemma tick_blocks_concern (names : list str) (evs : list event) :
  tick_blocks names evs -> forall e, In e evs -> concerns names e.
Proof.
  induction 1 as [names | n names b l Hb Hl IH]; intros e Hin.
  - contradiction.
  - apply in_app_or in Hin as [Hin | Hin].
    + exists n. split; [now left|]. eapply printer_block_concerns; eauto.
    + destruct (IH e Hin) as (m & Hm & He). exists m. split; [now right|].
      exact He.
Qed.

(** X24. With a non-empty list of printer names in the options, a tick
    leaves every other printer alone: apart from the two directory
    commands, everything the tick's work does (status query, [cupsenable],
    [cupsaccept], [onResume] call) is about a printer of the list. *)
Theorem X24_only_the_listed_printers (w : World) (opts : WatchOptions)
  (st : State) (names : list str) :
  printerNames opts = Some names ->
  names <> [] ->
  exists evs,
    trace (snd (tickWork w opts st)) = trace st ++ evs
    /\ forall e, In e evs -> is_query e = true \/ concerns names e.
Proof.
  intros Hn Hne.
  destruct (tickWork_events w opts st)
    as (qs & checked & evs & Ht & Hq & Hb & Hsub).
  exists (map EvExec qs ++ evs). split; [exact Ht|].
  intros e Hin. apply in_app_or in Hin as [Hin | Hin].
  - left. rewrite forallb_forall in Hq. auto.
  - right. destruct (@tick_blocks_concern checked evs Hb e Hin)
      as (n & Hc & He).
    exists n. split; [|exact He]. eapply Hsub; eauto.
Qed.

Lemma X24_witness :
  trace (snd (tickWork paused_world watch_canon init_state))
  = [EvExec (lit "lpstat -p -d"); EvExec (lit "lpstat -v");
     EvExec (statusCommand (lit "Canon_TS3300"));
     EvExec (enableCommand (lit "Canon_TS3300"));
     EvExec (acceptCommand (lit "Canon_TS3300"));
     EvOnResume (lit "Canon_TS3300")]
  /\ exists evs,
       trace (snd (tickWork paused_world watch_canon init_state))
       = trace init_state ++ evs
       /\ forall e, In e evs ->
                    is_query e = true \/ concerns [lit "Canon_TS3300"] e.
Proof.
  split; [reflexivity|].
  apply (@X24_only_the_listed_printers paused_world watch_canon init_state
           [lit "Canon_TS3300"]).
  - reflexivity.
  - discriminate.
Defined.

Lemma block_before_resume (n m : str) (b pre post : list event) :
  printer_block n b -> b = pre ++ EvOnResume m :: post ->
  pre = [EvExec (statusCommand m); EvExec (enableCommand m);
         EvExec (acceptCommand m)].
Proof.
  intros [-> | [-> | [-> | ->]]] E;
    destruct pre as [|e1 [|e2 [|e3 [|e4 pre]]]]; simpl in E;
    try discriminate E; inversion E; subst; try reflexivity;
    match goal with
    | H : [] = ?x ++ _ :: _ |- _ => destruct x; discriminate H
    end.
Qed.

Lemma tick_blocks_resume (names : list str) (evs : list event) :
  tick_blocks names evs ->
  forall pre m post,
    evs = pre ++ EvOnResume m :: post ->
    exists pre',
      pre = pre' ++ [EvExec (statusCommand m); EvExec (enableCommand m);
                     EvExec (acceptCommand m)].
Proof.
  induction 1 as [names | n names b l Hb Hl IH]; intros pre m post E.
  - destruct pre; discriminate.
  - apply app_eq_app in E as (x & [[Hb' Hpost] | [Hpre Hl']]).
    + destruct x as [|y x].
      * rewrite app_nil_r in Hb'. subst b. simpl in Hpost.
        destruct (IH [] m post (eq_sym Hpost)) as (pre' & Hp).
        destruct pre'; discriminate.
      * simpl in Hpost. injection Hpost as <- _.
        exists []. simpl. eapply block_before_resume; eauto.
    + destruct (IH x m post Hl') as (pre' & ->).
      exists (b ++ pre'). now rewrite Hpre, <- app_assoc.
Qed.

(** X25. In a tick, the [onResume] callback is called for a printer only
    right after the status query, [cupsenable] and [cupsaccept] were run
    for that printer, in this order: these three commands are the three
    events just before the call. *)
Theorem X25_resume_callback_follows_enabling (w : World)
  (opts : WatchOptions) (st : State) (pre post : list event) (n : str) :
  trace (snd (tickWork w opts st)) = trace st ++ pre ++ EvOnResume n :: post ->
  exists pre',
    pre = pre' ++ [EvExec (statusCommand n); EvExec (enableCommand n);
                   EvExec (acceptCommand n)].
Proof.
  intros Ht.
  destruct (tickWork_events w opts st)
    as (qs & checked & evs & Ht' & _ & Hb & _).
  rewrite Ht' in Ht. apply app_inv_head in Ht.
  apply app_eq_app in Ht as (x & [[Hq Hpost] | [Hpre Hevs]]).
  - destruct x as [|y x].
    + rewrite app_nil_r in Hq. simpl in Hpost. subst pre.
      destruct (@tick_blocks_resume checked evs Hb [] n post (eq_sym Hpost))
        as (p' & Hp).
      destruct p'; discriminate.
    + exfalso. simpl in Hpost. injection Hpost as <- _.
      assert (Hin : In (EvOnResume n) (map EvExec qs)).
      { rewrite Hq. apply in_or_app. right. now left. }
      apply in_map_iff in Hin as (c & Hc & _). discriminate.
  - destruct (@tick_blocks_resume checked evs Hb x n post Hevs)
      as (pre' & ->).
    exists (map EvExec qs ++ pre'). now rewrite Hpre, <- app_assoc.
Qed.

Lemma X25_witness :
  exists pre',
    [EvExec (lit "lpstat -p -d"); EvExec (lit "lpstat -v");
     EvExec (statusCommand (lit "Canon_TS3300"));
     EvExec (enableCommand (lit "Canon_TS3300"));
     EvExec (acceptCommand (lit "Canon_TS3300"))]
    = pre' ++ [EvExec (statusCommand (lit "Canon_TS3300"));
               EvExec (enableCommand (lit "Canon_TS3300"));
               EvExec (acceptCommand (lit "Canon_TS3300"))].
Proof.
  apply (@X25_resume_callback_follows_enabling paused_world watch_canon
           init_state _ [] (lit "Canon_TS3300")).
  reflexivity.
Defined.

Lemma ran_nil (st : State) : ran [] st = st.
Proof. unfold ran. destruct st. simpl. now rewrite app_nil_r. Qed.

Lemma resumeEach_all_enabled (w : World) (opts : WatchOptions)
  (ps : list Printer) :
  forall st,
    all_enabled w (clock st) ps ->
    resumeEach w opts ps st
    = (Ok tt, ran (map (fun p => statusCommand (name p)) ps) st).
Proof.
  induction ps as [|p ps IH]; intros st H; simpl.
  - now rewrite ran_nil.
  - destruct H as [(out & He & Hn) Hrest].
    unfold bind.
    rewrite (proj2 (isPrinterEnabled_answer w (name p) st He) Hn).
    cbn [negb]. cbv beta iota. unfold ret at 1. cbv beta iota.
    rewrite IH by exact Hrest. now rewrite ran_app.
Qed.

(** X26. A tick over healthy printers only looks.  With no list of names
    in the options, or with the empty list, which is treated alike, a tick
    whose directory query succeeds and whose printers are all reported
    neither paused nor disabled runs the two directory commands and then
    one status query per record of the directory, in directory order, and
    nothing else: no [cupsenable], no [cupsaccept], no callback. *)
Theorem X26_idle_tick_only_looks (w : World) (opts : WatchOptions)
  (st st1 : State) (ps : list Printer) :
  printerNames opts = None \/ printerNames opts = Some [] ->
  getAllPrinters w st = (Ok ps, st1) ->
  all_enabled w (clock st1) ps ->
  tickWork w opts st
  = (Ok tt,
     ran ([lit "lpstat -p -d"; lit "lpstat -v"]
            ++ map (fun p => statusCommand (name p)) ps) st).
Proof.
  intros Hn G Hall.
  assert (Hrun : tickWork w opts st = resumeEach w opts ps st1).
  { unfold tickWork, bind.
    destruct Hn as [-> | ->]; simpl; now rewrite G. }
  rewrite Hrun, resumeEach_all_enabled by exact Hall.
  apply getAllPrinters_ok in G as (pl & pd & _ & _ & _ & ->).
  change (mkState (files st)
            (trace st ++ [EvExec (lit "lpstat -p -d"); EvExec (lit "lpstat -v")])
            (S (S (clock st))))
    with (ran [lit "lpstat -p -d"; lit "lpstat -v"] st).
  now rewrite ran_app.
Qed.

Lemma X26_witness :
  tickWork sample_world (mkWatch None (Some []) None None) init_state
  = (Ok tt,
     ran [lit "lpstat -p -d"; lit "lpstat -v";
          statusCommand (lit "HP_LaserJet");
          statusCommand (lit "Canon_TS3300")] init_state).
Proof.
  apply (@X26_idle_tick_only_looks sample_world
           (mkWatch None (Some []) None None) init_state
           (snd (getAllPrinters sample_world init_state))
           (parsePrinters sample_list sample_devices)).
  - now right.
  - vm_compute. reflexivity.
  - assert (Hclean : ~ reports_stopped []).
    { intros H. apply stopped_spec in H. discriminate. }
    simpl. repeat split; try (exists []; split; [reflexivity | exact Hclean]).
Defined.

(** X27. A successful print from a buffer went through every step: the
    write of the staging file was not refused; both directory commands
    were answered and a record carries the requested name; the submission
    command is the one [buildPrintCommand] builds for the staging path; the
    job id is [extractJobId] of its output; and the call did exactly this,
    in order: the write, the two queries, the submission, the unlink, and
    a warning at most. *)
Theorem X27_buffer_success (w : World) (printerName : str)
  (bytes : list Byte.byte) (options : PrintOptions) (st : State) (id : str) :
  fst (printImage w printerName (FromBuffer bytes) options st) = Ok id ->
  write_failure w (tempPath w) = None
  /\ (exists printerList printerDevices out,
         exec_result w (clock st) (lit "lpstat -p -d") = inl printerList
         /\ exec_result w (S (clock st)) (lit "lpstat -v") = inl printerDevices
         /\ (exists q, In q (parsePrinters printerList printerDevices)
                       /\ name q = printerName)
         /\ exec_result w (S (S (clock st)))
              (buildPrintCommand printerName (tempPath w) options) = inl out
         /\ id = extractJobId out)
  /\ exists tail,
       trace (snd (printImage w printerName (FromBuffer bytes) options st))
       = trace st
           ++ [EvWriteFile (tempPath w); EvExec (lit "lpstat -p -d");
               EvExec (lit "lpstat -v");
               EvExec (buildPrintCommand printerName (tempPath w) options);
               EvUnlink (tempPath w)]
           ++ tail
       /\ (tail = [] \/ tail = [cleanup_warning (tempPath w)]).
Proof.
  unfold printImage, finally.
  destruct (tryBlock w printerName (FromBuffer bytes) options st)
    as [r st1] eqn:T.
  cbn [fst snd]. intros ->. revert T.
  unfold tryBlock, stageInput, wrap_errors, try_catch, bind, fs_writeFile.
  cbv beta.
  destruct (write_failure w (tempPath w)) as [f|] eqn:Hw; [discriminate|].
  unfold ret at 1. cbv beta iota. rewrite getAllPrinters_cases.
  cbn [clock log].
  destruct (exec_result w (clock st) (lit "lpstat -p -d")) as [pl|f1] eqn:E1;
    [|discriminate].
  destruct (exec_result w (S (clock st)) (lit "lpstat -v")) as [pd|f2] eqn:E2;
    [|discriminate].
  destruct (find_name printerName (parsePrinters pl pd))
    as [(q & Hfind & Hin & Hq) | (Hfind & Hnone)]; rewrite Hfind;
    [|discriminate].
  rewrite execAsync_run, ran_app. cbn [clock ran List.length Nat.add].
  destruct (exec_result w (S (S (clock st)))
              (buildPrintCommand printerName (tempPath w) options))
    as [out|f3] eqn:E3; [|discriminate].
  unfold ret. intros E. injection E as <- <-.
  split; [reflexivity|]. split.
  - exists pl, pd, out. repeat split; eauto.
  - match goal with
    | |- context [cleanup w _ ?s] =>
        destruct (cleanup_run w (tempPath w) s) as ((tail & Hc & Ht & _) & _)
    end.
    exists tail. split; [|exact Ht]. rewrite Hc. simpl.
    rewrite <- !app_assoc. reflexivity.
Qed.

Lemma X27_witness :
  exists tail,
    trace (snd (printImage sample_world (lit "Canon_TS3300")
                  (FromBuffer [Byte.x89; Byte.x50; Byte.x4e; Byte.x47])
                  no_options init_state))
    = trace init_state
        ++ [EvWriteFile (tempPath sample_world);
            EvExec (lit "lpstat -p -d"); EvExec (lit "lpstat -v");
            EvExec (buildPrintCommand (lit "Canon_TS3300")
                      (tempPath sample_world) no_options);
            EvUnlink (tempPath sample_world)]
        ++ tail
    /\ (tail = [] \/ tail = [cleanup_warning (tempPath sample_world)]).
Proof.
  apply (@X27_buffer_success sample_world (lit "Canon_TS3300")
           [Byte.x89; Byte.x50; Byte.x4e; Byte.x47] no_options init_state
           (lit "42")).
  reflexivity.
Defined.

(* ===================================================================== *)
(** ** Further properties: the choice of [printToUSB] *)
(* ===================================================================== *)

(** X28. [printToUSB] does not look at the USB flags.  When the default
    line of the report names a listed printer whose transport locator does
    not mention "usb", that printer is chosen and receives the job, whether
    or not USB printers are listed: the chosen record is then none of those
    [getUSBPrinters] returns. *)
Theorem X28_usb_flag_ignored (w : World) (input : image_input)
  (options : PrintOptions) (st st1 : State) (ps : list Printer)
  (printerList P : str) (r : Printer) :
  getAllPrinters w st = (Ok ps, st1) ->
  exec_result w (clock st) (lit "lpstat -p -d") = inl printerList ->
  re_match re_default printerList = Some [P] ->
  In r ps -> name r = P -> isUSB r = false ->
  exists c,
    choosePrinter ps = Some c /\ name c = P /\ isUSB c = false
    /\ ~ In c (filter isUSB ps)
    /\ getUSBPrinters w st = (Ok (filter isUSB ps), st1)
    /\ printToUSB w input options st
       = (match fst (printImage w P input options st1) with
          | Ok jobId => Ok (P, jobId)
          | Err e => Err e
          end, snd (printImage w P input options st1)).
Proof.
  intros G Hl HP Hin Hr Hu.
  assert (Hd : isDefault r = true) by (eapply isDefault_named; eauto).
  destruct (@find_present _ isDefault ps r Hin Hd) as (c & Hf & Hc).
  assert (Hcin : In c ps) by now apply find_some in Hf.
  assert (Hcn : name c = P) by (eapply isDefault_named; eauto).
  assert (Hcu : isUSB c = false).
  { pose proof G as G'.
    apply getAllPrinters_ok in G' as (pl & pd & _ & _ & -> & _).
    apply parsePrinters_In in Hin as (l1 & _ & H1).
    apply parsePrinters_In in Hcin as (l2 & _ & H2).
    apply parseLine_shape in H1 as (_ & _ & _ & _ & _ & _ & _ & B1).
    apply parseLine_shape in H2 as (_ & _ & _ & _ & _ & _ & _ & B2).
    rewrite B2, Hcn, <- Hr, <- B1. exact Hu. }
  exists c. unfold choosePrinter at 1. rewrite Hf.
  split; [reflexivity|]. split; [exact Hcn|]. split; [exact Hcu|].
  split; [|split].
  - intros H. apply filter_In in H as [_ H]. congruence.
  - unfold getUSBPrinters, bind. now rewrite G.
  - rewrite (@printToUSB_run w input options st st1 ps G).
    unfold choosePrinter. rewrite Hf, Hcn.
    now destruct (printImage w P input options st1).
Qed.

Lemma X28_witness :
  fst (printToUSB office_world (FromPath sample_path) no_options
         (state_with sample_path))
  = Ok (lit "HP_LaserJet", lit "42")
  /\ map name (filter isUSB (parsePrinters hp_default_list sample_devices))
     = [lit "Canon_TS3300"].
Proof.
  split; [|reflexivity].
  pose (st0 := state_with sample_path).
  pose (r := mkPrinter (lit "HP_LaserJet") (lit "ipp://hp.local/ipp/print")
               (lit "is idle.  enabled since Mon 02 Nov 2026") true false
               (Some (lit "is idle.  enabled since Mon 02 Nov 2026"))).
  destruct (@X28_usb_flag_ignored office_world (FromPath sample_path)
              no_options st0 (snd (getAllPrinters office_world st0))
              (parsePrinters hp_default_list sample_devices)
              hp_default_list (lit "HP_LaserJet") r)
    as (c & _ & _ & _ & _ & _ & Hrun).
  - vm_compute. reflexivity.
  - reflexivity.
  - reflexivity.
  - left. reflexivity.
  - reflexivity.
  - reflexivity.
  - fold st0. rewrite Hrun. reflexivity.
Defined.
